(** * AIStore target core: a shallow embedding of the mountpath manager,
    the xaction base, the mirror placement, the EC request loop and the
    EC coordinator, with the properties of their specification. *)

From Stdlib Require Import ZArith Lia Bool List Ascii String.
From stdpp Require Import base gmap strings list fin_maps.

Local Open Scope Z_scope.

(* ===================================================================== *)
(** ** Common machinery *)
(* ===================================================================== *)

(** Go's [int64] arithmetic wraps around; [wrap64] brings an integer back
    into the range [-2^63, 2^63). *)
Definition wrap64 (z : Z) : Z := (z + 2 ^ 63) mod 2 ^ 64 - 2 ^ 63.

Definition in_int64 (z : Z) : Prop := - 2 ^ 63 <= z < 2 ^ 63.

(** The result of a Go call that may panic. *)
Inductive Outcome (A : Type) : Type :=
| Ok (a : A)
| Panic (msg : string).
Arguments Ok {A} a.
Arguments Panic {A} msg.

(* ===================================================================== *)
(** ** Package cmn: XactBase and XactDemandBase *)
(* ===================================================================== *)

Module Cmn.

(** A channel of [struct{}] that is never sent on: only its open/closed
    state matters. *)
Inductive ChanState : Type := ChanOpen | ChanClosed.

(** Observable effects of the xaction methods. *)
Inductive Event : Type :=
| EvCloseAbrt
| EvLog (line : string).

Definition is_close (e : Event) : bool :=
  match e with EvCloseAbrt => true | EvLog _ => false end.

Record XactBase : Type := mkXactBase {
  id : Z;
  sutime : Z;
  eutime : Z;
  kind : string;
  bucket : string;
  abrt : ChanState;
  aborted : bool;
  bckIsLocal : bool
}.

Definition set_eutime (u : Z) (x : XactBase) : XactBase :=
  mkXactBase (id x) (sutime x) u (kind x) (bucket x) (abrt x) (aborted x)
             (bckIsLocal x).
Definition set_sutime (u : Z) (x : XactBase) : XactBase :=
  mkXactBase (id x) u (eutime x) (kind x) (bucket x) (abrt x) (aborted x)
             (bckIsLocal x).
Definition set_aborted (b : bool) (x : XactBase) : XactBase :=
  mkXactBase (id x) (sutime x) (eutime x) (kind x) (bucket x) (abrt x) b
             (bckIsLocal x).
Definition set_abrt (c : ChanState) (x : XactBase) : XactBase :=
  mkXactBase (id x) (sutime x) (eutime x) (kind x) (bucket x) c (aborted x)
             (bckIsLocal x).

(** [NewXactBase]: [stime] is [time.Now().UnixNano()]. *)
Definition NewXactBase (stime : Z) (id : Z) (kind : string) : XactBase :=
  mkXactBase id stime 0 kind "" ChanOpen false false.

Definition NewXactBaseWithBucket (stime : Z) (id : Z) (kind bucket : string)
    (bckIsLocal : bool) : XactBase :=
  let x := NewXactBase stime id kind in
  mkXactBase (Cmn.id x) (sutime x) (eutime x) (Cmn.kind x) bucket (abrt x)
             (aborted x) bckIsLocal.

Definition Finished (x : XactBase) : bool := negb (eutime x =? 0).
Definition Aborted (x : XactBase) : bool := aborted x.
Definition ChanAbort (x : XactBase) : ChanState := abrt x.

(** [EndTime(e)] with an argument stores [e.UnixNano()]. *)
Definition EndTime (e : Z) (x : XactBase) : XactBase := set_eutime e x.
Definition StartTime (s : Z) (x : XactBase) : XactBase := set_sutime s x.

(** Go's [close(ch)]: closing a closed channel panics. *)
Definition close_chan (c : ChanState) : Outcome ChanState :=
  match c with
  | ChanOpen => Ok ChanClosed
  | ChanClosed => Panic "close of closed channel"
  end.

(** [aborted.CAS(false, true)]: the new flag and whether it swapped. *)
Definition CAS_false_true (b : bool) : bool * bool :=
  if b then (true, false) else (true, true).

(** [XactBase.Abort]; [now] is [time.Now().UnixNano()]. *)
Definition Abort (now : Z) (x : XactBase) : Outcome (XactBase * list Event) :=
  let '(flag, swapped) := CAS_false_true (aborted x) in
  if negb swapped then Ok (x, [EvLog "already aborted"])
  else
    let x1 := set_aborted flag x in
    let x2 := set_eutime now x1 in
    match close_chan (abrt x2) with
    | Panic m => Panic m
    | Ok c => Ok (set_abrt c x2, [EvCloseAbrt; EvLog "ABORT"])
    end.

(** A sequence of [Abort] calls, one per clock reading. *)
Fixpoint Abort_many (nows : list Z) (x : XactBase)
    : Outcome (XactBase * list Event) :=
  match nows with
  | [] => Ok (x, [])
  | now :: rest =>
      match Abort now x with
      | Panic m => Panic m
      | Ok (x', ev) =>
          match Abort_many rest x' with
          | Panic m => Panic m
          | Ok (x'', ev') => Ok (x'', ev ++ ev')
          end
      end
  end.

Definition count_closes (ev : list Event) : nat :=
  length (List.filter is_close ev).

(** *** Concurrent callers of Abort

    Each caller runs the three atomic actions of [Abort] in order: the
    compare-and-swap, the store of the end time, the close.  The
    scheduler picks which caller moves next. *)
Inductive Pc : Type :=
| PcCAS                (* about to run aborted.CAS(false, true) *)
| PcStore              (* won the CAS, about to store eutime *)
| PcClose              (* about to close(abrt) *)
| PcDone.              (* returned *)

Record Conc : Type := mkConc {
  shared : XactBase;
  pcs : list Pc;
  closes : nat;          (* completed close(abrt) operations *)
  panicked : bool
}.

(** One atomic action of caller [i]; [now] is the clock, read by the
    action that stores the end time. *)
Definition conc_step (i : nat) (now : Z) (c : Conc) : option Conc :=
  if panicked c then None else
  match pcs c !! i with
  | None => None
  | Some PcDone => None
  | Some PcCAS =>
      let '(flag, swapped) := CAS_false_true (aborted (shared c)) in
      if swapped
      then Some (mkConc (set_aborted flag (shared c))
                        (<[i := PcStore]> (pcs c)) (closes c) false)
      else Some (mkConc (shared c) (<[i := PcDone]> (pcs c)) (closes c) false)
  | Some PcStore =>
      Some (mkConc (set_eutime now (shared c)) (<[i := PcClose]> (pcs c))
                   (closes c) false)
  | Some PcClose =>
      match close_chan (abrt (shared c)) with
      | Panic _ => Some (mkConc (shared c) (pcs c) (closes c) true)
      | Ok ch => Some (mkConc (set_abrt ch (shared c)) (<[i := PcDone]> (pcs c))
                              (S (closes c)) false)
      end
  end.

Definition conc_init (x : XactBase) (n : nat) : Conc :=
  mkConc x (replicate n PcCAS) 0 false.

(** Run a schedule; a choice that cannot move is skipped. *)
Fixpoint conc_run (sched : list (nat * Z)) (c : Conc) : Conc :=
  match sched with
  | [] => c
  | (i, now) :: rest =>
      match conc_step i now c with
      | Some c' => conc_run rest c'
      | None => conc_run rest c
      end
  end.

Definition all_done (c : Conc) : bool :=
  forallb (fun p => match p with PcDone => true | _ => false end) (pcs c).

Definition inflight (p : Pc) : nat :=
  match p with PcStore | PcClose => 1 | PcCAS | PcDone => 0 end.

Fixpoint count_inflight (l : list Pc) : nat :=
  match l with
  | [] => 0
  | p :: l' => inflight p + count_inflight l'
  end.

(** The invariant of the compare-and-swap guard: at most one caller is
    ever between its successful swap and its close, and the channel is
    closed exactly when that caller has closed it. *)
Record conc_inv (c : Conc) : Prop := {
  inv_no_panic : panicked c = false;
  inv_budget : (count_inflight (pcs c) + closes c
                = if aborted (shared c) then 1 else 0)%nat;
  inv_chan : abrt (shared c) = ChanClosed <-> closes c = 1%nat;
  inv_fresh : aborted (shared c) = false -> Forall (fun p => p = PcCAS) (pcs c)
}.

(** *** XactDemandBase *)

Record XactDemandBase : Type := mkXactDemandBase {
  base : XactBase;
  ticker_stopped : bool;
  renew : Z;
  pending : Z
}.

Definition NewXactDemandBase (stime : Z) (id : Z) (kind bucket : string)
    (bckIsLocal : bool) : XactDemandBase :=
  mkXactDemandBase (NewXactBaseWithBucket stime id kind bucket bckIsLocal)
                   false 0 0.

Definition Renew (r : XactDemandBase) : XactDemandBase :=
  mkXactDemandBase (base r) (ticker_stopped r) 1 (pending r).
Definition IncPending (r : XactDemandBase) : XactDemandBase :=
  mkXactDemandBase (base r) (ticker_stopped r) (renew r)
                   (wrap64 (pending r + 1)).
Definition DecPending (r : XactDemandBase) : XactDemandBase :=
  mkXactDemandBase (base r) (ticker_stopped r) (renew r)
                   (wrap64 (pending r - 1)).
Definition Pending (r : XactDemandBase) : Z := pending r.

(** [Timeout]: with pending work the renewal counter is left alone;
    otherwise it is decremented and the new value decides. *)
Definition Timeout (r : XactDemandBase) : bool * XactDemandBase :=
  if pending r >? 0 then (false, r)
  else
    let v := wrap64 (renew r - 1) in
    (v <? 0, mkXactDemandBase (base r) (ticker_stopped r) v (pending r)).

Definition Stop (r : XactDemandBase) : XactDemandBase :=
  mkXactDemandBase (base r) true (renew r) (pending r).

(** The calls a client makes on a demand xaction. *)
Inductive DemandOp : Type :=
| OpRenew | OpIncPending | OpDecPending | OpTimeout.

Definition demand_step (r : XactDemandBase) (op : DemandOp) : XactDemandBase :=
  match op with
  | OpRenew => Renew r
  | OpIncPending => IncPending r
  | OpDecPending => DecPending r
  | OpTimeout => snd (Timeout r)
  end.

Definition demand_run (ops : list DemandOp) (r : XactDemandBase)
    : XactDemandBase :=
  fold_left demand_step ops r.

(** The specification's reading of the renewal flag along a history of
    calls: [Renew] sets it, every [Timeout] check clears it. *)
Definition spec_flag_step (flag : bool) (op : DemandOp) : bool :=
  match op with
  | OpRenew => true
  | OpTimeout => false
  | OpIncPending | OpDecPending => flag
  end.

Definition renewed_since_last_timeout (ops : list DemandOp) : bool :=
  fold_left spec_flag_step ops false.

(** The flag as the code keeps it: only a [Timeout] check that finds no
    pending work clears it.  The second component follows the pending
    counter. *)
Definition idle_flag_step (s : bool * Z) (op : DemandOp) : bool * Z :=
  match op with
  | OpRenew => (true, snd s)
  | OpIncPending => (fst s, wrap64 (snd s + 1))
  | OpDecPending => (fst s, wrap64 (snd s - 1))
  | OpTimeout => if snd s >? 0 then s else (false, snd s)
  end.

Definition renewed_since_last_idle_check (ops : list DemandOp) : bool :=
  fst (fold_left idle_flag_step ops (false, 0)).

(** What a history of calls leaves in the two counters. *)
Record demand_inv (ops : list DemandOp) (r : XactDemandBase) : Prop := {
  dinv_hi : renew r <= 1;
  dinv_lo : - Z.of_nat (length ops) <= renew r;
  dinv_flag : (renew r >? 0) = renewed_since_last_idle_check ops;
  dinv_pending : pending r = snd (fold_left idle_flag_step ops (false, 0))
}.


End Cmn.

(* ===================================================================== *)
(** ** Package fs: the mountpath manager *)
(* ===================================================================== *)

Module Fs.

(** *** Strings and paths (Go's [strings] and [path/filepath]) *)

Definition HasPrefix (s p : string) : bool := String.prefix p s.

Definition HasSuffix (s suffix : string) : bool :=
  String.prefix (String.rev suffix) (String.rev s).

Fixpoint Contains (s substr : string) : bool :=
  String.prefix substr s ||
  match s with
  | EmptyString => false
  | String _ s' => Contains s' substr
  end.

(** The elements of a path between separators. *)
Fixpoint split_on (sep : ascii) (s : string) : list string :=
  match s with
  | EmptyString => [EmptyString]
  | String c s' =>
      let r := split_on sep s' in
      if Ascii.eqb c sep then EmptyString :: r
      else match r with
           | [] => [String c EmptyString]
           | h :: t => String c h :: t
           end
  end.

(** The element loop of [filepath.Clean]; [out] holds the kept elements,
    last first. *)
Fixpoint clean_elems (rooted : bool) (elems out : list string) : list string :=
  match elems with
  | [] => out
  | e :: rest =>
      if String.eqb e "" || String.eqb e "." then clean_elems rooted rest out
      else if String.eqb e ".." then
        match out with
        | o :: out' =>
            if String.eqb o ".." then clean_elems rooted rest (e :: out)
            else clean_elems rooted rest out'
        | [] =>
            if rooted then clean_elems rooted rest out
            else clean_elems rooted rest [e]
        end
      else clean_elems rooted rest (e :: out)
  end.

(** [filepath.Clean] on Unix: the shortest path equivalent by purely
    lexical processing. *)
Definition Clean (path : string) : string :=
  if String.eqb path "" then "."
  else
    let rooted := HasPrefix path "/" in
    let out := rev (clean_elems rooted (split_on "/"%char path) []) in
    if rooted then "/" +:+ String.concat "/" out
    else match out with
         | [] => "."
         | _ => String.concat "/" out
         end.

Definition Separator : string := "/".
Definition CloudBs : string := "cloud".
Definition LocalBs : string := "local".

(** *** Data *)

(** [syscall.Fsid]: two 32-bit words. *)
Abbreviation syscall_Fsid := (Z * Z)%type.

Record MountpathInfo : Type := mkMountpathInfo {
  Path : string;
  OrigPath : string;
  Fsid : syscall_Fsid;
  FileSystem : string;
  PathDigest : Z
}.

(** What the operating system and the hashing library answer. *)
Record OS : Type := mkOS {
  os_Stat : string -> bool;                       (* true: no error *)
  syscall_Statfs : string -> option syscall_Fsid; (* None: error *)
  Fqn2fsAtStartup : string -> option string;      (* None: error *)
  xxhash_ChecksumString64S : string -> Z -> Z
}.

Definition MLCG32 : Z := 1103515245.

Definition newMountpath (os : OS) (path : string) (fsid : syscall_Fsid)
    (fs : string) : MountpathInfo :=
  let cleanPath := Clean path in
  mkMountpathInfo cleanPath path fsid fs
                  (xxhash_ChecksumString64S os cleanPath MLCG32).

Inductive Error : Type :=
| ErrSuffix (mpath invalid : string)
| ErrContains (mpath invalid : string)
| ErrDoesNotExist (mpath : string)
| ErrStatfs (mpath : string)
| ErrFilesystem (mpath : string)
| ErrAlreadyRegistered (path : string)
| ErrSameFsid (mpath existingPath : string)
| ErrNonExisting (mpath : string).

Inductive Event : Type :=
| EvIostatAdd (mpath fs : string)
| EvIostatRemove (mpath : string)
| EvLogError (msg : string) (mp : MountpathInfo)
| EvLogInfo (msg : string) (mp : MountpathInfo) (remain : nat).

Definition is_error_log (e : Event) : bool :=
  match e with EvLogError _ _ => true | _ => false end.

(** The atomically published maps are [nil] until the first
    publication. *)
Record MountedFS : Type := mkMountedFS {
  fsIDs : gmap syscall_Fsid string;
  checkFsID : bool;
  available : option (gmap string MountpathInfo);
  disabled : option (gmap string MountpathInfo);
  xattrMpath : option MountpathInfo
}.

Definition NewMountedFS : MountedFS :=
  mkMountedFS ∅ true None None None.

Definition DisableFsIDCheck (mfs : MountedFS) : MountedFS :=
  mkMountedFS (fsIDs mfs) false (available mfs) (disabled mfs) (xattrMpath mfs).

Definition set_fsIDs (ids : gmap syscall_Fsid string) (mfs : MountedFS)
    : MountedFS :=
  mkMountedFS ids (checkFsID mfs) (available mfs) (disabled mfs)
              (xattrMpath mfs).

Definition Get (mfs : MountedFS)
    : gmap string MountpathInfo * gmap string MountpathInfo :=
  (default ∅ (available mfs), default ∅ (disabled mfs)).

Definition NumAvail (mfs : MountedFS) : Outcome nat :=
  match available mfs with
  | Some m => Ok (size m)
  | None => Panic "nil pointer dereference"
  end.

(** A shallow copy of a Go map is the same finite map. *)
Definition mountpathsCopy (mfs : MountedFS)
    : gmap string MountpathInfo * gmap string MountpathInfo :=
  Get mfs.

Definition updatePaths (avail dis : gmap string MountpathInfo)
    (mfs : MountedFS) : MountedFS :=
  mkMountedFS (fsIDs mfs) (checkFsID mfs) (Some avail) (Some dis) None.

(** *** Operations *)

(** The reserved-segment loop at the head of [Add]. *)
Fixpoint check_reserved (mpath : string) (buckets : list string)
    : option Error :=
  match buckets with
  | [] => None
  | bucket :: rest =>
      let invalidMpath := Separator +:+ bucket in
      if HasSuffix mpath invalidMpath then Some (ErrSuffix mpath invalidMpath)
      else
        let invalidMpath := invalidMpath +:+ Separator in
        if Contains mpath invalidMpath
        then Some (ErrContains mpath invalidMpath)
        else check_reserved mpath rest
  end.

Definition Add (os : OS) (mpath : string) (mfs : MountedFS)
    : option Error * MountedFS * list Event :=
  match check_reserved mpath [LocalBs; CloudBs] with
  | Some e => (Some e, mfs, [])
  | None =>
    if negb (os_Stat os mpath) then (Some (ErrDoesNotExist mpath), mfs, [])
    else
    match syscall_Statfs os mpath with
    | None => (Some (ErrStatfs mpath), mfs, [])
    | Some fsid =>
      match Fqn2fsAtStartup os mpath with
      | None => (Some (ErrFilesystem mpath), mfs, [])
      | Some fs =>
        let mp := newMountpath os mpath fsid fs in
        let '(availablePaths, disabledPaths) := mountpathsCopy mfs in
        match availablePaths !! Path mp with
        | Some _ => (Some (ErrAlreadyRegistered (Path mp)), mfs, [])
        | None =>
          let ev := [EvIostatAdd (Path mp) (FileSystem mp)] in
          match fsIDs mfs !! Fsid mp, checkFsID mfs with
          | Some existingPath, true =>
              (Some (ErrSameFsid mpath existingPath), mfs, ev)
          | _, _ =>
              let availablePaths := <[Path mp := mp]> availablePaths in
              let mfs1 := set_fsIDs (<[Fsid mp := mpath]> (fsIDs mfs)) mfs in
              (None, updatePaths availablePaths disabledPaths mfs1, ev)
          end
        end
      end
    end
  end.

Definition Remove (mpath : string) (mfs : MountedFS)
    : option Error * MountedFS * list Event :=
  let mpath := Clean mpath in
  let '(availablePaths, disabledPaths) := mountpathsCopy mfs in
  match availablePaths !! mpath with
  | None =>
      match disabledPaths !! mpath with
      | None => (Some (ErrNonExisting mpath), mfs, [])
      | Some mp =>
          let disabledPaths := delete mpath disabledPaths in
          let mfs1 := set_fsIDs (delete (Fsid mp) (fsIDs mfs)) mfs in
          (None, updatePaths availablePaths disabledPaths mfs1, [])
      end
  | Some mp =>
      let availablePaths := delete mpath availablePaths in
      let mfs1 := set_fsIDs (delete (Fsid mp) (fsIDs mfs)) mfs in
      let l := size availablePaths in
      let log :=
        if Nat.eqb l 0
        then EvLogError "removed the last available mountpath" mp
        else EvLogInfo "removed mountpath" mp l in
      (None, updatePaths availablePaths disabledPaths mfs1,
       [EvIostatRemove mpath; log])
  end.

Definition Enable (mpath : string) (mfs : MountedFS)
    : (bool * bool) * MountedFS * list Event :=
  let mpath := Clean mpath in
  let '(availablePaths, disabledPaths) := mountpathsCopy mfs in
  match availablePaths !! mpath with
  | Some _ => ((false, true), mfs, [])
  | None =>
      match disabledPaths !! mpath with
      | Some mp =>
          let availablePaths := <[mpath := mp]> availablePaths in
          let disabledPaths := delete mpath disabledPaths in
          ((true, true), updatePaths availablePaths disabledPaths mfs,
           [EvIostatAdd mpath (FileSystem mp)])
      | None => ((false, false), mfs, [])
      end
  end.

Definition Disable (mpath : string) (mfs : MountedFS)
    : (bool * bool) * MountedFS * list Event :=
  let mpath := Clean mpath in
  let '(availablePaths, disabledPaths) := mountpathsCopy mfs in
  match availablePaths !! mpath with
  | Some mpathInfo =>
      let disabledPaths := <[mpath := mpathInfo]> disabledPaths in
      let availablePaths := delete mpath availablePaths in
      let l := size availablePaths in
      let log :=
        if Nat.eqb l 0
        then EvLogError "disabled the last available mountpath" mpathInfo
        else EvLogInfo "disabled mountpath" mpathInfo l in
      ((true, true), updatePaths availablePaths disabledPaths mfs,
       [EvIostatRemove mpath; log])
  | None =>
      match disabledPaths !! mpath with
      | Some _ => ((false, true), mfs, [])
      | None => ((false, false), mfs, [])
      end
  end.

(** *** Histories of lifecycle operations *)

Inductive Op : Type :=
| OpAdd (mpath : string)
| OpRemove (mpath : string)
| OpEnable (mpath : string)
| OpDisable (mpath : string).

Definition step (os : OS) (mfs : MountedFS) (op : Op) : MountedFS :=
  match op with
  | OpAdd p => snd (fst (Add os p mfs))
  | OpRemove p => snd (fst (Remove p mfs))
  | OpEnable p => snd (fst (Enable p mfs))
  | OpDisable p => snd (fst (Disable p mfs))
  end.

Definition run (os : OS) (ops : list Op) (mfs : MountedFS) : MountedFS :=
  fold_left (step os) ops mfs.

(** A mountpath is registered when either published map holds it. *)
Definition registered (mfs : MountedFS) (k : string) (mp : MountpathInfo)
    : Prop :=
  fst (Get mfs) !! k = Some mp \/ snd (Get mfs) !! k = Some mp.

(** The operating system answers [statfs] by the cleaned path. *)
Definition statfs_lexical (os : OS) : Prop :=
  forall p q, Clean p = Clean q -> syscall_Statfs os p = syscall_Statfs os q.

(** What every history from [NewMountedFS] maintains. *)
Record mfs_inv (os : OS) (mfs : MountedFS) : Prop := {
  inv_check : checkFsID mfs = true;
  inv_disjoint : forall k, fst (Get mfs) !! k = None \/ snd (Get mfs) !! k = None;
  inv_known : forall k mp, registered mfs k mp ->
      is_Some (fsIDs mfs !! Fsid mp) /\
      exists orig, Clean orig = k /\ syscall_Statfs os orig = Some (Fsid mp);
  inv_unique : forall k1 k2 mp1 mp2,
      registered mfs k1 mp1 -> registered mfs k2 mp2 ->
      Fsid mp1 = Fsid mp2 -> k1 = k2
}.

End Fs.

(* ===================================================================== *)
(** ** Package cluster: the local object record *)
(* ===================================================================== *)

Module Cluster.

Record ECConf : Type := mkECConf {
  ObjSizeLimit : Z;
  DataSlices : Z;
  ParitySlices : Z;
  Enabled : bool
}.

(** Modelled from the spec: [ECConf.RequiredEncodeTargets] is not in the
    source; encoding requires [DataSlices + ParitySlices + 1] targets. *)
Definition RequiredEncodeTargets (c : ECConf) : Z :=
  DataSlices c + ParitySlices c + 1.

(** Modelled from the spec: [ECConf.RequiredRestoreTargets] is not in the
    source; restoring requires [DataSlices + 1] targets. *)
Definition RequiredRestoreTargets (c : ECConf) : Z :=
  DataSlices c + 1.

Record BucketProps : Type := mkBucketProps {
  EC : ECConf
}.

(** [MpathInfo] is a pointer that the FQN resolver sets on every success;
    a parsed FQN with a nil mountpath is not represented. *)
Record ParsedFQN : Type := mkParsedFQN {
  MpathInfo : Fs.MountpathInfo;
  ContentType : string;
  ParsedBucket : string;
  ParsedObjname : string;
  IsLocal : bool
}.

(** The persisted part of an object's metadata. *)
Record LomMeta : Type := mkLomMeta {
  md_version : string;
  md_cksum : option (string * string);
  md_copyFQN : list string
}.

(** Modelled from the spec: the [cluster.LOM] type is not in the source;
    the fields the mirror and EC code reads are kept. *)
Record LOM : Type := mkLOM {
  FQN : string;
  Bucket : string;
  Objname : string;
  BckIsLocal : bool;
  BckProps : BucketProps;
  lomParsedFQN : ParsedFQN;
  lom_size : Z;
  md : LomMeta
}.

Definition Size (lom : LOM) : Z := lom_size lom.
Definition CopyFQN (lom : LOM) : list string := md_copyFQN (md lom).

(** Modelled from the spec: [LOM.HasCopies] is not in the source; an
    object has copies when its copy-FQN list is not empty. *)
Definition HasCopies (lom : LOM) : bool :=
  match CopyFQN lom with [] => false | _ => true end.

End Cluster.

(* ===================================================================== *)
(** ** Package mirror: choosing the mountpath of a copy *)
(* ===================================================================== *)

Module Mirror.
Import Cluster.

(** The [mpather] interface, as far as the selection uses it. *)
Class mpather (M : Type) : Type := {
  mountpathInfo : M -> Fs.MountpathInfo
}.

(** What the selection asks of package fs: the FQN resolver ([None] is
    an error) and the current disk utilization of a mountpath. *)
Record Env : Type := mkEnv {
  FQN2Info : string -> option ParsedFQN;
  GetDiskUtil : string -> Z
}.

(** [parsedFQN.MpathInfo.Path] *)
Definition mpath_of (p : ParsedFQN) : string := Fs.Path (MpathInfo p).

(** The inner loop over the copies: [true] stands for [continue loop]. *)
Fixpoint skip_for_copies (env : Env) (path : string) (copies : list string)
    : bool :=
  match copies with
  | [] => false
  | cpyfqn :: rest =>
      match FQN2Info env cpyfqn with
      | None => true
      | Some parsedFQN =>
          if String.eqb path (mpath_of parsedFQN) then true
          else skip_for_copies env path rest
      end
  end.

Section Select.
Context {M : Type} `{mpather M}.
Variable env : Env.

(** Whether the loop body reaches the utilization test for [j]. *)
Definition examined (lom : LOM) (j : M) : bool :=
  let mpathInfo := mountpathInfo j in
  if String.eqb (Fs.Path mpathInfo) (mpath_of (lomParsedFQN lom)) then false
  else if HasCopies lom
            && skip_for_copies env (Fs.Path mpathInfo) (CopyFQN lom)
       then false
       else true.

(** One iteration of the loop; the accumulator is [(out, util)]. *)
Definition loop_body (lom : LOM) (acc : option M * Z) (j : M)
    : option M * Z :=
  if examined lom j then
    let u := GetDiskUtil env (Fs.Path (mountpathInfo j)) in
    if u <? snd acc then (Some j, u) else acc
  else acc.

(** [mpathers] lists the map's values in the order the range visits
    them. *)
Definition findLeastUtilized (lom : LOM) (mpathers : list M) : option M :=
  fst (fold_left (loop_body lom) mpathers (None, 101)).

(** The specification's survivors: not the primary's mountpath, and no
    existing copy resides on it. *)
Definition hosts_primary (lom : LOM) (j : M) : Prop :=
  Fs.Path (mountpathInfo j) = mpath_of (lomParsedFQN lom).

Definition hosts_copy (lom : LOM) (j : M) : Prop :=
  exists cpyfqn parsed,
    In cpyfqn (CopyFQN lom) /\ FQN2Info env cpyfqn = Some parsed /\
    Fs.Path (mountpathInfo j) = mpath_of parsed.

Definition survives (lom : LOM) (j : M) : Prop :=
  ~ hosts_primary lom j /\ ~ hosts_copy lom j.

Definition util_of (j : M) : Z :=
  GetDiskUtil env (Fs.Path (mountpathInfo j)).

Definition copies_resolve (lom : LOM) : Prop :=
  forall cpyfqn, In cpyfqn (CopyFQN lom) -> FQN2Info env cpyfqn <> None.

End Select.

(** A plain jogger handle, for concrete runs. *)
Record jogger : Type := mkJogger { jog_mpathInfo : Fs.MountpathInfo }.

#[global] Instance jogger_mpather : mpather jogger :=
  {| mountpathInfo := jog_mpathInfo |}.

End Mirror.

(* ===================================================================== *)
(** ** Package ec: the Put xaction and the slice receiver *)
(* ===================================================================== *)

Module Ec.
Import Cluster.

Definition requestBufSizeGlobal : nat := 140.
Definition requestBufSizeFS : nat := 70.
Definition controlBufSize : nat := 8.
Definition mpathReqBufSize : nat := 1.

Inductive Action : Type := ActSplit | ActDelete | ActRestore.

Inductive ControlAction : Type := ActClearRequests | ActEnableRequests.

Record RequestsControlMsg : Type := mkControlMsg {
  MsgAction : ControlAction
}.

Inductive MpathAction : Type := ActMountpathAdd | ActMountpathRemove.

Record mpathReq : Type := mkMpathReq {
  action : MpathAction;
  mpath : string
}.

Inductive Error : Type :=
| ErrorECDisabled
| ErrorInsufficientTargets
| ErrorNotFound
| ErrDisabledOnBucket (bck : string)  (* "EC disabled, can't procced ..." *)
| ErrBeingDisabled (bck : string)     (* "... is being disabled, no EC requests accepted" *)
| ErrAbortedExiting
| ErrOther (msg : string).

(** An error channel is named by a number; [None] is a nil channel. *)
Record Request : Type := mkRequest {
  ReqAction : Action;
  ReqLOM : LOM;
  IsCopy : bool;
  ErrCh : option nat;
  putTime : Z;
  tm : Z
}.

Inductive Event : Type :=
| EvErrSend (ch : nat) (e : Error)
| EvErrClose (ch : nat)
| EvStatsEncode (sz : Z)
| EvStatsDelete
| EvStatsQueue (len : nat)
| EvGoJogger (mpath : string)
| EvLog (line : string).

(** Modelled from the spec: [putJogger.run] and [putJogger.stop] are not
    in the source; a jogger is kept as its bounded work queue and the
    stop signals sent to it. *)
Record putJogger : Type := mkPutJogger {
  jog_mpath : string;
  workCh : list Request;
  stopCh : nat
}.

Definition jog_stop (j : putJogger) : putJogger :=
  mkPutJogger (jog_mpath j) (workCh j) (S (stopCh j)).

Record XactPut : Type := mkXactPut {
  demand : Cmn.XactDemandBase;
  bckName : string;
  mpathReqCh : list mpathReq;
  ecCh : list Request;
  controlCh : list RequestsControlMsg;
  rejectReq : bool;
  putJoggers : gmap string putJogger;
  running : bool;          (* the goroutine of Run is in its loop *)
  lastAction : Z
}.

Definition with_demand (d : Cmn.XactDemandBase) (r : XactPut) : XactPut :=
  mkXactPut d (bckName r) (mpathReqCh r) (ecCh r) (controlCh r) (rejectReq r)
            (putJoggers r) (running r) (lastAction r).
Definition with_mpathReqCh (q : list mpathReq) (r : XactPut) : XactPut :=
  mkXactPut (demand r) (bckName r) q (ecCh r) (controlCh r) (rejectReq r)
            (putJoggers r) (running r) (lastAction r).
Definition with_ecCh (q : list Request) (r : XactPut) : XactPut :=
  mkXactPut (demand r) (bckName r) (mpathReqCh r) q (controlCh r)
            (rejectReq r) (putJoggers r) (running r) (lastAction r).
Definition with_controlCh (q : list RequestsControlMsg) (r : XactPut)
    : XactPut :=
  mkXactPut (demand r) (bckName r) (mpathReqCh r) (ecCh r) q (rejectReq r)
            (putJoggers r) (running r) (lastAction r).
Definition with_rejectReq (b : bool) (r : XactPut) : XactPut :=
  mkXactPut (demand r) (bckName r) (mpathReqCh r) (ecCh r) (controlCh r) b
            (putJoggers r) (running r) (lastAction r).
Definition with_putJoggers (js : gmap string putJogger) (r : XactPut)
    : XactPut :=
  mkXactPut (demand r) (bckName r) (mpathReqCh r) (ecCh r) (controlCh r)
            (rejectReq r) js (running r) (lastAction r).
Definition with_running (b : bool) (r : XactPut) : XactPut :=
  mkXactPut (demand r) (bckName r) (mpathReqCh r) (ecCh r) (controlCh r)
            (rejectReq r) (putJoggers r) b (lastAction r).
Definition with_lastAction (t : Z) (r : XactPut) : XactPut :=
  mkXactPut (demand r) (bckName r) (mpathReqCh r) (ecCh r) (controlCh r)
            (rejectReq r) (putJoggers r) (running r) t.

Definition newPutJogger (mpath : string) : putJogger :=
  mkPutJogger mpath [] 0.

(** [NewPutXact]: one jogger per available and per disabled mountpath. *)
Definition NewPutXact (d : Cmn.XactDemandBase) (bucket : string)
    (mfs : Fs.MountedFS) : XactPut :=
  let '(availablePaths, disabledPaths) := Fs.Get mfs in
  let js := map_imap (fun mpath _ => Some (newPutJogger mpath))
                     (availablePaths ∪ disabledPaths) in
  mkXactPut d bucket [] [] [] false js false 0.

Definition Finished (r : XactPut) : bool := Cmn.Finished (Cmn.base (demand r)).

Definition setEcRequestsDisabled (r : XactPut) : XactPut := with_rejectReq true r.
Definition setEcRequestsEnabled (r : XactPut) : XactPut := with_rejectReq false r.
Definition ecRequestsEnabled (r : XactPut) : bool := negb (rejectReq r).

(** A send on a buffered channel: [None] when the buffer is full and the
    sender would block. *)
Definition chan_send {A : Type} (cap : nat) (x : A) (q : list A)
    : option (list A) :=
  if (length q <? cap)%nat then Some (q ++ [x]) else None.

Definition ClearRequests (r : XactPut) : option XactPut :=
  q ← chan_send controlBufSize (mkControlMsg ActClearRequests) (controlCh r);
  Some (with_controlCh q r).

Definition EnableRequests (r : XactPut) : option XactPut :=
  q ← chan_send controlBufSize (mkControlMsg ActEnableRequests) (controlCh r);
  Some (with_controlCh q r).

Definition abortECRequestWhenDisabled (r : XactPut) (req : Request)
    : list Event :=
  match ErrCh req with
  | Some ch => [EvErrSend ch (ErrDisabledOnBucket (bckName r)); EvErrClose ch]
  | None => []
  end.

(** [XactPut.stop]; [now] is the clock reading for the end time. *)
Definition stop (now : Z) (r : XactPut) : XactPut * list Event :=
  if Finished r then (r, [EvLog "not running, nothing to do"])
  else
    let d := Cmn.Stop (demand r) in
    let js := jog_stop <$> putJoggers r in
    let d' := Cmn.mkXactDemandBase (Cmn.EndTime now (Cmn.base d))
                (Cmn.ticker_stopped d) (Cmn.renew d) (Cmn.pending d) in
    (with_putJoggers js (with_demand d' r), []).

Definition dispatchDecodingRequest (r : XactPut) (req : Request)
    : option (XactPut * list Event) :=
  if negb (ecRequestsEnabled r) then Some (r, abortECRequestWhenDisabled r req)
  else
    q ← chan_send requestBufSizeGlobal req (ecCh r);
    Some (with_ecCh q r, []).

(** The time stamps that [Encode] and [Cleanup] put on a request.  The
    code reads the clock once for each of the two fields; [now] stands for
    both readings, and the stamps are read by nothing in this
    development. *)
Definition stamp (now : Z) (req : Request) : Request :=
  mkRequest (ReqAction req) (ReqLOM req) (IsCopy req) (ErrCh req) now now.

Definition Encode (now : Z) (r : XactPut) (req : Request)
    : option (XactPut * list Event) :=
  dispatchDecodingRequest r (stamp now req).

Definition Cleanup (now : Z) (r : XactPut) (req : Request)
    : option (XactPut * list Event) :=
  dispatchDecodingRequest r (stamp now req).

(** The result of one turn of the loop: the chosen case was not ready
    (or would block), the turn ran, or an assertion failed. *)
Inductive Turn : Type :=
| NotReady
| Ran (r : XactPut) (ev : list Event)
| Failed (msg : string).

Definition dispatchRequest (r : XactPut) (req : Request) : Turn :=
  if negb (ecRequestsEnabled r) then
    Ran r match ErrCh req with
          | Some ch => [EvErrSend ch (ErrBeingDisabled (bckName r)); EvErrClose ch]
          | None => []
          end
  else
    match ReqAction req with
    | ActDelete | ActSplit =>
        let r1 := with_demand (Cmn.IncPending (demand r)) r in
        let path := Fs.Path (MpathInfo (lomParsedFQN (ReqLOM req))) in
        match putJoggers r !! path with
        | None => Failed "Invalid mountpath given in EC request"
        | Some jogger =>
            match chan_send requestBufSizeFS req (workCh jogger) with
            | None => NotReady
            | Some q =>
                let jogger' := mkPutJogger (jog_mpath jogger) q (stopCh jogger) in
                Ran (with_putJoggers (<[path := jogger']> (putJoggers r)) r1)
                    [EvStatsQueue (length (workCh jogger))]
            end
        end
    | ActRestore => Ran r []
    end.

Definition addMpath (r : XactPut) (mpath : string) : XactPut * list Event :=
  match putJoggers r !! mpath with
  | Some _ => (r, [EvLog "Attempted to add already existing mountpath"])
  | None =>
      (with_putJoggers (<[mpath := newPutJogger mpath]> (putJoggers r)) r,
       [EvGoJogger mpath])
  end.

Definition removeMpath (r : XactPut) (mpath : string) : Turn :=
  match putJoggers r !! mpath with
  | None => Failed "Mountpath unregister handler for EC called with invalid mountpath"
  | Some _ => Ran (with_putJoggers (delete mpath (putJoggers r)) r) []
  end.

(** The drain loop of the clear branch: every queued request is failed. *)
Fixpoint drain (r : XactPut) (q : list Request) : list Event :=
  match q with
  | [] => []
  | req :: rest => abortECRequestWhenDisabled r req ++ drain r rest
  end.

(** The cases of the [select] in [Run]. *)
Inductive SelectCase : Type :=
| CaseTick
| CaseEcCh
| CaseMpathReqCh
| CaseCheckTimeout
| CaseControlCh
| CaseChanAbort.

Record Config : Type := mkConfig { SendFile : Z }.

(** [Run] up to its loop: the joggers are started. *)
Definition Run_start (now : Z) (r : XactPut) : XactPut * list Event :=
  (with_lastAction now (with_running true r),
   EvLog "Starting" :: (EvGoJogger <$> (fst <$> map_to_list (putJoggers r)))).

(** One turn of the loop of [Run], for the case the scheduler picked;
    [now] is the clock at that turn. *)
Definition Run_step (conf : Config) (now : Z) (c : SelectCase) (r : XactPut)
    : Turn :=
  if negb (running r) then NotReady else
  match c with
  | CaseTick => Ran r [EvLog "stats"]
  | CaseEcCh =>
      match ecCh r with
      | [] => NotReady
      | req :: rest =>
          let r1 := with_lastAction now (with_ecCh rest r) in
          let ev :=
            match ReqAction req with
            | ActSplit => [EvStatsEncode (Size (ReqLOM req))]
            | ActDelete => [EvStatsDelete]
            | ActRestore => [EvLog "Invalid request's action for putxaction"]
            end in
          match dispatchRequest r1 req with
          | Ran r2 ev' => Ran r2 (ev ++ ev')
          | other => other
          end
      end
  | CaseMpathReqCh =>
      match mpathReqCh r with
      | [] => NotReady
      | mpathRequest :: rest =>
          let r1 := with_mpathReqCh rest r in
          match action mpathRequest with
          | ActMountpathAdd =>
              let '(r2, ev) := addMpath r1 (mpath mpathRequest) in Ran r2 ev
          | ActMountpathRemove => removeMpath r1 (mpath mpathRequest)
          end
      end
  | CaseCheckTimeout =>
      let idleTimeout := SendFile conf * 3 in
      let idleEnds := lastAction r + idleTimeout in
      if idleEnds <? now then
        let '(expired, d) := Cmn.Timeout (demand r) in
        let r1 := with_demand d r in
        if expired then
          let '(r2, ev) := stop now r1 in Ran (with_running false r2) ev
        else Ran r1 []
      else Ran r []
  | CaseControlCh =>
      match controlCh r with
      | [] => NotReady
      | msg :: rest =>
          let r1 := with_controlCh rest r in
          match MsgAction msg with
          | ActEnableRequests => Ran (setEcRequestsEnabled r1) []
          | ActClearRequests =>
              let r2 := setEcRequestsDisabled r1 in
              let ev := drain r2 (ecCh r2) in
              let '(r3, ev') := stop now (with_ecCh [] r2) in
              Ran (with_running false r3) (ev ++ ev')
          end
      end
  | CaseChanAbort =>
      match Cmn.ChanAbort (Cmn.base (demand r)) with
      | Cmn.ChanOpen => NotReady
      | Cmn.ChanClosed =>
          let '(r1, ev) := stop now r in
          Ran (with_running false r1) (ev ++ [EvLog "aborted, exiting"])
      end
  end.

(** *** The slice receiver *)

Record ObjectAttrs : Type := mkObjectAttrs {
  AttrSize : Z;
  Version : string;
  Atime : Z;
  CksumType : string;
  CksumValue : string
}.

(** A response body: the bytes still to be read and how the stream ends
    ([None] is a clean EOF). *)
Record Reader : Type := mkReader {
  body : list Byte.byte;
  ends_with : option string
}.

(** The registered writer: the bytes it has been given so far. *)
Record Writer : Type := mkWriter {
  written : list Byte.byte;
  isFile : bool;
  closed : bool
}.

(** The [slice] record, by the fields the receiver touches; [wg] is the
    counter of the wait-group. *)
Record slice : Type := mkSlice {
  writer : Writer;
  wg : Z;
  n : Z;
  cksum : option (string * string);
  version : string
}.

Inductive IoEvent : Type :=
| IoAllocSlab
| IoWgDone
| IoDrain (bytes : nat)
| IoCopy (bytes : nat)
| IoFileClose
| IoFreeSlab.

(** [io.CopyBuffer(dst, src, buf)] reads [src] to its end: the bytes
    moved, the error of the read, and the exhausted reader. *)
Definition CopyBuffer (src : Reader) : list Byte.byte * option string * Reader :=
  (body src, ends_with src, mkReader [] (ends_with src)).

Section Receive.
(** [cmn.NewCksum] is not in the source. *)
Variable NewCksum : string -> string -> option (string * string).

(** [io.CopyBuffer(writer.writer, reader, buf)] into the registered writer
    is Go's: it stops at the first error of the writer or of the reader,
    and how much of the body it has read by then depends on both.  It is
    taken as given: the count and the error it returns, and what it leaves
    of the writer and of the reader. *)
Variable CopyToWriter : Writer -> Reader -> Z * option string * Writer * Reader.

Definition writerReceive (w : slice) (exists_ : bool) (objAttrs : ObjectAttrs)
    (reader : Reader)
    : slice * Reader * option (Error + string) * list IoEvent :=
  if negb exists_ then
    let w1 := mkSlice (writer w) (wg w - 1) (n w) (cksum w) (version w) in
    let '(bytes, _, reader') := CopyBuffer reader in
    (w1, reader', Some (inl ErrorNotFound),
     [IoAllocSlab; IoWgDone; IoDrain (length bytes); IoFreeSlab])
  else
    let '(count, err, wr1, reader') := CopyToWriter (writer w) reader in
    let wr2 := if isFile (writer w)
               then mkWriter (written wr1) (isFile wr1) true else wr1 in
    let ck := NewCksum (CksumType objAttrs) (CksumValue objAttrs) in
    let ver :=
      if negb (String.eqb (version w) "") && negb (String.eqb (Version objAttrs) "")
      then Version objAttrs else version w in
    (mkSlice wr2 (wg w - 1) count ck ver, reader',
     match err with Some e => Some (inr e) | None => None end,
     [IoAllocSlab; IoCopy (Z.to_nat count)]
       ++ (if isFile (writer w) then [IoFileClose] else [])
       ++ [IoWgDone; IoFreeSlab]).

(** Position of the first event satisfying [p], if any. *)
Fixpoint index_of (p : IoEvent -> bool) (l : list IoEvent) : option nat :=
  match l with
  | [] => None
  | e :: l' => if p e then Some 0%nat else S <$> index_of p l'
  end.

Definition is_wg_done (e : IoEvent) : bool :=
  match e with IoWgDone => true | _ => false end.
Definition is_drain (e : IoEvent) : bool :=
  match e with IoDrain _ => true | _ => false end.

(** [a] happens before [b] in the trace. *)
Definition before (a b : IoEvent -> bool) (l : list IoEvent) : Prop :=
  exists i j, index_of a l = Some i /\ index_of b l = Some j /\ (i < j)%nat.

End Receive.

(** A copy into a writer that accepts everything: the whole body is
    moved, and the error is the reader's. *)
Definition copy_all (wr : Writer) (src : Reader)
    : Z * option string * Writer * Reader :=
  (Z.of_nat (length (body src)), ends_with src,
   mkWriter (written wr ++ body src) (isFile wr) (closed wr),
   mkReader [] (ends_with src)).

(** A copy into a writer that fails after [k] bytes, the reader having
    handed over [k + extra] bytes by then. *)
Definition copy_fails (k extra : nat) (wr : Writer) (src : Reader)
    : Z * option string * Writer * Reader :=
  (Z.of_nat k, Some "write failed",
   mkWriter (written wr ++ take k (body src)) (isFile wr) (closed wr),
   mkReader (drop (k + extra) (body src)) (ends_with src)).

Definition is_copy (e : IoEvent) : bool :=
  match e with IoCopy _ => true | _ => false end.
Definition is_file_close (e : IoEvent) : bool :=
  match e with IoFileClose => true | _ => false end.

(** *** The xactions of one bucket *)

(** Modelled from the spec: [ec.IsECCopy] is not in the source; an object
    below the bucket's size limit is replicated rather than split. *)
Definition IsECCopy (size : Z) (ecConf : ECConf) : bool :=
  size <? ObjSizeLimit ecConf.

(** Modelled from the spec: the [XactGet] and [XactRespond] types are not
    in the source; each is kept as its demand base. *)
Record XactGet : Type := mkXactGet { get_demand : Cmn.XactDemandBase }.
Record XactRespond : Type := mkXactRespond { resp_demand : Cmn.XactDemandBase }.

Definition XactGet_Finished (g : XactGet) : bool :=
  Cmn.Finished (Cmn.base (get_demand g)).

(** Modelled from the spec: [XactGet.stop] is not in the source; stopping
    the Get xaction ends it the way [XactPut.stop] ends a Put xaction:
    the idle ticker is stopped and the end time recorded. *)
Definition XactGet_stop (now : Z) (g : XactGet) : XactGet :=
  if XactGet_Finished g then g
  else
    let d := Cmn.Stop (get_demand g) in
    mkXactGet (Cmn.mkXactDemandBase (Cmn.EndTime now (Cmn.base d))
                 (Cmn.ticker_stopped d) (Cmn.renew d) (Cmn.pending d)).

Record BckXacts : Type := mkBckXacts {
  get : option XactGet;
  put : option XactPut;
  req : option XactRespond
}.

Definition Get (xacts : BckXacts) : option XactGet := get xacts.
Definition Put (xacts : BckXacts) : option XactPut := put xacts.

Definition SetGet (xact : option XactGet) (xacts : BckXacts) : BckXacts :=
  mkBckXacts xact (put xacts) (req xacts).
Definition SetPut (xact : option XactPut) (xacts : BckXacts) : BckXacts :=
  mkBckXacts (get xacts) xact (req xacts).
Definition SetReq (xact : option XactRespond) (xacts : BckXacts) : BckXacts :=
  mkBckXacts (get xacts) (put xacts) xact.

Definition StopGet (now : Z) (xacts : BckXacts) : BckXacts :=
  match get xacts with
  | Some g =>
      if negb (XactGet_Finished g)
      then mkBckXacts (Some (XactGet_stop now g)) (put xacts) (req xacts)
      else xacts
  | None => xacts
  end.

Definition StopPut (now : Z) (xacts : BckXacts) : BckXacts :=
  match put xacts with
  | Some p =>
      if negb (Finished p)
      then mkBckXacts (get xacts) (Some (fst (stop now p))) (req xacts)
      else xacts
  | None => xacts
  end.

End Ec.

(* ===================================================================== *)
(** ** Package ais: the EC manager and the mountpath run group *)
(* ===================================================================== *)

Module Ais.
Import Cluster.

(** Go's [int32] conversion. *)
Definition wrap32 (z : Z) : Z := (z + 2 ^ 31) mod 2 ^ 32 - 2 ^ 31.

Record Smap : Type := mkSmap {
  Version : Z;
  CountTargets : Z
}.

Record bucketMD : Type := mkBucketMD {
  bmdVersion : Z;
  LBmap : gmap string BucketProps
}.

Record ecManager : Type := mkEcManager {
  smap : Smap;
  targetCnt : Z;
  bckMD : bucketMD;
  xacts : gmap string Ec.BckXacts
}.

Definition with_xacts (xs : gmap string Ec.BckXacts) (m : ecManager)
    : ecManager :=
  mkEcManager (smap m) (targetCnt m) (bckMD m) xs.

(** The target around the manager: the extended attributes on disk (by
    FQN), the mountpaths, and the allocator of xaction ids. *)
Record World : Type := mkWorld {
  mgr : ecManager;
  disk : gmap string LomMeta;
  mountpaths : Fs.MountedFS;
  nextXactID : Z
}.

(** What the manager asks of the rest of the target. *)
Record TargetEnv : Type := mkTargetEnv {
  AvgCapUsed_oos : bool;
  (* fs.CSM.FileSpec(fqn): None when the spec is nil, else PermToProcess *)
  FileSpec_PermToProcess : string -> option bool;
  (* what the Get xaction sends on the error channel of a restore *)
  Decode_reply : LOM -> option Ec.Error
}.

Inductive Event : Type :=
| EvWarn (msg : string) (actual required : Z)
| EvEc (e : Ec.Event)
| EvStopPut (bck : string)
| EvStopGet (bck : string).

Definition emptyBckXacts : Ec.BckXacts := Ec.mkBckXacts None None None.

(** [getBckXacts]: the entry of the bucket, created when missing. *)
Definition getBckXacts (bckName : string) (m : ecManager)
    : Ec.BckXacts * ecManager :=
  match xacts m !! bckName with
  | Some x => (x, m)
  | None => (emptyBckXacts, with_xacts (<[bckName := emptyBckXacts]> (xacts m)) m)
  end.

(** Modelled from the spec: [LOM.Load] is not in the source; it fills the
    record from the extended attribute stored for the FQN and fails when
    there is none.  It does not write. *)
Definition Load (d : gmap string LomMeta) (lom : LOM) : LOM + string :=
  match d !! FQN lom with
  | Some meta =>
      inl (mkLOM (FQN lom) (Bucket lom) (Objname lom) (BckIsLocal lom)
                 (BckProps lom) (lomParsedFQN lom) (lom_size lom) meta)
  | None => inr "no metadata"
  end.

(** Modelled from the spec: [xactions.renewPutEC] is not in the source; it
    allocates the next xaction id, builds the Put xaction of the bucket
    over the current mountpaths and starts its loop. *)
Definition renewPutEC (now : Z) (bckName : string) (w : World)
    : Ec.XactPut * World :=
  let d := Cmn.NewXactDemandBase now (nextXactID w) "xactecput" bckName true in
  let x := fst (Ec.Run_start now (Ec.NewPutXact d bckName (mountpaths w))) in
  (x, mkWorld (mgr w) (disk w) (mountpaths w) (nextXactID w + 1)).

Definition restoreBckPutXact (now : Z) (bckName : string) (w : World)
    : Ec.XactPut * World :=
  let '(bx, m1) := getBckXacts bckName (mgr w) in
  let w1 := mkWorld m1 (disk w) (mountpaths w) (nextXactID w) in
  match Ec.Put bx with
  | Some xact =>
      if Ec.Finished xact then
        let '(xact', w2) := renewPutEC now bckName w1 in
        (xact', mkWorld (with_xacts (<[bckName := Ec.SetPut (Some xact') bx]>
                                       (xacts (mgr w2))) (mgr w2))
                        (disk w2) (mountpaths w2) (nextXactID w2))
      else (xact, w1)
  | None =>
      let '(xact', w2) := renewPutEC now bckName w1 in
      (xact', mkWorld (with_xacts (<[bckName := Ec.SetPut (Some xact') bx]>
                                     (xacts (mgr w2))) (mgr w2))
                      (disk w2) (mountpaths w2) (nextXactID w2))
  end.

(** Store the Put xaction of a bucket back after a call on it. *)
Definition store_put (bckName : string) (x : Ec.XactPut) (w : World) : World :=
  let bx := default emptyBckXacts (xacts (mgr w) !! bckName) in
  mkWorld (with_xacts (<[bckName := Ec.SetPut (Some x) bx]> (xacts (mgr w)))
                      (mgr w))
          (disk w) (mountpaths w) (nextXactID w).

(** [EncodeObject]. The inner [None] means the caller blocks on a full
    request channel. *)
Definition EncodeObject (env : TargetEnv) (now : Z) (lom : LOM) (w : World)
    : Outcome (option (option Ec.Error * World * list Event)) :=
  if negb (Enabled (EC (BckProps lom))) then
    Ok (Some (Some Ec.ErrorECDisabled, w, []))
  else
    let isECCopy := Ec.IsECCopy (Size lom) (EC (BckProps lom)) in
    let targetCnt := targetCnt (mgr w) in
    let required := RequiredEncodeTargets (EC (BckProps lom)) in
    if negb isECCopy && (targetCnt <? required) then
      Ok (Some (Some Ec.ErrorInsufficientTargets, w,
                [EvWarn "not enough targets to encode the object"
                        targetCnt required]))
    else if String.eqb (FQN lom) "" then Panic "assertion failed"
    else if String.eqb (Fs.Path (MpathInfo (lomParsedFQN lom))) ""
    then Panic "assertion failed"
    else if AvgCapUsed_oos env then Ok (Some (Some (Ec.ErrOther "OOS"), w, []))
    else
      match FileSpec_PermToProcess env (FQN lom) with
      | Some false => Ok (Some (None, w, []))
      | _ =>
        match Load (disk w) lom with
        | inr errstr => Ok (Some (Some (Ec.ErrOther errstr), w, []))
        | inl lom' =>
          let req := Ec.mkRequest Ec.ActSplit lom'
                       (Ec.IsECCopy (Size lom) (EC (BckProps lom))) None 0 0 in
          let '(xact, w1) := restoreBckPutXact now (Bucket lom) w in
          match Ec.Encode now xact req with
          | None => Ok None
          | Some (xact', ev) =>
              Ok (Some (None, store_put (Bucket lom) xact' w1, EvEc <$> ev))
          end
        end
      end.

(** Modelled from the spec: [xactions.renewGetEC] is not in the source; it
    allocates the next xaction id and builds the Get xaction of the
    bucket. *)
Definition renewGetEC (now : Z) (bckName : string) (w : World)
    : Ec.XactGet * World :=
  (Ec.mkXactGet (Cmn.NewXactDemandBase now (nextXactID w) "xactecget" bckName true),
   mkWorld (mgr w) (disk w) (mountpaths w) (nextXactID w + 1)).

Definition restoreBckGetXact (now : Z) (bckName : string) (w : World)
    : Ec.XactGet * World :=
  let '(bx, m1) := getBckXacts bckName (mgr w) in
  let w1 := mkWorld m1 (disk w) (mountpaths w) (nextXactID w) in
  match Ec.Get bx with
  | Some xact =>
      if Ec.XactGet_Finished xact then
        let '(xact', w2) := renewGetEC now bckName w1 in
        (xact', mkWorld (with_xacts (<[bckName := Ec.SetGet (Some xact') bx]>
                                       (xacts (mgr w2))) (mgr w2))
                        (disk w2) (mountpaths w2) (nextXactID w2))
      else (xact, w1)
  | None =>
      let '(xact', w2) := renewGetEC now bckName w1 in
      (xact', mkWorld (with_xacts (<[bckName := Ec.SetGet (Some xact') bx]>
                                     (xacts (mgr w2))) (mgr w2))
                      (disk w2) (mountpaths w2) (nextXactID w2))
  end.

(** [RestoreObject].  The Get xaction of the bucket is restored and handed
    the request; [XactGet.Decode] is not in the source, and the reply read
    from the error channel is the environment's. *)
Definition RestoreObject (env : TargetEnv) (now : Z) (lom : LOM) (w : World)
    : Outcome (option Ec.Error * World * list Event) :=
  if negb (Enabled (EC (BckProps lom))) then Ok (Some Ec.ErrorECDisabled, w, [])
  else
    let targetCnt := targetCnt (mgr w) in
    let required := RequiredRestoreTargets (EC (BckProps lom)) in
    if targetCnt <? required then
      Ok (Some Ec.ErrorInsufficientTargets, w,
          [EvWarn "not enough targets to restore the object" targetCnt required])
    else if String.eqb (Fs.Path (MpathInfo (lomParsedFQN lom))) ""
    then Panic "assertion failed"
    else
      let '(_, w1) := restoreBckGetXact now (Bucket lom) w in
      Ok (Decode_reply env lom, w1, []).

(** *** Cluster-map changes *)

(** The body of the loop over the buckets of the bucket metadata. *)
Definition smap_bucket (now targetCnt : Z)
    (acc : gmap string Ec.BckXacts * list Event)
    (entry : string * BucketProps)
    : gmap string Ec.BckXacts * list Event :=
  let '(bckName, bckProps) := entry in
  let '(xs, ev) := acc in
  let bckXacts := default emptyBckXacts (xs !! bckName) in
  let requiredE := RequiredEncodeTargets (EC bckProps) in
  let '(b1, ev1) :=
    if targetCnt <? requiredE
    then (Ec.StopPut now bckXacts,
          [EvWarn "Not enough targets for EC encoding" targetCnt requiredE;
           EvStopPut bckName])
    else (bckXacts, []) in
  let requiredR := RequiredRestoreTargets (EC bckProps) in
  let '(b2, ev2) :=
    if targetCnt <? requiredR
    then (Ec.StopGet now b1,
          [EvWarn "Not enough targets for EC restoring" targetCnt requiredR;
           EvStopGet bckName])
    else (b1, []) in
  (<[bckName := b2]> xs, ev ++ ev1 ++ ev2).


(** One message on the version channel ([None]: the channel was closed);
    [owner] is what [smapowner.Get()] returns at that moment.  The
    boolean tells whether the listener keeps listening. *)
Definition ListenSmapChanged_step (now : Z) (owner : Smap) (msg : option Z)
    (m : ecManager) : ecManager * bool * list Event :=
  match msg with
  | None =>
      (with_xacts ((fun bck => Ec.StopPut now (Ec.StopGet now bck)) <$> xacts m) m,
       false,
       flat_map (fun b => [EvStopGet b; EvStopPut b])
                (fst <$> map_to_list (xacts m)))
  | Some newSmapVersion =>
      if newSmapVersion <=? Version (smap m) then (m, true, [])
      else
        let targetCnt := CountTargets owner in
        let m1 := mkEcManager owner (wrap32 targetCnt) (bckMD m) (xacts m) in
        let '(xs, ev) :=
          fold_left (smap_bucket now targetCnt)
                    (map_to_list (LBmap (bckMD m1))) (xacts m1, []) in
        (with_xacts xs m1, true, ev)
  end.



Definition put_stopped (m : ecManager) (bckName : string) : Prop :=
  match xacts m !! bckName with
  | Some x => match Ec.Put x with
              | Some p => Ec.Finished p = true
              | None => True
              end
  | None => False
  end.


(** *** The mountpath run group *)

Record fsprungroup : Type := mkFsprungroup {
  runners : list Z;            (* the ids of the registered path runners *)
  fsMountpaths : Fs.MountedFS; (* the global fs.Mountpaths *)
  targetEnabled : bool         (* registered with the cluster *)
}.

Inductive GroupEvent : Type :=
| GevFs (e : Fs.Event)
| GevReqAddMountpath (runner : Z) (mpath : string)
| GevReqRemoveMountpath (runner : Z) (mpath : string)
| GevReqEnableMountpath (runner : Z) (mpath : string)
| GevReqDisableMountpath (runner : Z) (mpath : string)
| GevTargetDisable
| GevLogError (msg : string).

(** [checkNoMountpaths]; [disable_ok] is whether [t.disable()] succeeds. *)
Definition checkNoMountpaths (disable_ok : bool) (action : string)
    (g : fsprungroup) : fsprungroup * list GroupEvent :=
  let '(availablePaths, _) := Fs.Get (fsMountpaths g) in
  if (0 <? size availablePaths)%nat then (g, [])
  else if disable_ok then
    (mkFsprungroup (runners g) (fsMountpaths g) false,
     [GevTargetDisable;
      GevLogError (action +:+ " the last available mountpath and unregistered target")])
  else
    (g, [GevTargetDisable;
         GevLogError (action +:+ " the last available mountpath, failed to unregister target")]).

Definition removeMountpath (disable_ok : bool) (mpath : string)
    (g : fsprungroup) : option Fs.Error * fsprungroup * list GroupEvent :=
  let '(err, mfs, ev) := Fs.Remove mpath (fsMountpaths g) in
  match err with
  | Some e => (Some e, g, GevFs <$> ev)
  | None =>
      let g1 := mkFsprungroup (runners g) mfs (targetEnabled g) in
      let notes := (fun r => GevReqRemoveMountpath r mpath) <$> runners g in
      let '(g2, ev2) := checkNoMountpaths disable_ok "Removed" g1 in
      (None, g2, (GevFs <$> ev) ++ notes ++ ev2)
  end.


End Ais.


(* ===================================================================== *)
(** ** Package fs, continued: start-up and the metadata mountpath *)
(* ===================================================================== *)

Module Mountfs.
Import Fs.

Inductive InitError : Type :=
| ErrNoFspaths
| ErrAddFailed (e : Error).

(** The loop of [Init]: the first failing [Add] ends it. *)
Fixpoint Init_loop (os : OS) (fsPaths : list string) (mfs : MountedFS)
    : option Error * MountedFS * list Event :=
  match fsPaths with
  | [] => (None, mfs, [])
  | path :: rest =>
      match Add os path mfs with
      | (Some e, mfs', ev) => (Some e, mfs', ev)
      | (None, mfs', ev) =>
          let '(r, mfs'', ev') := Init_loop os rest mfs' in
          (r, mfs'', ev ++ ev')
      end
  end.

Definition Init (os : OS) (fsPaths : list string) (mfs : MountedFS)
    : option InitError * MountedFS * list Event :=
  match fsPaths with
  | [] => (Some ErrNoFspaths, mfs, [])
  | _ :: _ =>
      let '(r, mfs', ev) := Init_loop os fsPaths mfs in
      (ErrAddFailed <$> r, mfs', ev)
  end.

Inductive XattrError : Type :=
| ErrNoMountpathAvailable
| ErrFailedToChoose.

(** One iteration of the selection loop; the accumulator is
    [(maxVal, mpath)]. *)
Definition xattr_pick (acc : Z * option MountpathInfo) (m : MountpathInfo)
    : Z * option MountpathInfo :=
  if PathDigest m >? fst acc then (PathDigest m, Some m) else acc.

(** The slow path over the values of the map, in the order the range
    visits them. *)
Definition xattr_select (ms : list MountpathInfo) : option MountpathInfo :=
  snd (fold_left xattr_pick ms (0, None)).

Definition set_xattrMpath (mp : option MountpathInfo) (mfs : MountedFS)
    : MountedFS :=
  mkMountedFS (fsIDs mfs) (checkFsID mfs) (available mfs) (disabled mfs) mp.

(** [MpathForXattr] takes no lock.  It is kept at the grain of its atomic
    loads and its store: what the look-up has in hand after loading the
    cached pointer and, that being nil, the available map. *)
Inductive Loaded : Type :=
| LCached (mp : MountpathInfo)
| LAvail (avail : gmap string MountpathInfo).

(** The fast path and the load of the slow path.  The two loads are one
    step here: the lifecycle operations only clear the cached pointer, so
    a load of the map that follows a nil pointer sees what a look-up
    starting at that moment would see. *)
Definition xattr_load (mfs : MountedFS) : Outcome Loaded :=
  match xattrMpath mfs with
  | Some mp => Ok (LCached mp)
  | None =>
      match available mfs with
      | None => Panic "nil pointer dereference"
      | Some avail => Ok (LAvail avail)
      end
  end.

(** The rest of the look-up: the selection over what was loaded, and the
    store of the choice into the manager as it is by then. *)
Definition xattr_finish (l : Loaded) (mfs : MountedFS)
    : (MountpathInfo + XattrError) * MountedFS :=
  match l with
  | LCached mp => (inl mp, mfs)
  | LAvail avail =>
      if Nat.eqb (size avail) 0 then (inr ErrNoMountpathAvailable, mfs)
      else
        match xattr_select ((map_to_list avail).*2) with
        | None => (inr ErrFailedToChoose, mfs)
        | Some mpath => (inl mpath, set_xattrMpath (Some mpath) mfs)
        end
  end.

(** A look-up that nothing interleaves with: the cached pointer if set;
    else the available mountpath with the largest digest, which is then
    cached. *)
Definition MpathForXattr (mfs : MountedFS)
    : Outcome ((MountpathInfo + XattrError) * MountedFS) :=
  match xattr_load mfs with
  | Panic m => Panic m
  | Ok l => Ok (xattr_finish l mfs)
  end.

(** A history of lifecycle operations and look-ups that do not overlap in
    time: each call runs to its end before the next one starts. *)
Inductive Call : Type :=
| Lifecycle (op : Op)
| CallMpathForXattr.

Definition call_step (os : OS) (mfs : MountedFS) (c : Call) : MountedFS :=
  match c with
  | Lifecycle op => step os mfs op
  | CallMpathForXattr =>
      match MpathForXattr mfs with
      | Ok (_, mfs') => mfs'
      | Panic _ => mfs
      end
  end.

Definition call_run (os : OS) (cs : list Call) (mfs : MountedFS) : MountedFS :=
  fold_left (call_step os) cs mfs.

(** [mp] is an available mountpath whose digest no other available
    mountpath exceeds. *)
Definition is_top_digest (mfs : MountedFS) (mp : MountpathInfo) : Prop :=
  (exists k, fst (Get mfs) !! k = Some mp) /\
  forall k m, fst (Get mfs) !! k = Some m -> PathDigest m <= PathDigest mp.

(** The cached pointer, when set, is current. *)
Definition xattr_coherent (mfs : MountedFS) : Prop :=
  forall mp, xattrMpath mfs = Some mp -> is_top_digest mfs mp.


End Mountfs.

(* ===================================================================== *)
(** ** Package cmn, continued: pending work and the EC configuration *)
(* ===================================================================== *)

Module Conf.
Import Cluster.

(** The balance of [IncPending] over [DecPending] calls of a history. *)
Definition outstanding_step (n : Z) (op : Cmn.DemandOp) : Z :=
  match op with
  | Cmn.OpIncPending => n + 1
  | Cmn.OpDecPending => n - 1
  | Cmn.OpRenew | Cmn.OpTimeout => n
  end.

Definition outstanding (ops : list Cmn.DemandOp) : Z :=
  fold_left outstanding_step ops 0.

Definition MinSliceCount : Z := 1.
Definition MaxSliceCount : Z := 32.

Inductive ConfError : Type :=
| BadObjSizeLimit (v : Z)
| BadDataSlices (v : Z)
| BadParitySlices (v : Z)
| CloudBucketsNotSupported
| NotEnoughTargets (required have : Z).

(** [ECConf.Validate] *)
Definition ECConf_Validate (c : ECConf) : option ConfError :=
  if ObjSizeLimit c <? 0 then Some (BadObjSizeLimit (ObjSizeLimit c))
  else if (DataSlices c <? MinSliceCount) || (DataSlices c >? MaxSliceCount)
  then Some (BadDataSlices (DataSlices c))
  else if (ParitySlices c <? MinSliceCount) || (ParitySlices c >? MaxSliceCount)
  then Some (BadParitySlices (ParitySlices c))
  else None.

Record ValidationArgs : Type := mkValidationArgs {
  ArgBckIsLocal : bool;
  TargetCnt : Z
}.

(** [ECConf.ValidateAsProps] *)
Definition ECConf_ValidateAsProps (c : ECConf) (args : ValidationArgs)
    : option ConfError :=
  if negb (Enabled c) then None
  else if negb (ArgBckIsLocal args) then Some CloudBucketsNotSupported
  else
    match ECConf_Validate c with
    | Some e => Some e
    | None =>
        let required := RequiredEncodeTargets c in
        if TargetCnt args <? required
        then Some (NotEnoughTargets required (TargetCnt args))
        else None
    end.

End Conf.

(* ===================================================================== *)
(** ** Package ec, continued: the writer registry, sends, the life of a
    Put xaction *)
(* ===================================================================== *)

Module EcMore.
Import Cluster Ec.

(** *** The registry of pending writers ([dataOwner.slices]) *)

Definition regWriter (uname : string) (writer : slice)
    (slices : gmap string slice) : bool * gmap string slice :=
  match slices !! uname with
  | Some _ => (false, slices)              (* logged, not replaced *)
  | None => (true, <[uname := writer]> slices)
  end.

Definition unregWriter (uname : string) (slices : gmap string slice)
    : (option slice * bool) * gmap string slice :=
  match slices !! uname with
  | Some wr => ((Some wr, true), delete uname slices)
  | None => ((None, false), delete uname slices)
  end.

(** *** Sends by daemon id *)

(** A node of the cluster map, by its daemon id. *)
Record Snode : Type := mkSnode { DaemonID : string }.

Record Header : Type := mkHeader {
  HdrBucket : string;
  HdrObjname : string;
  HdrOpaque : list Byte.byte;
  HdrObjAttrs : ObjectAttrs
}.

Inductive SendError : Type :=
| ErrEmptyDestinations
| ErrBundle (msg : string).

Inductive SendEvent : Type :=
| SevNotFound (id : string)
| SevSend (isRequest : bool) (hdr : Header) (nodes : list Snode).

(** The loop that resolves the ids against the cluster map. *)
Fixpoint resolve (Tmap : gmap string Snode) (daemonIDs : list string)
    : list Snode * list SendEvent :=
  match daemonIDs with
  | [] => ([], [])
  | id :: rest =>
      let '(nodes, ev) := resolve Tmap rest in
      match Tmap !! id with
      | Some si => (si :: nodes, ev)
      | None => (nodes, SevNotFound id :: ev)
      end
  end.

(** [sendByDaemonID]; [bundle_send] is what the request or the response
    bundle answers to [Send] ([None]: no error). *)
Definition sendByDaemonID (Tmap : gmap string Snode)
    (bundle_send : bool -> Header -> list Snode -> option string)
    (daemonIDs : list string) (hdr : Header) (isRequest : bool)
    : option SendError * list SendEvent :=
  let '(nodes, ev) := resolve Tmap daemonIDs in
  match nodes with
  | [] => (Some ErrEmptyDestinations, ev)
  | _ :: _ =>
      (ErrBundle <$> bundle_send isRequest hdr nodes,
       ev ++ [SevSend isRequest hdr nodes])
  end.

(** *** Reading from a remote target *)

Inductive ReadError : Type :=
| ErrSend (e : SendError)
| ErrTimedOut (uname : string).

(** [readRemote]: register a writer under [uname], send the request, wait
    for the wait-group; [timed_out] is what [WaitTimeout] answers.  The
    result of [regWriter] is not looked at. *)
Definition readRemote (Tmap : gmap string Snode)
    (bundle_send : bool -> Header -> list Snode -> option string)
    (timed_out : bool)
    (lom : LOM) (daemonID uname : string) (request : list Byte.byte)
    (writer : Writer) (slices : gmap string slice)
    : option ReadError * gmap string slice * list SendEvent :=
  let hdr := mkHeader (Bucket lom) (Objname lom) request
               (mkObjectAttrs 0 "" 0 "" "") in
  let sw := mkSlice writer 1 0 None "" in
  let '(_, slices1) := regWriter uname sw slices in
  let '(err, ev) := sendByDaemonID Tmap bundle_send [daemonID] hdr true in
  match err with
  | Some e => (Some (ErrSend e), snd (unregWriter uname slices1), ev)
  | None =>
      if timed_out
      then (Some (ErrTimedOut uname), snd (unregWriter uname slices1), ev)
      else (None, snd (unregWriter uname slices1), ev)
  end.

(** *** Calls on a Put xaction *)

(** [XactPut.Stop(error)] is [Abort] on the embedded base. *)
Definition Stop (now : Z) (r : XactPut) : Outcome (XactPut * list Cmn.Event) :=
  match Cmn.Abort now (Cmn.base (demand r)) with
  | Panic m => Panic m
  | Ok (b, ev) =>
      Ok (with_demand (Cmn.mkXactDemandBase b (Cmn.ticker_stopped (demand r))
                         (Cmn.renew (demand r)) (Cmn.pending (demand r))) r,
          ev)
  end.

Definition ReqAddMountpath (mpath : string) (r : XactPut) : option XactPut :=
  q ← chan_send mpathReqBufSize (mkMpathReq ActMountpathAdd mpath) (mpathReqCh r);
  Some (with_mpathReqCh q r).

Definition ReqRemoveMountpath (mpath : string) (r : XactPut) : option XactPut :=
  q ← chan_send mpathReqBufSize (mkMpathReq ActMountpathRemove mpath) (mpathReqCh r);
  Some (with_mpathReqCh q r).

(** *** A Put xaction among its goroutines

    The loop of [Run] and its callers run concurrently and share the
    channels, the reject flag and the base of the xaction.  The actions
    below are the atomic steps at which they can interleave: a caller of
    [Encode] or [Cleanup] checks the reject flag and sends on the request
    channel in two steps; a caller of [Stop] runs the three steps of
    [Abort]; the loop takes a control message and stores the reject flag
    in two steps, and in its clear branch each receive of the drain, each
    refusal and the final [stop] are steps of their own.  The loop alone
    writes the reject flag and the end time only moves away from zero, so
    each of its other turns, and [stop], is one step. *)

(** Where the loop stands between two steps. *)
Inductive LoopPc : Type :=
| AtSelect                          (* at its select, or not in the loop *)
| GotControl (a : ControlAction)    (* took a control message *)
| Draining                          (* stored the flag of ClearRequests *)
| Refusing (req : Request)          (* drained a request, about to refuse it *)
| Stopping.                         (* found the channel empty, about to stop *)

(** The loop is inside its clear branch, past the store of the flag. *)
Definition in_clear_branch (p : LoopPc) : bool :=
  match p with
  | Draining | Refusing _ | Stopping => true
  | AtSelect | GotControl _ => false
  end.

Record PutSys : Type := mkPutSys {
  xact : XactPut;
  pc : LoopPc;
  sending : list Request;   (* submitters past the check, about to send *)
  stoppers : list Cmn.Pc    (* callers of [Stop], inside [Abort] *)
}.

Definition with_xact (x : XactPut) (s : PutSys) : PutSys :=
  mkPutSys x (pc s) (sending s) (stoppers s).

Definition with_base (b : Cmn.XactBase) (r : XactPut) : XactPut :=
  with_demand (Cmn.mkXactDemandBase b (Cmn.ticker_stopped (demand r))
                 (Cmn.renew (demand r)) (Cmn.pending (demand r))) r.

Inductive Action : Type :=
| DoClearRequests
| DoEnableRequests
| DoSubmit (req : Request)      (* Encode or Cleanup, up to the check *)
| DoSend (i : nat)              (* the send of the i-th waiting submitter *)
| DoStop                        (* a caller enters Stop *)
| DoAbortStep (i : nat)         (* the next step of the i-th caller of Stop *)
| DoReqAddMountpath (mpath : string)
| DoReqRemoveMountpath (mpath : string)
| LoopSelect (c : SelectCase)   (* the loop takes a case of its select *)
| LoopStoreFlag                 (* the store after a control message *)
| LoopDrain                     (* the select of the drain loop *)
| LoopRefuse                    (* the refusal of the drained request *)
| LoopStop.                     (* stop() and the return from Run *)

(** One step at clock [now], with the errors it sends and what it logs;
    [None] when it panics.  A step that cannot move (a full channel, a
    case that is not ready) leaves everything as it is. *)
Definition sys_step (conf : Config) (now : Z) (a : Action) (s : PutSys)
    : option (PutSys * list Event) :=
  let x := xact s in
  match a with
  | DoClearRequests => Some (with_xact (default x (ClearRequests x)) s, [])
  | DoEnableRequests => Some (with_xact (default x (EnableRequests x)) s, [])
  | DoSubmit req =>
      let req := stamp now req in
      if negb (ecRequestsEnabled x)
      then Some (s, abortECRequestWhenDisabled x req)
      else Some (mkPutSys x (pc s) (sending s ++ [req]) (stoppers s), [])
  | DoSend i =>
      match sending s !! i with
      | None => Some (s, [])
      | Some req =>
          match chan_send requestBufSizeGlobal req (ecCh x) with
          | None => Some (s, [])
          | Some q =>
              Some (mkPutSys (with_ecCh q x) (pc s) (delete i (sending s))
                             (stoppers s), [])
          end
      end
  | DoStop =>
      Some (mkPutSys x (pc s) (sending s) (stoppers s ++ [Cmn.PcCAS]), [])
  | DoAbortStep i =>
      match Cmn.conc_step i now
              (Cmn.mkConc (Cmn.base (demand x)) (stoppers s) 0 false) with
      | None => Some (s, [])
      | Some c =>
          if Cmn.panicked c then None
          else Some (mkPutSys (with_base (Cmn.shared c) x) (pc s) (sending s)
                              (Cmn.pcs c), [])
      end
  | DoReqAddMountpath p =>
      Some (with_xact (default x (ReqAddMountpath p x)) s, [])
  | DoReqRemoveMountpath p =>
      Some (with_xact (default x (ReqRemoveMountpath p x)) s, [])
  | LoopSelect c =>
      match pc s with
      | AtSelect =>
          match c with
          | CaseControlCh =>
              if negb (running x) then Some (s, [])
              else
                match controlCh x with
                | [] => Some (s, [])
                | msg :: rest =>
                    Some (mkPutSys (with_controlCh rest x)
                                   (GotControl (MsgAction msg))
                                   (sending s) (stoppers s), [])
                end
          | _ =>
              match Run_step conf now c x with
              | Ran x' ev => Some (with_xact x' s, ev)
              | NotReady => Some (s, [])
              | Failed _ => None
              end
          end
      | _ => Some (s, [])
      end
  | LoopStoreFlag =>
      match pc s with
      | GotControl ActEnableRequests =>
          Some (mkPutSys (setEcRequestsEnabled x) AtSelect (sending s)
                         (stoppers s), [])
      | GotControl ActClearRequests =>
          Some (mkPutSys (setEcRequestsDisabled x) Draining (sending s)
                         (stoppers s), [])
      | _ => Some (s, [])
      end
  | LoopDrain =>
      match pc s with
      | Draining =>
          match ecCh x with
          | req :: rest =>
              Some (mkPutSys (with_ecCh rest x) (Refusing req) (sending s)
                             (stoppers s), [])
          | [] => Some (mkPutSys x Stopping (sending s) (stoppers s), [])
          end
      | _ => Some (s, [])
      end
  | LoopRefuse =>
      match pc s with
      | Refusing req =>
          Some (mkPutSys x Draining (sending s) (stoppers s),
                abortECRequestWhenDisabled x req)
      | _ => Some (s, [])
      end
  | LoopStop =>
      match pc s with
      | Stopping =>
          let '(x', ev) := stop now x in
          Some (mkPutSys (with_running false x') AtSelect (sending s)
                         (stoppers s), ev)
      | _ => Some (s, [])
      end
  end.

(** An interleaving: the steps in the order the scheduler runs them, each
    with the clock at that moment. *)
Fixpoint sys_run (conf : Config) (acts : list (Z * Action)) (s : PutSys)
    : option (PutSys * list Event) :=
  match acts with
  | [] => Some (s, [])
  | (now, a) :: rest =>
      match sys_step conf now a s with
      | None => None
      | Some (s', ev) =>
          match sys_run conf rest s' with
          | None => None
          | Some (s'', ev') => Some (s'', ev ++ ev')
          end
      end
  end.

(** A new Put xaction whose loop has been started. *)
Definition sys_init (now : Z) (d : Cmn.XactDemandBase) (bucket : string)
    (mfs : Fs.MountedFS) : PutSys :=
  mkPutSys (fst (Run_start now (NewPutXact d bucket mfs))) AtSelect [] [].

Definition clocks_nonzero (acts : list (Z * Action)) : Prop :=
  Forall (fun a => fst a <> 0) acts.

(** [ClearRequests] is never called. *)
Definition no_clear (acts : list (Z * Action)) : Prop :=
  Forall (fun a => snd a <> DoClearRequests) acts.

(** An error sent to a submitter because requests are being refused. *)
Definition is_refusal (e : Event) : bool :=
  match e with
  | EvErrSend _ (ErrDisabledOnBucket _) | EvErrSend _ (ErrBeingDisabled _) => true
  | _ => false
  end.

(** A Put xaction that rejects requests has ended. *)
Definition put_inv (r : XactPut) : Prop :=
  rejectReq r = true -> Finished r = true.

(** The reject flag is set only inside the clear branch or on an xaction
    that has ended. *)
Definition sys_inv (s : PutSys) : Prop :=
  rejectReq (xact s) = true ->
  Finished (xact s) = true \/ in_clear_branch (pc s) = true.

(** As long as [ClearRequests] was not called: the flag is clear, the loop
    is not in its clear branch and no such message waits. *)
Record quiet (s : PutSys) : Prop := {
  quiet_flag : rejectReq (xact s) = false;
  quiet_pc : pc s = AtSelect \/ pc s = GotControl ActEnableRequests;
  quiet_ch : Forall (fun m => MsgAction m = ActEnableRequests) (controlCh (xact s))
}.

Definition count_done (tr : list IoEvent) : nat :=
  length (List.filter is_wg_done tr).

End EcMore.

(* ===================================================================== *)
(** ** Package ais, continued: object clean-up, histories of the manager,
    re-enabling a mountpath *)
(* ===================================================================== *)

Module AisMore.
Import Cluster Ais.

(** [CleanupObject].  The inner [None] means the caller blocks on a full
    request channel. *)
Definition CleanupObject (now : Z) (lom : LOM) (w : World)
    : Outcome (option (World * list Event)) :=
  if negb (Enabled (EC (BckProps lom))) then Ok (Some (w, []))
  else if String.eqb (FQN lom) "" then Panic "assertion failed"
  else if String.eqb (Fs.Path (MpathInfo (lomParsedFQN lom))) ""
  then Panic "assertion failed"
  else
    let req := Ec.mkRequest Ec.ActDelete lom false None 0 0 in
    let '(xact, w1) := restoreBckPutXact now (Bucket lom) w in
    match Ec.Cleanup now xact req with
    | None => Ok None
    | Some (xact', ev) =>
        Ok (Some (store_put (Bucket lom) xact' w1, EvEc <$> ev))
    end.

Definition with_mgr (m : ecManager) (w : World) : World :=
  mkWorld m (disk w) (mountpaths w) (nextXactID w).

(** The Put xaction recorded for a bucket, if any. *)
Definition put_of (w : World) (bckName : string) : option Ec.XactPut :=
  bx ← xacts (mgr w) !! bckName; Ec.Put bx.

(** The start time of a Put xaction. *)
Definition StartTime_of (x : Ec.XactPut) : Z :=
  Cmn.sutime (Cmn.base (Ec.demand x)).

(** *** Re-enabling a mountpath *)



End AisMore.

(* ===================================================================== *)
(** ** Package cmn, continued: overlapping address lists *)
(* ===================================================================== *)

Module Net.

Section Overlap.
(** [strings.TrimSpace] is taken as given. *)
Variable TrimSpace : string -> string.

(** The loop over the addresses of the first list. *)
Fixpoint overlap_loop (alistAddrs : list string) (blist : string)
    : bool * string :=
  match alistAddrs with
  | [] => (false, "")
  | a :: rest =>
      let a := TrimSpace a in
      if String.eqb a "" then overlap_loop rest blist
      else if Fs.Contains blist a then (true, a)
      else overlap_loop rest blist
  end.

(** [ipv4ListsOverlap] *)
Definition ipv4ListsOverlap (alist blist : string) : bool * string :=
  if String.eqb alist "" || String.eqb blist "" then (false, "")
  else overlap_loop (Fs.split_on ","%char alist) blist.

End Overlap.

End Net.

(* ===================================================================== *)
(** ** Concrete environments for running the definitions *)
(* ===================================================================== *)

Module Sample.

(** An operating system in which every path exists and each cleaned path
    is its own filesystem, told apart by the length of the path. *)
Definition os : Fs.OS :=
  Fs.mkOS (fun _ => true)
          (fun p => Some (Z.of_nat (String.length (Fs.Clean p)), 0))
          (fun p => Some "ext4")
          (fun p seed => Z.of_nat (String.length p) + seed).

(** The same operating system with "/mnt/x" a symbolic link into another
    filesystem: "/mnt/x/../a" cleans to "/mnt/a" but statfs, which follows
    the link, reports another filesystem for it. *)
Definition os_symlink : Fs.OS :=
  Fs.mkOS (fun _ => true)
          (fun p => if String.eqb p "/mnt/x/../a" then Some (99, 0)
                    else Some (Z.of_nat (String.length (Fs.Clean p)), 0))
          (fun p => Some "ext4")
          (fun p seed => Z.of_nat (String.length p) + seed).

(** Two mountpaths registered, the second one disabled. *)
Definition mfs2 : Fs.MountedFS :=
  Fs.run os [Fs.OpAdd "/mnt/a"; Fs.OpAdd "/mnt/bb/"; Fs.OpDisable "/mnt/bb"]
         Fs.NewMountedFS.

(** A single available mountpath. *)
Definition mfs1 : Fs.MountedFS :=
  Fs.run os [Fs.OpAdd "/mnt/a"] Fs.NewMountedFS.

Definition mi (path : string) : Fs.MountpathInfo :=
  Fs.newMountpath os path (Z.of_nat (String.length (Fs.Clean path)), 0) "ext4".

(** A LOM on "/mnt/a" with one copy on "/mnt/bb". *)
Definition parsed (mpath : string) : Cluster.ParsedFQN :=
  Cluster.mkParsedFQN (mi mpath) "obj" "b" "o" true.

Definition ec22 : Cluster.ECConf := Cluster.mkECConf 262144 2 2 true.

Definition lom1 : Cluster.LOM :=
  Cluster.mkLOM "/mnt/a/obj/local/b/o" "b" "o" true
    (Cluster.mkBucketProps ec22) (parsed "/mnt/a") 100
    (Cluster.mkLomMeta "1" None ["/mnt/bb/obj/local/b/o"]).

(** The same object, above the size limit of the bucket. *)
Definition lom_big : Cluster.LOM :=
  Cluster.mkLOM "/mnt/a/obj/local/b/o" "b" "o" true
    (Cluster.mkBucketProps ec22) (parsed "/mnt/a") 10485760
    (Cluster.mkLomMeta "1" None []).

Definition menv : Mirror.Env :=
  Mirror.mkEnv
    (fun fqn => if Fs.HasPrefix fqn "/mnt/bb/" then Some (parsed "/mnt/bb")
                else None)
    (fun p => if String.eqb p "/mnt/ccc" then 30
              else if String.eqb p "/mnt/dddd" then 20 else 1).

Definition joggers : list Mirror.jogger :=
  Mirror.mkJogger <$> [mi "/mnt/a"; mi "/mnt/bb"; mi "/mnt/ccc"; mi "/mnt/dddd"].

(** A Put xaction of bucket "b" in its loop, over [mfs1]. *)
Definition put_xact : Ec.XactPut :=
  fst (Ec.Run_start 1
         (Ec.NewPutXact (Cmn.NewXactDemandBase 1 1 "xactecput" "b" true) "b" mfs1)).

Definition request (ch : option nat) : Ec.Request :=
  Ec.mkRequest Ec.ActSplit lom1 true ch 0 0.

Definition tenv : Ais.TargetEnv :=
  Ais.mkTargetEnv false (fun _ => None) (fun _ => None).

(** A target that knows three other targets. *)
Definition world3 : Ais.World :=
  Ais.mkWorld
    (Ais.mkEcManager (Ais.mkSmap 1 3) 3
       (Ais.mkBucketMD 1 {["b" := Cluster.mkBucketProps ec22]}) ∅)
    {["/mnt/a/obj/local/b/o" := Cluster.mkLomMeta "1" None []]}
    mfs1 1.

(** The manager of [world3] with the three xactions of bucket "b". *)
Definition manager : Ais.ecManager :=
  Ais.mkEcManager (Ais.mkSmap 1 6) 6
    (Ais.mkBucketMD 1 {["b" := Cluster.mkBucketProps ec22]})
    {["b" := Ec.mkBckXacts
               (Some (Ec.mkXactGet (Cmn.NewXactDemandBase 1 2 "xactecget" "b" true)))
               (Some put_xact)
               (Some (Ec.mkXactRespond
                        (Cmn.NewXactDemandBase 1 3 "xactecreq" "b" true)))]}.

(** [put_xact] with one request queued and [ClearRequests] issued. *)
Definition put_cleared : Ec.XactPut :=
  let r1 := default put_xact (fst <$> Ec.Encode 2 put_xact (request (Some 7%nat))) in
  default r1 (Ec.ClearRequests r1).

End Sample.

(* ===================================================================== *)
(** * Properties *)
(* ===================================================================== *)

Section CmnProofs.
Import Cmn.

Lemma wrap64_id z : in_int64 z -> wrap64 z = z.
Proof.
  unfold in_int64, wrap64. intros H.
  rewrite Z.mod_small; lia.
Qed.

Lemma wrap64_range z : in_int64 (wrap64 z).
Proof.
  unfold in_int64, wrap64.
  pose proof (Z.mod_pos_bound (z + 2 ^ 63) (2 ^ 64) ltac:(lia)). lia.
Qed.

(** A first [Abort] on a live xaction closes the channel and stamps the
    end time. *)
Lemma Abort_first (now : Z) (x : XactBase) :
  aborted x = false -> abrt x = ChanOpen ->
  Abort now x =
    Ok (set_abrt ChanClosed (set_eutime now (set_aborted true x)),
        [EvCloseAbrt; EvLog "ABORT"]).
Proof.
  intros Ha Hc. unfold Abort, CAS_false_true. rewrite Ha. simpl.
  rewrite Hc. reflexivity.
Qed.

(** Every later [Abort] only logs. *)
Lemma Abort_again (now : Z) (x : XactBase) :
  aborted x = true -> Abort now x = Ok (x, [EvLog "already aborted"]).
Proof. intros Ha. unfold Abort, CAS_false_true. rewrite Ha. reflexivity. Qed.

Lemma Abort_many_aborted (nows : list Z) (x : XactBase) :
  aborted x = true ->
  exists ev, Abort_many nows x = Ok (x, ev) /\ count_closes ev = 0%nat.
Proof.
  intros Ha. induction nows as [|t rest IH]; simpl.
  - exists []. split; reflexivity.
  - rewrite Abort_again by exact Ha.
    destruct IH as (ev & -> & Hc).
    exists (EvLog "already aborted" :: ev). split; [reflexivity|].
    unfold count_closes in *. simpl. exact Hc.
Qed.

(** *** The interleaving model *)

Lemma count_inflight_insert (l : list Pc) (i : nat) (p q : Pc) :
  l !! i = Some p ->
  (count_inflight (<[i := q]> l) + inflight p
   = count_inflight l + inflight q)%nat.
Proof.
  revert i. induction l as [|a l IH]; intros i Hi; [discriminate|].
  destruct i as [|i]; simpl in *.
  - injection Hi as ->. lia.
  - specialize (IH i Hi). lia.
Qed.

Lemma count_inflight_replicate n : count_inflight (replicate n PcCAS) = 0%nat.
Proof. induction n; simpl; auto. Qed.

Lemma count_inflight_done (l : list Pc) :
  forallb (fun p => match p with PcDone => true | _ => false end) l = true ->
  count_inflight l = 0%nat.
Proof.
  induction l as [|a l IH]; simpl; [reflexivity|].
  intros H. apply andb_prop in H as [Ha Hl].
  destruct a; try discriminate. simpl. auto.
Qed.

Lemma conc_inv_init (x : XactBase) (n : nat) :
  aborted x = false -> abrt x = ChanOpen -> conc_inv (conc_init x n).
Proof.
  intros Ha Hc. split; simpl.
  - reflexivity.
  - rewrite Ha, count_inflight_replicate. reflexivity.
  - rewrite Hc. split; intros; discriminate.
  - intros _. apply Forall_forall. intros p Hp.
    apply elem_of_replicate in Hp. tauto.
Qed.

Lemma conc_step_inv (i : nat) (now : Z) (c c' : Conc) :
  conc_inv c -> conc_step i now c = Some c' -> conc_inv c'.
Proof.
  intros [Hp Hb Hch Hf] Hs. unfold conc_step in Hs. rewrite Hp in Hs.
  destruct (pcs c !! i) as [p|] eqn:Hi; [|discriminate].
  destruct p as [| | |]; try discriminate.
  - (* CAS *)
    unfold CAS_false_true in Hs.
    destruct (aborted (shared c)) eqn:Ha; injection Hs as <-.
    + pose proof (count_inflight_insert _ _ _ PcDone Hi) as Hc. simpl in Hc.
      split; simpl; try rewrite Ha; auto; try lia; intros; discriminate.
    + pose proof (count_inflight_insert _ _ _ PcStore Hi) as Hc.
      simpl in Hc.
      split; simpl; auto; try lia; intros; discriminate.
  - (* store of the end time *)
    injection Hs as <-.
    pose proof (count_inflight_insert _ _ _ PcClose Hi) as Hc. simpl in Hc.
    destruct (aborted (shared c)) eqn:Ha.
    + split; simpl; try rewrite Ha; auto; try lia; intros; discriminate.
    + specialize (Hf eq_refl). rewrite Forall_forall in Hf.
      assert (PcStore = PcCAS) by (apply Hf; eapply list_elem_of_lookup_2; eauto).
      discriminate.
  - (* close *)
    destruct (aborted (shared c)) eqn:Ha.
    + assert (Hge : (1 <= count_inflight (pcs c))%nat).
      { pose proof (count_inflight_insert _ _ _ PcDone Hi) as Hc.
        simpl in Hc. lia. }
      assert (Hz : closes c = 0%nat) by lia.
      assert (Hopen : abrt (shared c) = ChanOpen).
      { destruct (abrt (shared c)) eqn:E; [reflexivity|].
        assert (closes c = 1%nat) by (apply Hch; reflexivity). lia. }
      rewrite Hopen in Hs. simpl in Hs. injection Hs as <-.
      pose proof (count_inflight_insert _ _ _ PcDone Hi) as Hc. simpl in Hc.
      split; simpl; try rewrite Ha; auto; try lia;
        try (intros; discriminate); try (rewrite Hz; tauto).
    + specialize (Hf eq_refl). rewrite Forall_forall in Hf.
      assert (PcClose = PcCAS) by (apply Hf; eapply list_elem_of_lookup_2; eauto).
      discriminate.
Qed.

Lemma conc_run_inv (sched : list (nat * Z)) (c : Conc) :
  conc_inv c -> conc_inv (conc_run sched c).
Proof.
  revert c. induction sched as [|[i now] rest IH]; intros c Hc; simpl; auto.
  destruct (conc_step i now c) eqn:E; auto.
  apply IH. eapply conc_step_inv; eauto.
Qed.

Lemma conc_step_length (i : nat) (t : Z) (c c' : Conc) :
  conc_step i t c = Some c' -> length (pcs c') = length (pcs c).
Proof.
  unfold conc_step. destruct (panicked c); [discriminate|].
  destruct (pcs c !! i) as [[| | |]|]; try discriminate.
  - unfold CAS_false_true.
    destruct (aborted (shared c)); intros E; injection E as <-; simpl;
      apply length_insert.
  - intros E. injection E as <-. simpl. apply length_insert.
  - destruct (close_chan _); intros E; injection E as <-; simpl;
      rewrite ?length_insert; reflexivity.
Qed.

Lemma conc_run_length (sched : list (nat * Z)) (c : Conc) :
  length (pcs (conc_run sched c)) = length (pcs c).
Proof.
  revert c. induction sched as [|[i t] rest IH]; intros c; simpl; auto.
  destruct (conc_step i t c) as [c'|] eqn:E; auto.
  rewrite IH. eapply conc_step_length; eauto.
Qed.

Lemma conc_inv_closes_le (c : Conc) : conc_inv c -> (closes c <= 1)%nat.
Proof. intros [_ Hb _ _]. destruct (aborted (shared c)); lia. Qed.

Lemma conc_inv_done (c : Conc) :
  conc_inv c -> pcs c <> [] -> all_done c = true -> closes c = 1%nat.
Proof.
  intros [_ Hb _ Hf] Hne Hd. unfold all_done in Hd.
  pose proof (count_inflight_done _ Hd) as Hz.
  destruct (aborted (shared c)) eqn:Ha; [lia|].
  specialize (Hf eq_refl).
  destruct (pcs c) as [|p l]; [congruence|].
  inversion Hf; subst. simpl in Hd. discriminate.
Qed.

End CmnProofs.

Section DemandProofs.
Import Cmn.

Variables (stime xid : Z) (xkind xbucket : string) (loc : bool).

Lemma demand_run_snoc ops op r :
  demand_run (ops ++ [op]) r = demand_step (demand_run ops r) op.
Proof. unfold demand_run. rewrite fold_left_app. reflexivity. Qed.

Lemma demand_inv_init : demand_inv [] (NewXactDemandBase stime xid xkind xbucket loc).
Proof. split; simpl; try reflexivity; lia. Qed.

Lemma demand_inv_step (ops : list DemandOp) (op : DemandOp) (r : XactDemandBase) :
  Z.of_nat (length ops) + 1 < 2 ^ 63 ->
  demand_inv ops r -> demand_inv (ops ++ [op]) (demand_step r op).
Proof.
  intros Hlen [Hhi Hlo Hfl Hpe].
  unfold renewed_since_last_idle_check in *.
  assert (Hl : Z.of_nat (length (ops ++ [op])) = Z.of_nat (length ops) + 1)
    by (rewrite length_app; simpl; lia).
  destruct op; split; unfold renewed_since_last_idle_check;
    rewrite ?Hl, ?fold_left_app; simpl; try lia;
    try assumption; try (rewrite Hpe; reflexivity).
  all: unfold Timeout; rewrite <- ?Hpe;
    destruct (pending r >? 0) eqn:Hp; simpl; try lia; try assumption.
  all: rewrite ?wrap64_id by (unfold in_int64; lia); lia.
Qed.

Lemma demand_inv_run (ops : list DemandOp) :
  Z.of_nat (length ops) < 2 ^ 63 -> demand_inv ops
    (demand_run ops (NewXactDemandBase stime xid xkind xbucket loc)).
Proof.
  induction ops as [|op ops IH] using rev_ind; intros Hlen.
  - apply demand_inv_init.
  - rewrite length_app in Hlen. simpl in Hlen.
    rewrite demand_run_snoc. apply demand_inv_step; [lia|].
    apply IH. lia.
Qed.

Lemma Timeout_state (r : XactDemandBase) :
  - 2 ^ 63 < renew r < 2 ^ 63 ->
  fst (Timeout r) = true <-> pending r <= 0 /\ renew r <= 0.
Proof.
  intros Hr. unfold Timeout.
  destruct (pending r >? 0) eqn:Hp; simpl.
  - split; [discriminate | lia].
  - rewrite wrap64_id by (unfold in_int64; lia).
    rewrite Z.ltb_lt. lia.
Qed.

End DemandProofs.

(** C9: however many times [Abort] is called on a live xaction, in sequence
    or from concurrent callers interleaved at the grain of its atomic
    actions, the abort channel is closed exactly once and closing never
    panics; the first call stamps the (non-zero) clock reading as end time,
    so the xaction is [Finished], and later calls change nothing. *)
Theorem C9_Abort_closes_once (x : Cmn.XactBase) (now : Z) (nows : list Z)
    (n : nat) (sched : list (nat * Z)) :
  Cmn.aborted x = false -> Cmn.abrt x = Cmn.ChanOpen -> now <> 0 ->
  (exists x1 ev,
      Cmn.Abort now x = Ok (x1, ev) /\ Cmn.count_closes ev = 1%nat /\
      Cmn.eutime x1 = now /\ Cmn.Finished x1 = true /\
      Cmn.abrt x1 = Cmn.ChanClosed /\
      exists ev', Cmn.Abort_many nows x1 = Ok (x1, ev') /\
                  Cmn.count_closes ev' = 0%nat) /\
  (exists x' ev,
      Cmn.Abort_many (now :: nows) x = Ok (x', ev) /\
      Cmn.count_closes ev = 1%nat /\ Cmn.Finished x' = true) /\
  (let c := Cmn.conc_run sched (Cmn.conc_init x n) in
   Cmn.panicked c = false /\ (Cmn.closes c <= 1)%nat /\
   (n <> 0%nat -> Cmn.all_done c = true -> Cmn.closes c = 1%nat)).
Proof.
  intros Ha Hc Hnow.
  pose proof (Abort_first now x Ha Hc) as H1.
  set (x1 := Cmn.set_abrt Cmn.ChanClosed
               (Cmn.set_eutime now (Cmn.set_aborted true x))) in *.
  assert (Hfin : Cmn.Finished x1 = true).
  { unfold Cmn.Finished. simpl. apply negb_true_iff, Z.eqb_neq. exact Hnow. }
  destruct (Abort_many_aborted nows x1 eq_refl) as (ev' & Hm & Hz).
  split; [|split].
  - exists x1, [Cmn.EvCloseAbrt; Cmn.EvLog "ABORT"].
    repeat split; auto. exists ev'. split; assumption.
  - exists x1, ([Cmn.EvCloseAbrt; Cmn.EvLog "ABORT"] ++ ev').
    simpl. rewrite H1, Hm. repeat split; auto.
    unfold Cmn.count_closes in *. simpl. rewrite Hz. reflexivity.
  - pose proof (conc_run_inv sched _ (conc_inv_init x n Ha Hc)) as Hinv.
    simpl. split; [apply Hinv|]. split; [apply conc_inv_closes_le, Hinv|].
    intros Hn Hd. apply conc_inv_done; auto.
    assert (Hlen : length (Cmn.pcs (Cmn.conc_run sched (Cmn.conc_init x n))) = n).
    { rewrite conc_run_length. simpl. apply length_replicate. }
    intros Hnil. rewrite Hnil in Hlen. simpl in Hlen. congruence.
Qed.

Lemma C9_Abort_closes_once_witness :
  let x := Cmn.NewXactBase 1 7 "lru" in
  let c := Cmn.conc_run [(0%nat, 5); (1%nat, 6); (0%nat, 5); (1%nat, 6); (0%nat, 5)]
                        (Cmn.conc_init x 2) in
  Cmn.panicked c = false /\ (Cmn.closes c <= 1)%nat /\
  (2%nat <> 0%nat -> Cmn.all_done c = true -> Cmn.closes c = 1%nat).
Proof.
  exact (proj2 (proj2
    (C9_Abort_closes_once (Cmn.NewXactBase 1 7 "lru") 5 [6; 7] 2
       [(0%nat, 5); (1%nat, 6); (0%nat, 5); (1%nat, 6); (0%nat, 5)]
       eq_refl eq_refl ltac:(discriminate)))).
Defined.

(** C5 (as stated, fails): after [Renew], a [Timeout] check made while
    work is pending leaves the renewal counter armed, so the next check
    returns false although nothing is pending and [Renew] was not called
    since the previous check. *)
Lemma C5_counterexample :
  let ops := [Cmn.OpRenew; Cmn.OpIncPending; Cmn.OpTimeout; Cmn.OpDecPending] in
  let r := Cmn.demand_run ops (Cmn.NewXactDemandBase 1 1 "xactecput" "b" true) in
  ~ (fst (Cmn.Timeout r) = true <->
     Cmn.pending r = 0 /\ Cmn.renewed_since_last_timeout ops = false).
Proof.
  vm_compute. intros [_ H]. specialize (H (conj eq_refl eq_refl)). discriminate.
Qed.

(** C5 (amended): on a demand xaction reached by fewer than 2^63 calls,
    [Timeout] returns true exactly when the pending counter is not positive
    and [Renew] has not been called since the last [Timeout] check that
    found no pending work. *)
Theorem C5_Timeout_iff_idle (stime xid : Z) (xkind xbucket : string) (loc : bool)
    (ops : list Cmn.DemandOp) :
  Z.of_nat (length ops) < 2 ^ 63 ->
  let r := Cmn.demand_run ops (Cmn.NewXactDemandBase stime xid xkind xbucket loc) in
  fst (Cmn.Timeout r) = true <->
  Cmn.pending r <= 0 /\ Cmn.renewed_since_last_idle_check ops = false.
Proof.
  intros Hlen r.
  destruct (demand_inv_run stime xid xkind xbucket loc ops Hlen)
    as [Hhi Hlo Hfl _].
  fold r in Hhi, Hlo, Hfl.
  rewrite Timeout_state by lia. rewrite <- Hfl.
  split; intros [Hp Hr]; split; auto; lia.
Qed.

Lemma C5_Timeout_iff_idle_witness :
  let ops := [Cmn.OpRenew; Cmn.OpIncPending; Cmn.OpTimeout; Cmn.OpDecPending;
              Cmn.OpTimeout] in
  let r := Cmn.demand_run ops (Cmn.NewXactDemandBase 1 1 "xactecput" "b" true) in
  fst (Cmn.Timeout r) = true <->
  Cmn.pending r <= 0 /\ Cmn.renewed_since_last_idle_check ops = false.
Proof.
  apply (C5_Timeout_iff_idle 1 1 "xactecput" "b" true
           [Cmn.OpRenew; Cmn.OpIncPending; Cmn.OpTimeout; Cmn.OpDecPending;
            Cmn.OpTimeout]).
  vm_compute. reflexivity.
Defined.

Section FsProofs.
Import Fs.

Variable os : OS.

Lemma Get_updatePaths (a d : gmap string MountpathInfo) (mfs : MountedFS) :
  Get (updatePaths a d mfs) = (a, d).
Proof. reflexivity. Qed.

Lemma mfs_inv_new : mfs_inv os NewMountedFS.
Proof.
  split; simpl.
  - reflexivity.
  - intros k. left. apply lookup_empty.
  - intros k mp [H|H]; simpl in H; rewrite lookup_empty in H; discriminate.
  - intros k1 k2 mp1 mp2 [H|H]; simpl in H; rewrite lookup_empty in H;
      discriminate.
Qed.

(** A state whose registered mountpaths all come from a state with the
    invariant, and are still known by filesystem identifier, has it too. *)
Lemma mfs_inv_shrink (mfs mfs' : MountedFS) :
  mfs_inv os mfs ->
  checkFsID mfs' = true ->
  (forall k, fst (Get mfs') !! k = None \/ snd (Get mfs') !! k = None) ->
  (forall k mp, registered mfs' k mp ->
     registered mfs k mp /\ is_Some (fsIDs mfs' !! Fsid mp)) ->
  mfs_inv os mfs'.
Proof.
  intros [Hc Hd Hk Hu] Hc' Hd' Hsub. split; auto.
  - intros k mp Hr. destruct (Hsub k mp Hr) as [Hr0 Hs].
    split; [exact Hs|]. apply (Hk k mp Hr0).
  - intros k1 k2 mp1 mp2 H1 H2.
    apply Hu; [apply (Hsub k1 mp1 H1) | apply (Hsub k2 mp2 H2)].
Qed.

Lemma Remove_inv (p : string) (mfs : MountedFS) :
  mfs_inv os mfs -> mfs_inv os (snd (fst (Remove p mfs))).
Proof.
  intros Hinv. pose proof Hinv as [Hc Hd Hk Hu].
  unfold Remove, mountpathsCopy.
  destruct (Get mfs) as [A D] eqn:HG. simpl in Hd.
  generalize (Clean p). intros k.
  destruct (A !! k) as [mp|] eqn:HA; [|destruct (D !! k) as [mp|] eqn:HD];
    simpl; auto.
  - assert (Hreg : registered mfs k mp) by (left; rewrite HG; exact HA).
    apply (mfs_inv_shrink mfs); auto; rewrite ?Get_updatePaths; simpl.
    + intros k'. destruct (Hd k') as [H|H]; [left|right; exact H].
      destruct (decide (k = k')) as [->|Hne];
        [apply lookup_delete_eq | rewrite lookup_delete_ne; auto].
    + intros k' mp' Hr.
      assert (Hold : registered mfs k' mp' /\ k' <> k).
      { destruct Hr as [Hr|Hr]; simpl in Hr.
        - apply lookup_delete_Some in Hr as [Hne Hr].
          split; [left; rewrite HG; exact Hr | congruence].
        - split; [right; rewrite HG; exact Hr|].
          intros ->. destruct (Hd k); congruence. }
      destruct Hold as [Hold Hne]. split; [exact Hold|].
      rewrite lookup_delete_ne; [apply (Hk k' mp' Hold)|].
      intros Heq. apply Hne. symmetry. eapply Hu; eauto.
  - assert (Hreg : registered mfs k mp) by (right; rewrite HG; exact HD).
    apply (mfs_inv_shrink mfs); auto; rewrite ?Get_updatePaths; simpl.
    + intros k'. destruct (Hd k') as [H|H]; [left; exact H|right].
      destruct (decide (k = k')) as [->|Hne];
        [apply lookup_delete_eq | rewrite lookup_delete_ne; auto].
    + intros k' mp' Hr.
      assert (Hold : registered mfs k' mp' /\ k' <> k).
      { destruct Hr as [Hr|Hr]; simpl in Hr.
        - split; [left; rewrite HG; exact Hr|]. intros ->. congruence.
        - apply lookup_delete_Some in Hr as [Hne Hr].
          split; [right; rewrite HG; exact Hr | congruence]. }
      destruct Hold as [Hold Hne]. split; [exact Hold|].
      rewrite lookup_delete_ne; [apply (Hk k' mp' Hold)|].
      intros Heq. apply Hne. symmetry. eapply Hu; eauto.
Qed.

Lemma Enable_inv (p : string) (mfs : MountedFS) :
  mfs_inv os mfs -> mfs_inv os (snd (fst (Enable p mfs))).
Proof.
  intros Hinv. pose proof Hinv as [Hc Hd Hk Hu].
  unfold Enable, mountpathsCopy.
  destruct (Get mfs) as [A D] eqn:HG. simpl in Hd.
  generalize (Clean p). intros k.
  destruct (A !! k) as [mp|] eqn:HA; [|destruct (D !! k) as [mp|] eqn:HD];
    simpl; auto.
  apply (mfs_inv_shrink mfs); auto; rewrite ?Get_updatePaths; simpl.
  - intros k'. destruct (decide (k = k')) as [->|Hne].
    + right. apply lookup_delete_eq.
    + rewrite lookup_insert_ne, lookup_delete_ne by auto. apply Hd.
  - intros k' mp' Hr.
    assert (Hold : registered mfs k' mp').
    { destruct Hr as [Hr|Hr]; simpl in Hr.
      - apply lookup_insert_Some in Hr as [[<- <-]|[Hne Hr]].
        + right. rewrite HG. exact HD.
        + left. rewrite HG. exact Hr.
      - apply lookup_delete_Some in Hr as [Hne Hr].
        right. rewrite HG. exact Hr. }
    split; [exact Hold | apply (Hk k' mp' Hold)].
Qed.

Lemma Disable_inv (p : string) (mfs : MountedFS) :
  mfs_inv os mfs -> mfs_inv os (snd (fst (Disable p mfs))).
Proof.
  intros Hinv. pose proof Hinv as [Hc Hd Hk Hu].
  unfold Disable, mountpathsCopy.
  destruct (Get mfs) as [A D] eqn:HG. simpl in Hd.
  generalize (Clean p). intros k.
  destruct (A !! k) as [mp|] eqn:HA; [|destruct (D !! k) as [mp|] eqn:HD];
    simpl; auto.
  apply (mfs_inv_shrink mfs); auto; rewrite ?Get_updatePaths; simpl.
  - intros k'. destruct (decide (k = k')) as [->|Hne].
    + left. apply lookup_delete_eq.
    + rewrite lookup_insert_ne, lookup_delete_ne by auto. apply Hd.
  - intros k' mp' Hr.
    assert (Hold : registered mfs k' mp').
    { destruct Hr as [Hr|Hr]; simpl in Hr.
      - apply lookup_delete_Some in Hr as [Hne Hr].
        left. rewrite HG. exact Hr.
      - apply lookup_insert_Some in Hr as [[<- <-]|[Hne Hr]].
        + left. rewrite HG. exact HA.
        + right. rewrite HG. exact Hr. }
    split; [exact Hold | apply (Hk k' mp' Hold)].
Qed.

Lemma Add_inv (p : string) (mfs : MountedFS) :
  statfs_lexical os ->
  mfs_inv os mfs -> mfs_inv os (snd (fst (Add os p mfs))).
Proof.
  intros Hlex Hinv. pose proof Hinv as [Hc Hd Hk Hu].
  unfold Add, mountpathsCopy.
  destruct (Get mfs) as [A D] eqn:HG. simpl in Hd.
  destruct (check_reserved p _); simpl; auto.
  destruct (os_Stat os p); simpl; auto.
  destruct (syscall_Statfs os p) as [f|] eqn:Hst; simpl; auto.
  destruct (Fqn2fsAtStartup os p) as [fs|]; simpl; auto.
  set (mp := newMountpath os p f fs).
  change (Path mp) with (Clean p). change (Fsid mp) with f.
  set (k := Clean p).
  destruct (A !! k) eqn:HA; simpl; auto.
  rewrite Hc.
  destruct (fsIDs mfs !! f) as [existing|] eqn:Hf; simpl; auto.
  assert (Hfresh : forall k' mp', registered mfs k' mp' -> Fsid mp' <> f).
  { intros k' mp' Hr Heq. destruct (Hk k' mp' Hr) as [[x Hx] _].
    rewrite Heq in Hx. congruence. }
  assert (HDk : D !! k = None).
  { destruct (D !! k) as [mp'|] eqn:HD; [|reflexivity]. exfalso.
    assert (Hr : registered mfs k mp') by (right; rewrite HG; exact HD).
    destruct (Hk k mp' Hr) as [_ (orig & Ho & Hs)].
    apply (Hfresh k mp' Hr).
    rewrite (Hlex orig p Ho) in Hs. congruence. }
  assert (Hnew : forall k' mp',
             registered (updatePaths (<[k := mp]> A) D
                           (set_fsIDs (<[f := p]> (fsIDs mfs)) mfs)) k' mp' ->
             (k' = k /\ mp' = mp) \/ registered mfs k' mp').
  { intros k' mp' [Hr|Hr]; simpl in Hr.
    - apply lookup_insert_Some in Hr as [[<- <-]|[Hne Hr]]; [left; auto|].
      right. left. rewrite HG. exact Hr.
    - right. right. rewrite HG. exact Hr. }
  split; simpl; auto.
  - intros k'. destruct (decide (k = k')) as [<-|Hne]; [right; exact HDk|].
    rewrite lookup_insert_ne by auto. apply Hd.
  - intros k' mp' Hr. destruct (Hnew k' mp' Hr) as [[-> ->]|Hold].
    + split; [rewrite lookup_insert_eq; eauto|].
      exists p. split; [reflexivity | exact Hst].
    + destruct (Hk k' mp' Hold) as [Hs Ho]. split; [|exact Ho].
      rewrite lookup_insert_ne; [exact Hs|].
      intros Heq. apply (Hfresh k' mp' Hold). auto.
  - intros k1 k2 mp1 mp2 H1 H2 Heq.
    destruct (Hnew k1 mp1 H1) as [[-> ->]|O1];
      destruct (Hnew k2 mp2 H2) as [[-> ->]|O2]; auto.
    + exfalso. apply (Hfresh k2 mp2 O2). auto.
    + exfalso. apply (Hfresh k1 mp1 O1). auto.
    + eapply Hu; eauto.
Qed.

Lemma step_inv (op : Op) (mfs : MountedFS) :
  statfs_lexical os -> mfs_inv os mfs -> mfs_inv os (step os mfs op).
Proof.
  intros Hlex Hinv. destruct op; simpl.
  - apply Add_inv; auto.
  - apply Remove_inv; auto.
  - apply Enable_inv; auto.
  - apply Disable_inv; auto.
Qed.

Lemma run_inv (ops : list Op) (mfs : MountedFS) :
  statfs_lexical os -> mfs_inv os mfs -> mfs_inv os (run os ops mfs).
Proof.
  intros Hlex. revert mfs. unfold run.
  induction ops as [|op ops IH]; intros mfs Hinv; simpl; auto.
  apply IH. apply step_inv; auto.
Qed.

End FsProofs.

(** C8: [Enable] on a mountpath that is already available returns
    (false, true) and changes nothing; on a disabled (and not available)
    mountpath it moves the entry to the available map and returns
    (true, true), after which a second [Enable] returns (false, true); on an
    unregistered path it returns (false, false). *)
Theorem C8_Enable_cases (mpath : string) (mfs : Fs.MountedFS) :
  let k := Fs.Clean mpath in
  (forall mp, fst (Fs.Get mfs) !! k = Some mp ->
     Fs.Enable mpath mfs = ((false, true), mfs, [])) /\
  (forall mp, fst (Fs.Get mfs) !! k = None -> snd (Fs.Get mfs) !! k = Some mp ->
     exists mfs' ev,
       Fs.Enable mpath mfs = ((true, true), mfs', ev) /\
       Fs.Get mfs' = (<[k := mp]> (fst (Fs.Get mfs)), delete k (snd (Fs.Get mfs))) /\
       Fs.Enable mpath mfs' = ((false, true), mfs', [])) /\
  (fst (Fs.Get mfs) !! k = None -> snd (Fs.Get mfs) !! k = None ->
     Fs.Enable mpath mfs = ((false, false), mfs, [])).
Proof.
  intros k. unfold Fs.Enable, Fs.mountpathsCopy. fold k.
  destruct (Fs.Get mfs) as [A D] eqn:HG. simpl.
  split; [|split].
  - intros mp HA. rewrite HA. reflexivity.
  - intros mp HA HD. rewrite HA, HD.
    eexists _, _. split; [reflexivity|]. split; [reflexivity|].
    cbn. rewrite lookup_insert_eq. reflexivity.
  - intros HA HD. rewrite HA, HD. reflexivity.
Qed.

Lemma C8_Enable_cases_witness :
  Fs.Enable "/mnt/a/" Sample.mfs2 = ((false, true), Sample.mfs2, []) /\
  (exists mfs' ev,
     Fs.Enable "/mnt/bb" Sample.mfs2 = ((true, true), mfs', ev) /\
     Fs.Get mfs' = (<[Fs.Clean "/mnt/bb" := Sample.mi "/mnt/bb/"]> (fst (Fs.Get Sample.mfs2)),
                    delete (Fs.Clean "/mnt/bb") (snd (Fs.Get Sample.mfs2))) /\
     Fs.Enable "/mnt/bb" mfs' = ((false, true), mfs', [])) /\
  Fs.Enable "/mnt/c" Sample.mfs2 = ((false, false), Sample.mfs2, []).
Proof.
  split; [|split].
  - apply (proj1 (C8_Enable_cases "/mnt/a/" Sample.mfs2) (Sample.mi "/mnt/a")).
    vm_compute. reflexivity.
  - apply (proj1 (proj2 (C8_Enable_cases "/mnt/bb" Sample.mfs2))
             (Sample.mi "/mnt/bb/")); vm_compute; reflexivity.
  - apply (proj2 (proj2 (C8_Enable_cases "/mnt/c" Sample.mfs2)));
      vm_compute; reflexivity.
Defined.

Section RemoveProofs.
Import Fs.

Lemma Remove_available (mpath : string) (mfs : MountedFS) (mp : MountpathInfo) :
  fst (Get mfs) !! Clean mpath = Some mp ->
  exists mfs' log,
    Remove mpath mfs = (None, mfs', [EvIostatRemove (Clean mpath); log]) /\
    Get mfs' = (delete (Clean mpath) (fst (Get mfs)), snd (Get mfs)) /\
    fsIDs mfs' = delete (Fsid mp) (fsIDs mfs) /\
    log = (if Nat.eqb (size (delete (Clean mpath) (fst (Get mfs)))) 0
           then EvLogError "removed the last available mountpath" mp
           else EvLogInfo "removed mountpath" mp
                          (size (delete (Clean mpath) (fst (Get mfs))))).
Proof.
  intros HA. unfold Remove, mountpathsCopy.
  destruct (Get mfs) as [A D] eqn:HG. simpl in *. rewrite HA.
  eexists _, _. repeat split.
Qed.

Lemma Remove_disabled (mpath : string) (mfs : MountedFS) (mp : MountpathInfo) :
  fst (Get mfs) !! Clean mpath = None ->
  snd (Get mfs) !! Clean mpath = Some mp ->
  exists mfs',
    Remove mpath mfs = (None, mfs', []) /\
    Get mfs' = (fst (Get mfs), delete (Clean mpath) (snd (Get mfs))) /\
    fsIDs mfs' = delete (Fsid mp) (fsIDs mfs).
Proof.
  intros HA HD. unfold Remove, mountpathsCopy.
  destruct (Get mfs) as [A D] eqn:HG. simpl in *. rewrite HA, HD.
  eexists. repeat split.
Qed.

Lemma Remove_absent (mpath : string) (mfs : MountedFS) :
  fst (Get mfs) !! Clean mpath = None ->
  snd (Get mfs) !! Clean mpath = None ->
  Remove mpath mfs = (Some (ErrNonExisting (Clean mpath)), mfs, []).
Proof.
  intros HA HD. unfold Remove, mountpathsCopy.
  destruct (Get mfs) as [A D] eqn:HG. simpl in *. rewrite HA, HD.
  reflexivity.
Qed.

End RemoveProofs.

(** C7: [Remove] looks the cleaned path up in the available map first and
    in the disabled map otherwise, deleting the entry where it finds it; it
    returns an error exactly when the path is in neither map.  Removing the
    only available mountpath succeeds and logs an error, and the run group
    then finds no available mountpath left and calls the target's
    unregistration. *)
Theorem C7_Remove_cases (mpath : string) (mfs : Fs.MountedFS) :
  let k := Fs.Clean mpath in
  (is_Some (fst (fst (Fs.Remove mpath mfs))) <->
     fst (Fs.Get mfs) !! k = None /\ snd (Fs.Get mfs) !! k = None) /\
  (forall mp, fst (Fs.Get mfs) !! k = Some mp ->
     Fs.Get (snd (fst (Fs.Remove mpath mfs)))
       = (delete k (fst (Fs.Get mfs)), snd (Fs.Get mfs))) /\
  (forall mp, fst (Fs.Get mfs) !! k = None -> snd (Fs.Get mfs) !! k = Some mp ->
     Fs.Get (snd (fst (Fs.Remove mpath mfs)))
       = (fst (Fs.Get mfs), delete k (snd (Fs.Get mfs)))) /\
  (forall mp, fst (Fs.Get mfs) = {[k := mp]} ->
     fst (fst (Fs.Remove mpath mfs)) = None /\
     In (Fs.EvLogError "removed the last available mountpath" mp)
        (snd (Fs.Remove mpath mfs)) /\
     forall runners enabled disable_ok,
       let g := Ais.mkFsprungroup runners mfs enabled in
       let '(err, g', ev) := Ais.removeMountpath disable_ok mpath g in
       err = None /\ In Ais.GevTargetDisable ev /\
       Ais.targetEnabled g' = (if disable_ok then false else enabled)).
Proof.
  intros k. split; [|split; [|split]].
  - destruct (fst (Fs.Get mfs) !! k) as [mp|] eqn:HA.
    + destruct (Remove_available mpath mfs mp HA) as (mfs' & log & -> & _).
      simpl. split; [intros [x Hx]; discriminate | intros [H _]; discriminate].
    + destruct (snd (Fs.Get mfs) !! k) as [mp|] eqn:HD.
      * destruct (Remove_disabled mpath mfs mp HA HD) as (mfs' & -> & _).
        simpl. split; [intros [x Hx]; discriminate | intros [_ H]; discriminate].
      * rewrite (Remove_absent mpath mfs HA HD). simpl. split; eauto.
  - intros mp HA.
    destruct (Remove_available mpath mfs mp HA) as (mfs' & log & -> & HG & _).
    exact HG.
  - intros mp HA HD.
    destruct (Remove_disabled mpath mfs mp HA HD) as (mfs' & -> & HG & _).
    exact HG.
  - intros mp Hone.
    assert (HA : fst (Fs.Get mfs) !! k = Some mp)
      by (rewrite Hone; apply lookup_singleton_eq).
    destruct (Remove_available mpath mfs mp HA) as (mfs' & log & HR & HG & _ & Hlog).
    fold k in HR, HG, Hlog.
    rewrite Hone, delete_singleton_eq in Hlog, HG.
    rewrite map_size_empty in Hlog. simpl in Hlog. subst log.
    rewrite HR. simpl. split; [reflexivity|]. split; [auto|].
    intros runners enabled disable_ok.
    unfold Ais.removeMountpath. simpl. rewrite HR.
    unfold Ais.checkNoMountpaths. simpl Ais.fsMountpaths. rewrite HG.
    rewrite map_size_empty. simpl.
    destruct disable_ok; simpl; (split; [reflexivity|]); split; auto;
      rewrite !in_app_iff; right; right; simpl; auto.
Qed.

Lemma C7_Remove_cases_witness :
  Fs.Get (snd (fst (Fs.Remove "/mnt/bb/" Sample.mfs2)))
    = (fst (Fs.Get Sample.mfs2), delete (Fs.Clean "/mnt/bb/") (snd (Fs.Get Sample.mfs2))) /\
  fst (fst (Fs.Remove "/mnt/a" Sample.mfs1)) = None /\
  In (Fs.EvLogError "removed the last available mountpath" (Sample.mi "/mnt/a"))
     (snd (Fs.Remove "/mnt/a" Sample.mfs1)).
Proof.
  split.
  - apply (proj1 (proj2 (proj2 (C7_Remove_cases "/mnt/bb/" Sample.mfs2)))
             (Sample.mi "/mnt/bb/")); vm_compute; reflexivity.
  - pose proof (proj2 (proj2 (proj2 (C7_Remove_cases "/mnt/a" Sample.mfs1)))
                  (Sample.mi "/mnt/a")) as H.
    destruct H as (H1 & H2 & _); [vm_compute; reflexivity|].
    split; assumption.
Defined.



Lemma Sample_os_lexical : Fs.statfs_lexical Sample.os.
Proof. intros p q Hpq. simpl. rewrite Hpq. reflexivity. Qed.


(** With the filesystem-identifier check switched off (test deployments),
    adding a disabled path again does put it in both maps. *)
Example overlap_without_fsid_check :
  let mfs := Fs.run Sample.os
               [Fs.OpAdd "/mnt/a"; Fs.OpDisable "/mnt/a"; Fs.OpAdd "/mnt/a"]
               (Fs.DisableFsIDCheck Fs.NewMountedFS) in
  is_Some (fst (Fs.Get mfs) !! "/mnt/a") /\ is_Some (snd (Fs.Get mfs) !! "/mnt/a").
Proof. vm_compute. split; eexists; reflexivity. Qed.

(** With the check on, the same history rejects the second [Add]. *)
Example second_add_rejected :
  let mfs := Fs.run Sample.os [Fs.OpAdd "/mnt/a"; Fs.OpDisable "/mnt/a"]
                    Fs.NewMountedFS in
  fst (fst (Fs.Add Sample.os "/mnt/a" mfs)) = Some (Fs.ErrSameFsid "/mnt/a" "/mnt/a").
Proof. vm_compute. reflexivity. Qed.

Section MirrorProofs.
Import Cluster Mirror.
Context {M : Type} `{mpather M}.
Variable env : Env.
Variable lom : LOM.

Lemma skip_for_copies_false (path : string) (copies : list string) :
  skip_for_copies env path copies = false <->
  forall cpyfqn, In cpyfqn copies ->
    exists parsed, FQN2Info env cpyfqn = Some parsed /\ path <> mpath_of parsed.
Proof.
  induction copies as [|c rest IH]; simpl.
  - split; [intros _ c [] | reflexivity].
  - destruct (FQN2Info env c) as [parsed|] eqn:Hc.
    + destruct (String.eqb path (mpath_of parsed)) eqn:He.
      * split; [discriminate|]. intros Hall.
        destruct (Hall c (or_introl eq_refl)) as (p' & Hp' & Hne).
        apply String.eqb_eq in He. congruence.
      * apply String.eqb_neq in He. rewrite IH. split.
        -- intros Hall c' [<-|Hin]; [exists parsed; auto | auto].
        -- intros Hall c' Hin. apply Hall. right. exact Hin.
    + split; [discriminate|]. intros Hall.
      destruct (Hall c (or_introl eq_refl)) as (p' & Hp' & _). congruence.
Qed.

(** A candidate that reaches the utilization test is a survivor. *)
Lemma examined_survives (j : M) :
  examined env lom j = true -> survives env lom j.
Proof.
  unfold examined, survives, hosts_primary, hosts_copy.
  destruct (String.eqb _ _) eqn:Hp; [discriminate|].
  apply String.eqb_neq in Hp.
  destruct (HasCopies lom && _) eqn:Hs; [discriminate|]. intros _.
  split; [exact Hp|]. intros (c & parsed & Hin & Hc & Heq).
  apply andb_false_iff in Hs as [Hs|Hs].
  - unfold HasCopies in Hs. destruct (CopyFQN lom); [destruct Hin | discriminate].
  - rewrite skip_for_copies_false in Hs.
    destruct (Hs c Hin) as (p' & Hp' & Hne). congruence.
Qed.

(** When every copy FQN resolves, the survivors are exactly the
    candidates that reach the utilization test. *)
Lemma survives_examined (j : M) :
  copies_resolve env lom -> survives env lom j -> examined env lom j = true.
Proof.
  unfold examined, survives, hosts_primary, hosts_copy, copies_resolve.
  intros Hres [Hp Hc].
  apply String.eqb_neq in Hp. rewrite Hp.
  assert (Hs : skip_for_copies env (Fs.Path (mountpathInfo j)) (CopyFQN lom) = false).
  { apply skip_for_copies_false. intros c Hin.
    destruct (FQN2Info env c) as [parsed|] eqn:Hf; [|destruct (Hres c Hin Hf)].
    exists parsed. split; [reflexivity|]. intros Heq. apply Hc.
    exists c, parsed. auto. }
  rewrite Hs, andb_false_r. reflexivity.
Qed.

(** If any candidate reaches the test, every copy FQN resolved. *)
Lemma examined_resolves (j : M) :
  examined env lom j = true -> copies_resolve env lom.
Proof.
  unfold examined, copies_resolve.
  destruct (String.eqb _ _); [discriminate|].
  destruct (HasCopies lom && _) eqn:Hs; [discriminate|]. intros _ c Hin.
  apply andb_false_iff in Hs as [Hs|Hs].
  - unfold HasCopies in Hs. destruct (CopyFQN lom); [destruct Hin | discriminate].
  - rewrite skip_for_copies_false in Hs.
    destruct (Hs c Hin) as (p' & Hp' & _). congruence.
Qed.

(** What the loop leaves in its accumulator. *)
Lemma loop_spec (l : list M) (acc : option M * Z) :
  let res := fold_left (loop_body env lom) l acc in
  snd res <= snd acc /\
  (forall j, In j l -> examined env lom j = true -> snd res <= util_of env j) /\
  (res = acc \/
   exists j, fst res = Some j /\ In j l /\ examined env lom j = true /\
             util_of env j = snd res /\ snd res < snd acc).
Proof.
  revert acc. induction l as [|a l IH]; intros acc; simpl.
  - split; [lia|]. split; [intros j []|]. left. reflexivity.
  - specialize (IH (loop_body env lom acc a)).
    destruct IH as (Hle & Hmin & Hres).
    set (res := fold_left (loop_body env lom) l (loop_body env lom acc a)) in *.
    assert (Hstep : snd (loop_body env lom acc a) <= snd acc /\
              (examined env lom a = true ->
               snd (loop_body env lom acc a) <= util_of env a) /\
              (loop_body env lom acc a = acc \/
               (loop_body env lom acc a = (Some a, util_of env a) /\
                examined env lom a = true /\ util_of env a < snd acc))).
    { unfold loop_body, util_of.
      destruct (examined env lom a) eqn:He.
      - destruct (Z.ltb_spec (GetDiskUtil env (Fs.Path (mountpathInfo a))) (snd acc));
          simpl; repeat split; auto; try lia.
      - repeat split; auto; try lia; discriminate. }
    destruct Hstep as (Hs1 & Hs2 & Hs3).
    split; [lia|]. split.
    + intros j [<-|Hin] He; [specialize (Hs2 He); lia | auto].
    + destruct Hres as [Hres|(j & Hj & Hin & He & Hu & Hlt)].
      * destruct Hs3 as [Hs3|(Hs3 & He & Hlt)].
        -- left. congruence.
        -- right. exists a. rewrite Hres, Hs3. simpl. auto.
      * right. exists j. repeat split; auto. lia.
Qed.

Lemma findLeastUtilized_Some (l : list M) (j : M) :
  findLeastUtilized env lom l = Some j ->
  In j l /\ examined env lom j = true /\ util_of env j < 101 /\
  forall j', In j' l -> examined env lom j' = true ->
             util_of env j <= util_of env j'.
Proof.
  unfold findLeastUtilized. intros Hf.
  destruct (loop_spec l (None, 101)) as (Hle & Hmin & Hres). simpl in *.
  destruct Hres as [Hres|(j0 & Hj0 & Hin & He & Hu & Hlt)].
  - rewrite Hres in Hf. discriminate.
  - rewrite Hj0 in Hf. injection Hf as <-.
    repeat split; auto; try lia. intros j' Hin' He'. rewrite Hu. auto.
Qed.

Lemma findLeastUtilized_None (l : list M) :
  findLeastUtilized env lom l = None ->
  forall j, In j l -> examined env lom j = true -> 101 <= util_of env j.
Proof.
  unfold findLeastUtilized. intros Hf.
  destruct (loop_spec l (None, 101)) as (Hle & Hmin & Hres). simpl in *.
  destruct Hres as [Hres|(j0 & Hj0 & _)].
  - rewrite Hres in Hmin. exact Hmin.
  - rewrite Hj0 in Hf. discriminate.
Qed.

End MirrorProofs.

(** C4 (as stated, fails): a LOM whose copy FQN does not resolve to a
    mountpath makes the loop skip every candidate, so nothing is returned
    although a candidate survives (it hosts neither the primary nor a
    copy). *)
Lemma C4_counterexample :
  let env := Mirror.mkEnv (fun _ => None) (fun _ => 10) in
  let primary := Cluster.mkParsedFQN (Sample.mi "/mnt/a") "obj" "b" "o" true in
  let lom := Cluster.mkLOM "/mnt/a/obj/local/b/o" "b" "o" true
               (Cluster.mkBucketProps (Cluster.mkECConf 0 1 1 false)) primary 1
               (Cluster.mkLomMeta "1" None ["/mnt/gone/obj/local/b/o"]) in
  let j := Mirror.mkJogger (Sample.mi "/mnt/bb") in
  Mirror.survives env lom j /\ Mirror.util_of env j = 10 /\
  Mirror.findLeastUtilized env lom [j] = None.
Proof.
  cbv zeta. split; [|split; reflexivity].
  split.
  - unfold Mirror.hosts_primary. vm_compute. discriminate.
  - intros (c & parsed & _ & Hc & _). discriminate.
Qed.

(** C4 (amended): what [findLeastUtilized] returns is a candidate that
    hosts neither the primary nor an existing copy, and no surviving
    candidate has a lower utilization; when no candidate survives it
    returns nothing; when every copy FQN of the LOM resolves to a
    mountpath and some surviving candidate has a utilization of at most
    100, it does return a candidate; and when some copy FQN of the LOM
    does not resolve, every candidate is skipped and it returns nothing. *)
Theorem C4_findLeastUtilized (M : Type) (I : Mirror.mpather M)
    (env : Mirror.Env) (lom : Cluster.LOM) (mpathers : list M) :
  (forall j, Mirror.findLeastUtilized env lom mpathers = Some j ->
     In j mpathers /\ ~ Mirror.hosts_primary lom j /\ ~ Mirror.hosts_copy env lom j /\
     forall j', In j' mpathers -> Mirror.survives env lom j' ->
                Mirror.util_of env j <= Mirror.util_of env j') /\
  ((forall j, In j mpathers -> ~ Mirror.survives env lom j) ->
     Mirror.findLeastUtilized env lom mpathers = None) /\
  (Mirror.copies_resolve env lom ->
   (exists j, In j mpathers /\ Mirror.survives env lom j /\
              Mirror.util_of env j <= 100) ->
   exists j, Mirror.findLeastUtilized env lom mpathers = Some j) /\
  ((exists cpyfqn, In cpyfqn (Cluster.CopyFQN lom) /\
                   Mirror.FQN2Info env cpyfqn = None) ->
   Mirror.findLeastUtilized env lom mpathers = None).
Proof.
  split; [|split; [|split]].
  - intros j Hf.
    destruct (findLeastUtilized_Some env lom mpathers j Hf) as (Hin & He & _ & Hmin).
    destruct (examined_survives env lom j He) as [Hp Hc].
    repeat split; auto. intros j' Hin' Hs. apply Hmin; auto.
    apply survives_examined; auto. eapply examined_resolves; eauto.
  - intros Hnone.
    destruct (Mirror.findLeastUtilized env lom mpathers) as [j|] eqn:Hf; auto.
    destruct (findLeastUtilized_Some env lom mpathers j Hf) as (Hin & He & _).
    destruct (Hnone j Hin). apply examined_survives; auto.
  - intros Hres (j & Hin & Hs & Hu).
    destruct (Mirror.findLeastUtilized env lom mpathers) as [j0|] eqn:Hf; eauto.
    pose proof (findLeastUtilized_None env lom mpathers Hf j Hin
                  (survives_examined env lom j Hres Hs)). lia.
  - intros (c & Hin & Hc).
    destruct (Mirror.findLeastUtilized env lom mpathers) as [j|] eqn:Hf; auto.
    destruct (findLeastUtilized_Some env lom mpathers j Hf) as (_ & He & _).
    destruct (examined_resolves env lom j He c Hin Hc).
Qed.

Example findLeastUtilized_sample :
  Mirror.findLeastUtilized Sample.menv Sample.lom1 Sample.joggers
  = Some (Mirror.mkJogger (Sample.mi "/mnt/dddd")).
Proof. vm_compute. reflexivity. Qed.

Lemma C4_findLeastUtilized_witness :
  exists j, Mirror.findLeastUtilized Sample.menv Sample.lom1 Sample.joggers = Some j.
Proof.
  apply (proj1 (proj2 (proj2 (C4_findLeastUtilized _ _ Sample.menv Sample.lom1
                                Sample.joggers)))).
  - intros c [<-|[]]. vm_compute. discriminate.
  - exists (Mirror.mkJogger (Sample.mi "/mnt/dddd")).
    split; [vm_compute; auto|]. split.
    + split.
      * unfold Mirror.hosts_primary. vm_compute. discriminate.
      * intros (c & p & Hin & Hc & Heq). destruct Hin as [<-|[]].
        vm_compute in Hc. injection Hc as <-. vm_compute in Heq. discriminate.
    + vm_compute. discriminate.
Defined.

(** C3 (as stated, fails): for a response with Exists=false the wait-group
    is signalled first and the body is drained afterwards, so the drain
    does not come before the signal. *)
Lemma C3_counterexample :
  let w := Ec.mkSlice (Ec.mkWriter [] false false) 1 0 None "" in
  let attrs := Ec.mkObjectAttrs 0 "" 0 "" "" in
  let reader := Ec.mkReader [Byte.x01; Byte.x02; Byte.x03] None in
  let trace := snd (Ec.writerReceive (fun t v => Some (t, v)) Ec.copy_all
                      w false attrs reader) in
  trace = [Ec.IoAllocSlab; Ec.IoWgDone; Ec.IoDrain 3; Ec.IoFreeSlab] /\
  ~ Ec.before Ec.is_drain Ec.is_wg_done trace.
Proof.
  cbv zeta. split; [reflexivity|].
  intros (i & j & Hi & Hj & Hlt). vm_compute in Hi, Hj.
  injection Hi as <-. injection Hj as <-. lia.
Qed.

(** C3 (amended): for a response with Exists=false, [writerReceive] signals
    the slice's wait-group, then drains the whole response body, writes
    nothing into the registered writer and returns the not-found error. *)
Theorem C3_writerReceive_not_exists
    (NewCksum : string -> string -> option (string * string))
    (CopyToWriter : Ec.Writer -> Ec.Reader
                    -> Z * option string * Ec.Writer * Ec.Reader)
    (w : Ec.slice) (attrs : Ec.ObjectAttrs) (reader : Ec.Reader) :
  exists w' reader' trace,
    Ec.writerReceive NewCksum CopyToWriter w false attrs reader
      = (w', reader', Some (inl Ec.ErrorNotFound), trace) /\
    trace = [Ec.IoAllocSlab; Ec.IoWgDone; Ec.IoDrain (length (Ec.body reader));
             Ec.IoFreeSlab] /\
    Ec.before Ec.is_wg_done Ec.is_drain trace /\
    Ec.body reader' = [] /\
    Ec.writer w' = Ec.writer w /\ Ec.n w' = Ec.n w /\
    Ec.cksum w' = Ec.cksum w /\ Ec.version w' = Ec.version w /\
    Ec.wg w' = Ec.wg w - 1.
Proof.
  eexists _, _, _. split; [reflexivity|]. simpl.
  repeat split; auto.
  exists 1%nat, 2%nat. repeat split; auto.
Qed.

Section PutLoopProofs.
Import Ec.

Lemma drain_fails_all (r : XactPut) (q : list Request) (req : Request) (ch : nat) :
  In req q -> ErrCh req = Some ch ->
  In (EvErrSend ch (ErrDisabledOnBucket (bckName r))) (drain r q) /\
  In (EvErrClose ch) (drain r q).
Proof.
  intros Hin Hch. induction q as [|a q IH]; [destruct Hin|].
  simpl. rewrite !in_app_iff. destruct Hin as [->|Hin].
  - unfold abortECRequestWhenDisabled. rewrite Hch. simpl. auto.
  - destruct (IH Hin). auto.
Qed.

(** The drain only ever talks to the error channels of queued requests. *)
Lemma drain_only_queued (r : XactPut) (q : list Request) (ch : nat) (e : Error) :
  In (EvErrSend ch e) (drain r q) ->
  e = ErrDisabledOnBucket (bckName r) /\
  exists req, In req q /\ ErrCh req = Some ch.
Proof.
  induction q as [|a q IH]; simpl; [intros []|].
  rewrite in_app_iff. intros [Ha|Hq].
  - unfold abortECRequestWhenDisabled in Ha.
    destruct (ErrCh a) as [c|] eqn:Hc; [|destruct Ha].
    destruct Ha as [Ha|[Ha|[]]]; [|discriminate].
    injection Ha as <- <-. split; [reflexivity|]. exists a. auto.
  - destruct (IH Hq) as (He & req & Hin & Hch). split; [exact He|].
    exists req. auto.
Qed.

Lemma stop_fields (now : Z) (r : XactPut) :
  let r' := fst (stop now r) in
  rejectReq r' = rejectReq r /\ ecCh r' = ecCh r /\
  controlCh r' = controlCh r /\ bckName r' = bckName r /\
  running r' = running r.
Proof. unfold stop. destruct (Finished r); simpl; auto. Qed.

Lemma stop_Finished (now : Z) (r : XactPut) :
  now <> 0 -> Finished (fst (stop now r)) = true.
Proof.
  intros Hnow. unfold stop. destruct (Finished r) eqn:Hf; simpl; auto.
  unfold Finished, Cmn.Finished. simpl.
  apply negb_true_iff, Z.eqb_neq. exact Hnow.
Qed.

(** Once the reject flag is set and the loop has returned, nothing in the
    model clears the flag: every turn is refused and every submission is
    answered with the "EC disabled" error. *)
Lemma rejected_forever (conf : Config) (r : XactPut) :
  running r = false -> rejectReq r = true ->
  (forall now c, Run_step conf now c r = NotReady) /\
  (forall now req,
     Encode now r req = Some (r, abortECRequestWhenDisabled r (stamp now req))).
Proof.
  intros Hrun Hrej. split.
  - intros now c. unfold Run_step. rewrite Hrun. reflexivity.
  - intros now req. unfold Encode, dispatchDecodingRequest, ecRequestsEnabled.
    rewrite Hrej. reflexivity.
Qed.

Lemma control_send_fields (a : ControlAction) (r r' : XactPut) :
  (q ← chan_send controlBufSize (mkControlMsg a) (controlCh r);
   Some (with_controlCh q r)) = Some r' ->
  running r' = running r /\ rejectReq r' = rejectReq r /\
  ecCh r' = ecCh r /\ bckName r' = bckName r /\
  controlCh r' = controlCh r ++ [mkControlMsg a].
Proof.
  unfold chan_send. destruct (_ <? _)%nat; simpl; [|discriminate].
  intros E. injection E as <-. simpl. auto.
Qed.

End PutLoopProofs.

(** C2 (as stated, fails): after the loop has handled [ClearRequests] it
    has returned, so a later [EnableRequests] is never read: the reject
    flag stays set and a newly submitted request is rejected. *)
Lemma C2_counterexample :
  let conf := Ec.mkConfig 10 in
  let q := Sample.request (Some 7%nat) in
  exists r1 r2 ev r3,
    Ec.ClearRequests Sample.put_xact = Some r1 /\
    Ec.Run_step conf 5 Ec.CaseControlCh r1 = Ec.Ran r2 ev /\
    Ec.EnableRequests r2 = Some r3 /\
    (forall now c, Ec.Run_step conf now c r3 = Ec.NotReady) /\
    Ec.Encode 6 r3 q
      = Some (r3, [Ec.EvErrSend 7 (Ec.ErrDisabledOnBucket "b"); Ec.EvErrClose 7]).
Proof.
  cbv zeta. eexists _, _, _, _.
  split; [vm_compute; reflexivity|].
  split; [vm_compute; reflexivity|].
  split; [vm_compute; reflexivity|].
  split; [|vm_compute; reflexivity].
  intros now c. unfold Ec.Run_step. reflexivity.
Qed.

(** C2 (amended): when the running loop of a Put xaction takes a
    [ClearRequests] message, every request then queued on the request
    channel is failed on its error channel (when it has one), the channel
    is left empty, the reject flag is set and the loop returns; from then
    on every submission to this xaction is rejected, also after
    [EnableRequests], which the returned loop never reads.  When a running
    loop takes an [EnableRequests] message it clears the reject flag, and a
    request submitted afterwards is queued, not rejected. *)
Theorem C2_clear_drains_enable_accepts (conf : Ec.Config) (now : Z)
    (r : Ec.XactPut) (rest : list Ec.RequestsControlMsg) :
  Ec.running r = true ->
  (Ec.controlCh r = Ec.mkControlMsg Ec.ActClearRequests :: rest ->
   exists r' ev,
     Ec.Run_step conf now Ec.CaseControlCh r = Ec.Ran r' ev /\
     Ec.rejectReq r' = true /\ Ec.ecCh r' = [] /\ Ec.running r' = false /\
     Ec.controlCh r' = rest /\
     (forall req ch, In req (Ec.ecCh r) -> Ec.ErrCh req = Some ch ->
        In (Ec.EvErrSend ch (Ec.ErrDisabledOnBucket (Ec.bckName r))) ev /\
        In (Ec.EvErrClose ch) ev) /\
     (forall now' req,
        Ec.Encode now' r' req
          = Some (r', Ec.abortECRequestWhenDisabled r' (Ec.stamp now' req))) /\
     (forall r'', Ec.EnableRequests r' = Some r'' ->
        (forall now' c, Ec.Run_step conf now' c r'' = Ec.NotReady) /\
        forall now' req,
          Ec.Encode now' r'' req
            = Some (r'', Ec.abortECRequestWhenDisabled r'' (Ec.stamp now' req)))) /\
  (Ec.controlCh r = Ec.mkControlMsg Ec.ActEnableRequests :: rest ->
   exists r',
     Ec.Run_step conf now Ec.CaseControlCh r = Ec.Ran r' [] /\
     Ec.rejectReq r' = false /\ Ec.ecCh r' = Ec.ecCh r /\ Ec.running r' = true /\
     forall now' req,
       (length (Ec.ecCh r) < Ec.requestBufSizeGlobal)%nat ->
       Ec.Encode now' r' req
         = Some (Ec.with_ecCh (Ec.ecCh r ++ [Ec.stamp now' req]) r', [])).
Proof.
  intros Hrun. split; intros Hc.
  - unfold Ec.Run_step. rewrite Hrun, Hc. simpl.
    set (r2 := Ec.setEcRequestsDisabled (Ec.with_controlCh rest r)).
    destruct (Ec.stop now (Ec.with_ecCh [] r2)) as [r3 ev'] eqn:Hs.
    pose proof (stop_fields now (Ec.with_ecCh [] r2)) as Hf.
    rewrite Hs in Hf. simpl in Hf. destruct Hf as (Hrej & Hec & Hcc & Hb & _).
    eexists _, _. split; [reflexivity|]. simpl.
    assert (Hdead : Ec.running (Ec.with_running false r3) = false) by reflexivity.
    assert (Hflag : Ec.rejectReq (Ec.with_running false r3) = true)
      by (simpl; exact Hrej).
    repeat split; auto.
    + apply in_app_iff. left.
      apply (proj1 (drain_fails_all r2 (Ec.ecCh r) req ch H H0)).
    + apply in_app_iff. left.
      apply (proj2 (drain_fails_all r2 (Ec.ecCh r) req ch H H0)).
    + apply (proj2 (rejected_forever conf _ Hdead Hflag)).
    + apply (control_send_fields Ec.ActEnableRequests) in H
        as (Hr'' & Hj'' & _).
      apply (proj1 (rejected_forever conf r'' ltac:(congruence) ltac:(congruence))).
    + apply (control_send_fields Ec.ActEnableRequests) in H
        as (Hr'' & Hj'' & _).
      apply (proj2 (rejected_forever conf r'' ltac:(congruence) ltac:(congruence))).
  - unfold Ec.Run_step. rewrite Hrun, Hc. simpl.
    eexists. split; [reflexivity|]. simpl. repeat split; auto.
    intros now' req Hlen.
    unfold Ec.Encode, Ec.dispatchDecodingRequest, Ec.ecRequestsEnabled,
      Ec.chan_send. simpl.
    apply Nat.ltb_lt in Hlen. rewrite Hlen. reflexivity.
Qed.

Section SmapProofs.
Import Cluster Ais.












End SmapProofs.



Lemma C2_clear_drains_enable_accepts_witness :
  exists r' ev,
    Ec.Run_step (Ec.mkConfig 10) 5 Ec.CaseControlCh Sample.put_cleared = Ec.Ran r' ev /\
    Ec.rejectReq r' = true /\ Ec.ecCh r' = [] /\ Ec.running r' = false /\
    In (Ec.EvErrSend 7 (Ec.ErrDisabledOnBucket "b")) ev.
Proof.
  destruct (proj1 (C2_clear_drains_enable_accepts (Ec.mkConfig 10) 5
                     Sample.put_cleared []
                     ltac:(vm_compute; reflexivity))
                  ltac:(vm_compute; reflexivity))
    as (r' & ev & H1 & H2 & H3 & H4 & _ & H6 & _).
  exists r', ev. repeat split; auto.
  apply (H6 (Ec.stamp 2 (Sample.request (Some 7%nat))) 7%nat).
  - vm_compute. auto.
  - reflexivity.
Defined.

(** A request queued before [ClearRequests] is drained only if the loop
    takes the control message first: when the select picks the request
    channel, the request goes to its jogger. *)
Example queued_request_may_be_dispatched :
  exists r' ev,
    Ec.Run_step (Ec.mkConfig 10) 5 Ec.CaseEcCh Sample.put_cleared = Ec.Ran r' ev /\
    Ec.ecCh r' = [] /\
    (forall e, ~ In (Ec.EvErrSend 7 e) ev) /\
    (Ec.workCh <$> Ec.putJoggers r' !! "/mnt/a")
      = Some [Ec.stamp 2 (Sample.request (Some 7%nat))].
Proof.
  eexists _, _. split; [vm_compute; reflexivity|].
  split; [reflexivity|]. split; [|vm_compute; reflexivity].
  intros e [H|[H|[]]]; discriminate.
Qed.

Section EncodeProofs.
Import Cluster Ais.

Lemma restoreBckPutXact_disk now bck w :
  disk (snd (restoreBckPutXact now bck w)) = disk w.
Proof.
  unfold restoreBckPutXact, getBckXacts, renewPutEC.
  destruct (xacts (mgr w) !! bck) as [bx|]; simpl.
  - destruct (Ec.Put bx) as [x|]; simpl; [destruct (Ec.Finished x)|];
      reflexivity.
  - reflexivity.
Qed.

(** [EncodeObject] never writes an extended attribute. *)
Lemma EncodeObject_disk env now lom w e w' ev :
  EncodeObject env now lom w = Ok (Some (e, w', ev)) -> disk w' = disk w.
Proof.
  unfold EncodeObject.
  destruct (negb (Enabled _)); [intros E; injection E as _ <- _; reflexivity|].
  destruct (negb (Ec.IsECCopy _ _) && _);
    [intros E; injection E as _ <- _; reflexivity|].
  destruct (String.eqb (FQN lom) ""); [discriminate|].
  destruct (String.eqb (Fs.Path _) ""); [discriminate|].
  destruct (AvgCapUsed_oos env); [intros E; injection E as _ <- _; reflexivity|].
  assert (Hrest :
    match Load (disk w) lom with
    | inl lom' =>
        let req := Ec.mkRequest Ec.ActSplit lom'
                     (Ec.IsECCopy (Size lom) (EC (BckProps lom))) None 0 0 in
        let '(xact, w1) := restoreBckPutXact now (Bucket lom) w in
        match Ec.Encode now xact req with
        | Some (xact', ev0) =>
            Ok (Some (None, store_put (Bucket lom) xact' w1, EvEc <$> ev0))
        | None => Ok None
        end
    | inr errstr => Ok (Some (Some (Ec.ErrOther errstr), w, []))
    end = Ok (Some (e, w', ev)) -> disk w' = disk w).
  { destruct (Load (disk w) lom) as [lom'|errstr];
      [|intros E; injection E as _ <- _; reflexivity].
    pose proof (restoreBckPutXact_disk now (Bucket lom) w) as Hd.
    destruct (restoreBckPutXact now (Bucket lom) w) as [xact w1]. simpl in Hd.
    cbv zeta.
    match goal with
    | |- context [Ec.Encode ?a ?b ?c] =>
        destruct (Ec.Encode a b c) as [[xact' ev0]|]; [|discriminate]
    end.
    intros E. injection E as _ <- _. simpl. exact Hd. }
  destruct (FileSpec_PermToProcess env (FQN lom)) as [[|]|]; auto.
  intros E; injection E as _ <- _; reflexivity.
Qed.

(** [EncodeObject] returns InsufficientTargets from its target-count
    gate only. *)
Lemma EncodeObject_insufficient env now lom w w' ev :
  EncodeObject env now lom w
    = Ok (Some (Some Ec.ErrorInsufficientTargets, w', ev)) ->
  Ec.IsECCopy (Size lom) (EC (BckProps lom)) = false /\
  targetCnt (mgr w) < RequiredEncodeTargets (EC (BckProps lom)).
Proof.
  unfold EncodeObject.
  destruct (negb (Enabled _)); [discriminate|].
  destruct (Ec.IsECCopy _ _) eqn:Hcopy; cbn [negb andb].
  - destruct (String.eqb (FQN lom) ""); [discriminate|].
    destruct (String.eqb (Fs.Path _) ""); [discriminate|].
    destruct (AvgCapUsed_oos env); [discriminate|].
    destruct (FileSpec_PermToProcess env (FQN lom)) as [[|]|];
      try discriminate;
      (destruct (Load (disk w) lom); [|discriminate];
       destruct (restoreBckPutXact now (Bucket lom) w); cbv zeta;
       destruct (Ec.Encode _ _ _) as [[? ?]|]; discriminate).
  - destruct (Z.ltb_spec (targetCnt (mgr w))
                (RequiredEncodeTargets (EC (BckProps lom)))).
    + intros _. split; [reflexivity|assumption].
    + destruct (String.eqb (FQN lom) ""); [discriminate|].
      destruct (String.eqb (Fs.Path _) ""); [discriminate|].
      destruct (AvgCapUsed_oos env); [discriminate|].
      destruct (FileSpec_PermToProcess env (FQN lom)) as [[|]|];
        try discriminate;
        (destruct (Load (disk w) lom); [|discriminate];
         destruct (restoreBckPutXact now (Bucket lom) w); cbv zeta;
         destruct (Ec.Encode _ _ _) as [[? ?]|]; discriminate).
Qed.

End EncodeProofs.

(** C1 (as stated, fails): for an object below the bucket's size limit
    (an EC copy) the target-count check of [EncodeObject] is skipped: with
    3 targets against a requirement of 5 the call is accepted. *)
Lemma C1_counterexample :
  Cluster.Enabled (Cluster.EC (Cluster.BckProps Sample.lom1)) = true /\
  Ais.targetCnt (Ais.mgr Sample.world3)
    < Cluster.DataSlices Sample.ec22 + Cluster.ParitySlices Sample.ec22 + 1 /\
  exists w' ev,
    Ais.EncodeObject Sample.tenv 5 Sample.lom1 Sample.world3
      = Ok (Some (None, w', ev)).
Proof.
  split; [reflexivity|]. split; [reflexivity|].
  eexists _, _. vm_compute. reflexivity.
Qed.

(** C1 (amended): in a bucket with EC enabled, [EncodeObject] on an object
    that is not an EC copy (its size is not below the bucket's size limit)
    returns InsufficientTargets whenever the cached target count is below
    DataSlices + ParitySlices + 1, leaving the target as it was; for an
    object below the size limit the target-count check is skipped:
    whatever the count, [EncodeObject] does not return InsufficientTargets
    for it; [RestoreObject] returns InsufficientTargets whenever the count
    is below DataSlices + 1; and no return of [EncodeObject] changes the
    metadata stored on disk. *)
Theorem C1_insufficient_targets (env : Ais.TargetEnv) (now : Z)
    (lom : Cluster.LOM) (w : Ais.World) :
  let ec := Cluster.EC (Cluster.BckProps lom) in
  Cluster.Enabled ec = true ->
  (Cluster.ObjSizeLimit ec <= Cluster.Size lom ->
   Ais.targetCnt (Ais.mgr w) < Cluster.DataSlices ec + Cluster.ParitySlices ec + 1 ->
   exists ev,
     Ais.EncodeObject env now lom w
       = Ok (Some (Some Ec.ErrorInsufficientTargets, w, ev))) /\
  (Ais.targetCnt (Ais.mgr w) < Cluster.DataSlices ec + 1 ->
   exists ev,
     Ais.RestoreObject env now lom w
       = Ok (Some Ec.ErrorInsufficientTargets, w, ev)) /\
  (forall e w' ev,
     Ais.EncodeObject env now lom w = Ok (Some (e, w', ev)) ->
     Ais.disk w' = Ais.disk w) /\
  (Cluster.Size lom < Cluster.ObjSizeLimit ec ->
   forall w' ev,
     Ais.EncodeObject env now lom w
       <> Ok (Some (Some Ec.ErrorInsufficientTargets, w', ev))).
Proof.
  intros ec Hen. split; [|split; [|split]].
  - intros Hsz Hcnt. unfold Ais.EncodeObject. fold ec. rewrite Hen. simpl.
    unfold Ec.IsECCopy, Cluster.RequiredEncodeTargets.
    apply Z.ltb_ge in Hsz. rewrite Hsz.
    apply Z.ltb_lt in Hcnt. rewrite Hcnt. simpl. eexists. reflexivity.
  - intros Hcnt. unfold Ais.RestoreObject. fold ec. rewrite Hen. simpl.
    unfold Cluster.RequiredRestoreTargets.
    apply Z.ltb_lt in Hcnt. rewrite Hcnt. eexists. reflexivity.
  - intros e w' ev. apply EncodeObject_disk.
  - intros Hsmall w' ev HE.
    destruct (EncodeObject_insufficient env now lom w w' ev HE) as [Hcopy _].
    unfold Ec.IsECCopy in Hcopy. fold ec in Hcopy.
    apply Z.ltb_ge in Hcopy. lia.
Qed.

Lemma C1_insufficient_targets_witness :
  (exists ev,
     Ais.EncodeObject Sample.tenv 5 Sample.lom_big Sample.world3
       = Ok (Some (Some Ec.ErrorInsufficientTargets, Sample.world3, ev))) /\
  (exists ev,
     Ais.RestoreObject Sample.tenv 5 Sample.lom_big
       (Ais.mkWorld (Ais.mkEcManager (Ais.mkSmap 1 2) 2
                       (Ais.bckMD (Ais.mgr Sample.world3)) ∅)
                    (Ais.disk Sample.world3) Sample.mfs1 1)
       = Ok (Some Ec.ErrorInsufficientTargets,
             Ais.mkWorld (Ais.mkEcManager (Ais.mkSmap 1 2) 2
                            (Ais.bckMD (Ais.mgr Sample.world3)) ∅)
                         (Ais.disk Sample.world3) Sample.mfs1 1, ev)).
Proof.
  split.
  - apply (proj1 (C1_insufficient_targets Sample.tenv 5 Sample.lom_big
                    Sample.world3 eq_refl));
      vm_compute; congruence.
  - apply (proj1 (proj2 (C1_insufficient_targets Sample.tenv 5 Sample.lom_big
                    (Ais.mkWorld (Ais.mkEcManager (Ais.mkSmap 1 2) 2
                                    (Ais.bckMD (Ais.mgr Sample.world3)) ∅)
                                 (Ais.disk Sample.world3) Sample.mfs1 1)
                    eq_refl))).
    vm_compute. reflexivity.
Defined.

(* ===================================================================== *)
(** * Further properties of the mountpath manager *)
(* ===================================================================== *)

Section MountfsProofs.
Import Fs Mountfs.

Variable os : OS.

(** What a successful [Add] has checked and published. *)
Lemma Add_success (p : string) (mfs mfs' : MountedFS) (ev : list Event) :
  Add os p mfs = (None, mfs', ev) ->
  exists f fs,
    syscall_Statfs os p = Some f /\
    fst (Get mfs) !! Clean p = None /\
    Get mfs' = (<[Clean p := newMountpath os p f fs]> (fst (Get mfs)),
                snd (Get mfs)) /\
    fsIDs mfs' = <[f := p]> (fsIDs mfs) /\
    checkFsID mfs' = checkFsID mfs /\
    (checkFsID mfs = true -> fsIDs mfs !! f = None).
Proof.
  unfold Add, mountpathsCopy.
  destruct (Get mfs) as [A D] eqn:HG.
  destruct (check_reserved p _); [discriminate|].
  destruct (os_Stat os p); simpl; [|discriminate].
  destruct (syscall_Statfs os p) as [f|]; [|discriminate].
  destruct (Fqn2fsAtStartup os p) as [fs|]; [|discriminate].
  change (Path (newMountpath os p f fs)) with (Clean p).
  change (Fsid (newMountpath os p f fs)) with f.
  destruct (A !! Clean p) eqn:HA; [discriminate|].
  destruct (fsIDs mfs !! f) as [x|] eqn:Hf; [destruct (checkFsID mfs) eqn:Hc|];
    try discriminate; intros E; injection E as <- _; exists f, fs; simpl;
    repeat split; auto; intros; congruence.
Qed.

(** A failing [Add] publishes nothing. *)
Lemma Add_failure (p : string) (mfs mfs' : MountedFS) (e : Error)
    (ev : list Event) :
  Add os p mfs = (Some e, mfs', ev) -> mfs' = mfs.
Proof.
  unfold Add, mountpathsCopy.
  destruct (Get mfs) as [A D].
  destruct (check_reserved p _); [intros E; injection E as _ <- _; reflexivity|].
  destruct (os_Stat os p); simpl; [|intros E; injection E as _ <- _; reflexivity].
  destruct (syscall_Statfs os p) as [f|];
    [|intros E; injection E as _ <- _; reflexivity].
  destruct (Fqn2fsAtStartup os p) as [fs|];
    [|intros E; injection E as _ <- _; reflexivity].
  destruct (A !! _); [intros E; injection E as _ <- _; reflexivity|].
  destruct (fsIDs mfs !! _); [destruct (checkFsID mfs)|]; try discriminate.
  intros E; injection E as _ <- _; reflexivity.
Qed.

Lemma Init_loop_success (paths : list string) :
  forall (mfs mfs' : MountedFS) (ev : list Event),
  Init_loop os paths mfs = (None, mfs', ev) ->
  size (fst (Get mfs')) = (size (fst (Get mfs)) + length paths)%nat /\
  (forall k, is_Some (fst (Get mfs) !! k) -> is_Some (fst (Get mfs') !! k)) /\
  (forall p, In p paths ->
     fst (Get mfs) !! Clean p = None /\ is_Some (fst (Get mfs') !! Clean p)) /\
  NoDup (Clean <$> paths) /\
  snd (Get mfs') = snd (Get mfs).
Proof.
  induction paths as [|p rest IH]; intros mfs mfs' ev; simpl.
  - intros E. injection E as <- _.
    split; [lia|]. split; [auto|]. split; [intros p []|].
    split; [constructor | reflexivity].
  - destruct (Add os p mfs) as [[[e|] mfs1] ev1] eqn:HAdd; [discriminate|].
    destruct (Init_loop os rest mfs1) as [[r mfs2] ev2] eqn:Hloop.
    intros E. injection E as -> <- _.
    destruct (Add_success p mfs mfs1 ev1 HAdd)
      as (f & fs & _ & HA & HG & _).
    destruct (IH mfs1 mfs2 ev2 Hloop) as (Hsz & Hmono & Hin & Hnd & HD).
    rewrite HG in Hsz, Hmono, Hin, HD. simpl in Hsz, Hmono, Hin, HD.
    rewrite map_size_insert_None in Hsz by exact HA.
    assert (Hp : is_Some (fst (Get mfs2) !! Clean p)).
    { apply Hmono. rewrite lookup_insert_eq. eauto. }
    split; [lia|]. split; [|split; [|split; [|exact HD]]].
    + intros k Hk. apply Hmono.
      destruct (decide (Clean p = k)) as [<-|Hne];
        [rewrite lookup_insert_eq; eauto | rewrite lookup_insert_ne; auto].
    + intros q [<-|Hq]; [split; [exact HA | exact Hp]|].
      destruct (Hin q Hq) as [Hn Hs]. split; [|exact Hs].
      apply lookup_insert_None in Hn. tauto.
    + constructor; [|exact Hnd].
      intros Hel. apply list_elem_of_fmap in Hel as (q & Hq & Hel).
      apply list_elem_of_In in Hel. destruct (Hin q Hel) as [Hn _].
      rewrite <- Hq, lookup_insert_eq in Hn. discriminate.
Qed.

End MountfsProofs.

(** X1: [Init] fails on an empty list of paths; when it succeeds, every
    path of the list is available under its cleaned form, the cleaned paths
    are pairwise distinct, the available map has grown by exactly the
    length of the list and the disabled map is as it was. *)
Theorem X1_Init_registers_all (os : Fs.OS) (fsPaths : list string)
    (mfs mfs' : Fs.MountedFS) (ev : list Fs.Event) :
  Mountfs.Init os [] mfs = (Some Mountfs.ErrNoFspaths, mfs, []) /\
  (Mountfs.Init os fsPaths mfs = (None, mfs', ev) ->
   fsPaths <> [] /\
   size (fst (Fs.Get mfs')) = (size (fst (Fs.Get mfs)) + length fsPaths)%nat /\
   (forall p, In p fsPaths -> is_Some (fst (Fs.Get mfs') !! Fs.Clean p)) /\
   NoDup (Fs.Clean <$> fsPaths) /\
   snd (Fs.Get mfs') = snd (Fs.Get mfs)).
Proof.
  split; [reflexivity|].
  unfold Mountfs.Init. destruct fsPaths as [|p rest]; [discriminate|].
  destruct (Mountfs.Init_loop os (p :: rest) mfs) as [[r mfs1] ev1] eqn:Hl.
  intros E. destruct r; [discriminate|]. injection E as <- _.
  destruct (Init_loop_success os (p :: rest) mfs mfs1 ev1 Hl)
    as (Hsz & _ & Hin & Hnd & HD).
  repeat split; auto. intros q Hq. apply (Hin q Hq).
Qed.

Lemma X1_Init_registers_all_witness :
  exists mfs' ev,
    Mountfs.Init Sample.os ["/mnt/a"; "/mnt/bb/"] Fs.NewMountedFS = (None, mfs', ev) /\
    size (fst (Fs.Get mfs')) = 2%nat /\
    NoDup (Fs.Clean <$> ["/mnt/a"; "/mnt/bb/"]).
Proof.
  destruct (Mountfs.Init Sample.os ["/mnt/a"; "/mnt/bb/"] Fs.NewMountedFS)
    as [[r mfs'] ev] eqn:E.
  assert (Hr : r = None) by (vm_compute in E; congruence). subst r.
  exists mfs', ev. split; [reflexivity|].
  destruct (proj2 (X1_Init_registers_all Sample.os ["/mnt/a"; "/mnt/bb/"]
                     Fs.NewMountedFS mfs' ev) E)
    as (_ & Hsz & _ & Hnd & _).
  split; [exact Hsz | exact Hnd].
Defined.

Section AddRejectProofs.
Import Fs Mountfs.

Variable os : OS.

(** With the check on, a filesystem identifier that is on record stops
    [Add], whatever the path. *)
Lemma Add_known_fsid (p : string) (mfs : MountedFS) (f : syscall_Fsid)
    (orig : string) :
  checkFsID mfs = true ->
  syscall_Statfs os p = Some f -> fsIDs mfs !! f = Some orig ->
  exists e ev, Add os p mfs = (Some e, mfs, ev).
Proof.
  intros Hc Hst Hf. unfold Add, mountpathsCopy.
  destruct (Get mfs) as [A D].
  destruct (check_reserved p _); [eauto|].
  destruct (os_Stat os p); simpl; [|eauto].
  rewrite Hst.
  destruct (Fqn2fsAtStartup os p) as [fs|]; [|eauto].
  destruct (A !! _); [eauto|].
  change (Fsid (newMountpath os p f fs)) with f. rewrite Hf, Hc. eauto.
Qed.

(** A refused [Add] leaves the manager as it is; either nothing was done,
    or the refusal is the same-fsid one, which comes after the path was
    handed to the iostat tracker. *)
Lemma Add_refusal_shape (p : string) (mfs mfs' : MountedFS) (e : Error)
    (ev : list Event) :
  Add os p mfs = (Some e, mfs', ev) ->
  mfs' = mfs /\
  (ev = [] \/
   exists fs f existing,
     ev = [EvIostatAdd (Clean p) fs] /\ e = ErrSameFsid p existing /\
     fst (Get mfs) !! Clean p = None /\ syscall_Statfs os p = Some f /\
     fsIDs mfs !! f = Some existing).
Proof.
  unfold Add, mountpathsCopy.
  destruct (Get mfs) as [A D]. cbn [fst].
  destruct (check_reserved p _);
    [intros E; injection E as _ <- <-; auto|].
  destruct (os_Stat os p); cbn [negb];
    [|intros E; injection E as _ <- <-; auto].
  destruct (syscall_Statfs os p) as [f|];
    [|intros E; injection E as _ <- <-; auto].
  destruct (Fqn2fsAtStartup os p) as [fs|];
    [|intros E; injection E as _ <- <-; auto].
  change (Path (newMountpath os p f fs)) with (Clean p).
  change (Fsid (newMountpath os p f fs)) with f.
  change (FileSystem (newMountpath os p f fs)) with fs.
  destruct (A !! Clean p) eqn:HA;
    [intros E; injection E as _ <- <-; auto|].
  destruct (fsIDs mfs !! f) as [existing|] eqn:Hf; [|discriminate].
  destruct (checkFsID mfs); [|discriminate].
  intros E. injection E as <- <- <-. split; [reflexivity|].
  right. exists fs, f, existing. auto.
Qed.

(** A path that passes the earlier checks and is not available reaches
    the fsid check with the iostat tracker already told. *)
Lemma Add_reaches_fsid (p : string) (mfs : MountedFS) (f : syscall_Fsid)
    (fs existing : string) :
  check_reserved p [LocalBs; CloudBs] = None -> os_Stat os p = true ->
  syscall_Statfs os p = Some f -> Fqn2fsAtStartup os p = Some fs ->
  fst (Get mfs) !! Clean p = None ->
  checkFsID mfs = true -> fsIDs mfs !! f = Some existing ->
  Add os p mfs = (Some (ErrSameFsid p existing), mfs, [EvIostatAdd (Clean p) fs]).
Proof.
  intros Hr Hs Hst Hfs HA Hc Hf. unfold Add, mountpathsCopy.
  destruct (Get mfs) as [A D]. cbn [fst] in HA.
  rewrite Hr, Hs, Hst, Hfs. cbn [negb].
  change (Path (newMountpath os p f fs)) with (Clean p).
  change (Fsid (newMountpath os p f fs)) with f.
  change (FileSystem (newMountpath os p f fs)) with fs.
  rewrite HA, Hf, Hc. reflexivity.
Qed.

End AddRejectProofs.

(** X2: on a manager reached from [NewMountedFS] by lifecycle operations
    (statfs answering by the cleaned path), a path whose filesystem
    identifier is that of a registered mountpath, available or disabled,
    cannot be added: [Add] returns an error, and the published maps, the
    record of identifiers and the cached pointer are as they were.  When
    the path passes the checks before the identifier check and is not
    available, the refusal is the same-fsid one, and by then the path has
    been handed to the iostat tracker, which is not undone; every other
    refusal has done nothing. *)
Theorem X2_Add_rejects_shared_fsid (os : Fs.OS) (ops : list Fs.Op)
    (p k : string) (mp : Fs.MountpathInfo) :
  Fs.statfs_lexical os ->
  let mfs := Fs.run os ops Fs.NewMountedFS in
  Fs.registered mfs k mp ->
  Fs.syscall_Statfs os p = Some (Fs.Fsid mp) ->
  exists e ev,
    Fs.Add os p mfs = (Some e, mfs, ev) /\
    (ev = [] \/
     exists fs existing,
       ev = [Fs.EvIostatAdd (Fs.Clean p) fs] /\ e = Fs.ErrSameFsid p existing) /\
    (forall fs,
       Fs.check_reserved p [Fs.LocalBs; Fs.CloudBs] = None ->
       Fs.os_Stat os p = true -> Fs.Fqn2fsAtStartup os p = Some fs ->
       fst (Fs.Get mfs) !! Fs.Clean p = None ->
       exists existing,
         e = Fs.ErrSameFsid p existing /\
         ev = [Fs.EvIostatAdd (Fs.Clean p) fs]).
Proof.
  intros Hlex mfs Hreg Hst.
  destruct (run_inv os ops Fs.NewMountedFS Hlex (mfs_inv_new os))
    as [Hc _ Hk _].
  fold mfs in Hc, Hk.
  destruct (Hk k mp Hreg) as [[orig Ho] _].
  destruct (Add_known_fsid os p mfs (Fs.Fsid mp) orig Hc Hst Ho)
    as (e & ev & HAdd).
  exists e, ev. split; [exact HAdd|].
  destruct (Add_refusal_shape os p mfs mfs e ev HAdd) as [_ Hshape].
  split.
  - destruct Hshape as [->|(fs & f & ex & -> & -> & _)]; [left; reflexivity|].
    right. exists fs, ex. auto.
  - intros fs Hr Hs Hfs HA.
    rewrite (Add_reaches_fsid os p mfs (Fs.Fsid mp) fs orig Hr Hs Hst Hfs HA Hc Ho)
      in HAdd.
    injection HAdd as <- <-. exists orig. auto.
Qed.

Lemma X2_Add_rejects_shared_fsid_witness :
  exists existing,
    Fs.Add Sample.os "/mnt/zz" Sample.mfs2
    = (Some (Fs.ErrSameFsid "/mnt/zz" existing), Sample.mfs2,
       [Fs.EvIostatAdd "/mnt/zz" "ext4"]).
Proof.
  destruct (X2_Add_rejects_shared_fsid Sample.os
              [Fs.OpAdd "/mnt/a"; Fs.OpAdd "/mnt/bb/"; Fs.OpDisable "/mnt/bb"]
              "/mnt/zz" "/mnt/bb" (Sample.mi "/mnt/bb/") Sample_os_lexical
              ltac:(right; vm_compute; reflexivity)
              ltac:(vm_compute; reflexivity))
    as (e & ev & HAdd & _ & Hsame).
  destruct (Hsame "ext4" ltac:(vm_compute; reflexivity) eq_refl eq_refl
              ltac:(vm_compute; reflexivity)) as (existing & -> & ->).
  exists existing. exact HAdd.
Defined.



(** Without the proviso on statfs the second [Add] of a disabled mountpath
    goes through, under a spelling that statfs resolves elsewhere. *)
Example Add_of_disabled_path_accepted :
  let mfs := Fs.run Sample.os_symlink
               [Fs.OpAdd "/mnt/a"; Fs.OpDisable "/mnt/a"] Fs.NewMountedFS in
  is_Some (snd (Fs.Get mfs) !! Fs.Clean "/mnt/x/../a") /\
  fst (fst (Fs.Add Sample.os_symlink "/mnt/x/../a" mfs)) = None.
Proof. vm_compute. split; [eexists|]; reflexivity. Qed.



(** X5: with the filesystem-identifier check on, removing a mountpath right
    after it was added gives back the published maps and the record of
    filesystem identifiers. *)
Theorem X5_Add_Remove_round_trip (os : Fs.OS) (p : string)
    (mfs mfs1 : Fs.MountedFS) (ev1 : list Fs.Event) :
  Fs.checkFsID mfs = true ->
  Fs.Add os p mfs = (None, mfs1, ev1) ->
  exists mfs2 ev2,
    Fs.Remove p mfs1 = (None, mfs2, ev2) /\
    Fs.Get mfs2 = Fs.Get mfs /\ Fs.fsIDs mfs2 = Fs.fsIDs mfs.
Proof.
  intros Hc HAdd.
  destruct (Add_success os p mfs mfs1 ev1 HAdd)
    as (f & fs & Hst & HA & HG & Hids & _ & Hfresh).
  set (mp := Fs.newMountpath os p f fs) in *.
  assert (H1 : fst (Fs.Get mfs1) !! Fs.Clean p = Some mp)
    by (rewrite HG; simpl; apply lookup_insert_eq).
  destruct (Remove_available p mfs1 mp H1) as (mfs2 & log & HR & HG2 & Hids2 & _).
  eexists mfs2, _. split; [exact HR|]. split.
  - rewrite HG2, HG. cbn [fst snd]. rewrite delete_insert_eq.
    rewrite (delete_id _ _ HA). symmetry. apply surjective_pairing.
  - rewrite Hids2, Hids. change (Fs.Fsid mp) with f.
    rewrite delete_insert_eq. apply delete_id. auto.
Qed.

Lemma X5_Add_Remove_round_trip_witness :
  exists mfs2 ev2,
    Fs.Remove "/mnt/ccc"
      (snd (fst (Fs.Add Sample.os "/mnt/ccc" Sample.mfs2))) = (None, mfs2, ev2) /\
    Fs.Get mfs2 = Fs.Get Sample.mfs2 /\ Fs.fsIDs mfs2 = Fs.fsIDs Sample.mfs2.
Proof.
  apply (X5_Add_Remove_round_trip Sample.os "/mnt/ccc" Sample.mfs2 _
           (snd (Fs.Add Sample.os "/mnt/ccc" Sample.mfs2)));
    vm_compute; reflexivity.
Defined.

Section MoveProofs.
Import Fs Mountfs.





Variable os : OS.



End MoveProofs.



Section XattrProofs.
Import Fs Mountfs.

Lemma xattr_fold_spec (ms : list MountpathInfo) :
  forall acc : Z * option MountpathInfo,
  let res := fold_left xattr_pick ms acc in
  fst acc <= fst res /\
  (forall m, In m ms -> PathDigest m <= fst res) /\
  (res = acc \/
   exists m, In m ms /\ snd res = Some m /\ PathDigest m = fst res /\
             fst acc < fst res).
Proof.
  induction ms as [|a ms IH]; intros acc; cbv zeta; cbn [fold_left].
  - split; [lia|]. split; [intros m []|]. left. reflexivity.
  - specialize (IH (xattr_pick acc a)). cbv zeta in IH.
    destruct IH as (Hle & Hall & Hres).
    assert (Hstep : fst acc <= fst (xattr_pick acc a) /\
              PathDigest a <= fst (xattr_pick acc a) /\
              (xattr_pick acc a = acc \/
               (xattr_pick acc a = (PathDigest a, Some a) /\
                fst acc < PathDigest a))).
    { unfold xattr_pick. destruct (Z.gtb_spec (PathDigest a) (fst acc)); simpl.
      - split; [lia|]. split; [lia|]. right. split; [reflexivity | lia].
      - split; [lia|]. split; [lia|]. left. reflexivity. }
    destruct Hstep as (H1 & H2 & H3).
    split; [lia|]. split.
    + intros m [<-|Hin]; [lia | auto].
    + destruct Hres as [Hres|(m & Hin & Hs & Hd & Hlt)].
      * destruct H3 as [H3|[H3 Hlt]].
        -- left. congruence.
        -- right. exists a. rewrite Hres, H3. simpl. auto.
      * right. exists m. split; [right; exact Hin|].
        split; [exact Hs|]. split; [exact Hd | lia].
Qed.

Lemma xattr_select_spec (ms : list MountpathInfo) :
  match xattr_select ms with
  | Some m => In m ms /\ 0 < PathDigest m /\
              forall m', In m' ms -> PathDigest m' <= PathDigest m
  | None => forall m', In m' ms -> PathDigest m' <= 0
  end.
Proof.
  unfold xattr_select.
  destruct (xattr_fold_spec ms (0, None)) as (Hle & Hall & Hres).
  cbv zeta in *. simpl in *.
  destruct Hres as [Hres|(m & Hin & Hs & Hd & Hlt)].
  - rewrite Hres in *. simpl. exact Hall.
  - rewrite Hs. repeat split; auto; try lia.
    intros m' Hm'. rewrite Hd. auto.
Qed.

Lemma values_lookup (avail : gmap string MountpathInfo) (m : MountpathInfo) :
  In m ((map_to_list avail).*2) <-> exists k, avail !! k = Some m.
Proof.
  rewrite <- list_elem_of_In, list_elem_of_fmap. split.
  - intros ([k m'] & -> & Hel). apply elem_of_map_to_list in Hel. eauto.
  - intros [k Hk]. exists (k, m). split; [reflexivity|].
    apply elem_of_map_to_list. exact Hk.
Qed.

(** What a look-up on a coherent manager answers. *)
Lemma MpathForXattr_spec (mfs : MountedFS) :
  xattr_coherent mfs ->
  match MpathForXattr mfs with
  | Ok (inl mp, mfs') =>
      is_top_digest mfs mp /\ Get mfs' = Get mfs /\ fsIDs mfs' = fsIDs mfs /\
      xattrMpath mfs' = Some mp
  | Ok (inr ErrNoMountpathAvailable, mfs') => fst (Get mfs) = ∅ /\ mfs' = mfs
  | Ok (inr ErrFailedToChoose, mfs') =>
      (forall k m, fst (Get mfs) !! k = Some m -> PathDigest m <= 0) /\ mfs' = mfs
  | Panic _ => available mfs = None
  end.
Proof.
  intros Hco. unfold MpathForXattr, xattr_load.
  destruct (xattrMpath mfs) as [mp|] eqn:Hx; cbn [xattr_finish].
  - repeat split; auto; apply (Hco mp Hx).
  - destruct (available mfs) as [avail|] eqn:Hav; [|reflexivity].
    cbn [xattr_finish].
    assert (HG : fst (Get mfs) = avail) by (unfold Get; rewrite Hav; reflexivity).
    destruct (Nat.eqb_spec (size avail) 0) as [Hz|Hnz].
    + split; [|reflexivity]. rewrite HG. apply map_size_empty_iff. exact Hz.
    + pose proof (xattr_select_spec ((map_to_list avail).*2)) as Hsel.
      destruct (xattr_select _) as [m|].
      * destruct Hsel as (Hin & _ & Hmax).
        split; [|repeat split].
        split.
        -- rewrite HG. apply values_lookup. exact Hin.
        -- intros k m' Hk. apply Hmax. apply values_lookup. exists k.
           rewrite <- HG. exact Hk.
      * split; [|reflexivity]. intros k m Hk. apply Hsel.
        apply values_lookup. exists k. rewrite <- HG. exact Hk.
Qed.

Variable os : OS.

(** A lifecycle operation either changes nothing or publishes, and every
    publication clears the cached pointer. *)
Lemma step_clears (op : Op) (mfs : MountedFS) :
  step os mfs op = mfs \/ xattrMpath (step os mfs op) = None.
Proof.
  destruct op as [p|p|p|p]; simpl.
  - destruct (Add os p mfs) as [[[e|] mfs'] ev] eqn:HAdd; simpl.
    + left. eapply Add_failure; eauto.
    + right. revert HAdd. unfold Add, mountpathsCopy.
      destruct (Get mfs) as [A D].
      destruct (check_reserved p _); [discriminate|].
      destruct (os_Stat os p); simpl; [|discriminate].
      destruct (syscall_Statfs os p) as [f|]; [|discriminate].
      destruct (Fqn2fsAtStartup os p) as [fs|]; [|discriminate].
      destruct (A !! _); [discriminate|].
      destruct (fsIDs mfs !! _); [destruct (checkFsID mfs)|]; try discriminate;
        intros E; injection E as <- _; reflexivity.
  - unfold Remove, mountpathsCopy. destruct (Get mfs) as [A D].
    destruct (A !! Clean p); [right; reflexivity|].
    destruct (D !! Clean p); [right|left]; reflexivity.
  - unfold Enable, mountpathsCopy. destruct (Get mfs) as [A D].
    destruct (A !! Clean p); [left; reflexivity|].
    destruct (D !! Clean p); [right|left]; reflexivity.
  - unfold Disable, mountpathsCopy. destruct (Get mfs) as [A D].
    destruct (A !! Clean p); [right; reflexivity|].
    destruct (D !! Clean p); left; reflexivity.
Qed.

Lemma call_step_coherent (c : Call) (mfs : MountedFS) :
  xattr_coherent mfs -> xattr_coherent (call_step os mfs c).
Proof.
  intros Hco. destruct c as [op|]; simpl.
  - destruct (step_clears op mfs) as [->|Hn]; [exact Hco|].
    intros mp Hmp. congruence.
  - pose proof (MpathForXattr_spec mfs Hco) as Hs.
    destruct (MpathForXattr mfs) as [[[mp|[|]] mfs']|]; auto.
    + destruct Hs as ([Hin Hmax] & HG & _ & Hx).
      intros mp' Hmp'. rewrite Hx in Hmp'. injection Hmp' as <-.
      unfold is_top_digest. rewrite HG. auto.
    + destruct Hs as [_ ->]. exact Hco.
    + destruct Hs as [_ ->]. exact Hco.
Qed.

Lemma call_run_coherent (cs : list Call) (mfs : MountedFS) :
  xattr_coherent mfs -> xattr_coherent (call_run os cs mfs).
Proof.
  revert mfs. unfold call_run.
  induction cs as [|c cs IH]; intros mfs Hco; simpl; auto.
  apply IH. apply call_step_coherent. exact Hco.
Qed.

End XattrProofs.

(** X7: after any history of lifecycle operations and look-ups on a new
    manager in which no call overlaps another, a look-up that nothing
    overlaps never answers from a stale cache: a mountpath it returns is
    available now and no available mountpath has a larger digest; it
    reports "no mountpath available" only when the available map is empty,
    "failed to choose" only when no available digest is positive, and it
    panics only when nothing was ever published.  The look-up takes no
    lock: when lifecycle operations run between its loads and its store,
    it leaves the published maps alone, and what it answers is the
    top-digest mountpath of the map as it was at the load; having loaded
    the map, it caches that answer whatever has been published since. *)
Theorem X7_MpathForXattr_current (os : Fs.OS) (cs : list Mountfs.Call)
    (ops : list Fs.Op) :
  let mfs := Mountfs.call_run os cs Fs.NewMountedFS in
  match Mountfs.MpathForXattr mfs with
  | Ok (inl mp, mfs') =>
      Mountfs.is_top_digest mfs mp /\ Fs.Get mfs' = Fs.Get mfs
  | Ok (inr Mountfs.ErrNoMountpathAvailable, mfs') =>
      fst (Fs.Get mfs) = ∅ /\ mfs' = mfs
  | Ok (inr Mountfs.ErrFailedToChoose, mfs') =>
      (forall k m, fst (Fs.Get mfs) !! k = Some m -> Fs.PathDigest m <= 0) /\
      mfs' = mfs
  | Panic _ => Fs.available mfs = None
  end /\
  forall l, Mountfs.xattr_load mfs = Ok l ->
    let mfs1 := Fs.run os ops mfs in
    let res := Mountfs.xattr_finish l mfs1 in
    Fs.Get (snd res) = Fs.Get mfs1 /\ Fs.fsIDs (snd res) = Fs.fsIDs mfs1 /\
    forall mp, fst res = inl mp ->
      Mountfs.is_top_digest mfs mp /\
      (Fs.xattrMpath mfs = None -> Fs.xattrMpath (snd res) = Some mp).
Proof.
  intros mfs.
  assert (Hco : Mountfs.xattr_coherent mfs).
  { apply call_run_coherent. intros mp Hmp. discriminate. }
  pose proof (MpathForXattr_spec mfs Hco) as Hs.
  split.
  - destruct (Mountfs.MpathForXattr mfs) as [[[mp|[|]] mfs']|]; auto.
    destruct Hs as (H1 & H2 & _). auto.
  - intros l Hl mfs1 res. subst res.
    unfold Mountfs.MpathForXattr in Hs. rewrite Hl in Hs.
    unfold Mountfs.xattr_load in Hl.
    destruct (Fs.xattrMpath mfs) as [mp0|] eqn:Hx.
    + injection Hl as <-. cbn [Mountfs.xattr_finish fst snd] in *.
      split; [reflexivity|]. split; [reflexivity|].
      intros mp E. injection E as <-. destruct Hs as (Htop & _).
      split; [exact Htop|discriminate].
    + destruct (Fs.available mfs) as [avail|]; [|discriminate].
      injection Hl as <-. cbn [Mountfs.xattr_finish] in *.
      destruct (Nat.eqb (size avail) 0).
      * cbn [fst snd]. split; [reflexivity|]. split; [reflexivity|].
        intros mp E. discriminate.
      * destruct (Mountfs.xattr_select _) as [m|].
        -- cbn [fst snd] in *. split; [reflexivity|]. split; [reflexivity|].
           intros mp E. injection E as <-. destruct Hs as (Htop & _).
           split; [exact Htop|]. intros _. reflexivity.
        -- cbn [fst snd]. split; [reflexivity|]. split; [reflexivity|].
           intros mp E. discriminate.
Qed.

(** A [Disable] that falls between the load and the store of a look-up
    leaves the disabled mountpath cached, and the look-ups that follow
    return it. *)
Example MpathForXattr_stale_cache :
  let mfs := Fs.run Sample.os [Fs.OpAdd "/mnt/a"; Fs.OpAdd "/mnt/bb"]
               Fs.NewMountedFS in
  exists l mfs2,
    Mountfs.xattr_load mfs = Ok l /\
    Mountfs.xattr_finish l (Fs.run Sample.os [Fs.OpDisable "/mnt/bb"] mfs)
      = (inl (Sample.mi "/mnt/bb"), mfs2) /\
    fst (Fs.Get mfs2) !! "/mnt/bb" = None /\
    is_Some (snd (Fs.Get mfs2) !! "/mnt/bb") /\
    Mountfs.MpathForXattr mfs2 = Ok (inl (Sample.mi "/mnt/bb"), mfs2).
Proof.
  cbv zeta. eexists _, _. split; [vm_compute; reflexivity|].
  split; [vm_compute; reflexivity|].
  split; [vm_compute; reflexivity|].
  split; [vm_compute; eexists; reflexivity|].
  vm_compute. reflexivity.
Qed.

Example MpathForXattr_sample :
  let mfs := Mountfs.call_run Sample.os
               [Mountfs.Lifecycle (Fs.OpAdd "/mnt/a"); Mountfs.CallMpathForXattr;
                Mountfs.Lifecycle (Fs.OpAdd "/mnt/bb"); Mountfs.CallMpathForXattr;
                Mountfs.Lifecycle (Fs.OpDisable "/mnt/bb")]
               Fs.NewMountedFS in
  (exists mfs', Mountfs.MpathForXattr mfs = Ok (inl (Sample.mi "/mnt/a"), mfs')) /\
  Mountfs.MpathForXattr Fs.NewMountedFS = Panic "nil pointer dereference".
Proof. split; [eexists; vm_compute; reflexivity | reflexivity]. Qed.

(* ===================================================================== *)
(** * Further properties of the demand xaction and the EC configuration *)
(* ===================================================================== *)

Section PendingProofs.
Import Cmn Conf.

Variables (stime xid : Z) (xkind xbucket : string) (loc : bool).

Lemma outstanding_snoc ops op :
  outstanding (ops ++ [op]) = outstanding_step (outstanding ops) op.
Proof. unfold outstanding. rewrite fold_left_app. reflexivity. Qed.

Lemma pending_is_outstanding (ops : list DemandOp) :
  Z.of_nat (length ops) < 2 ^ 63 ->
  pending (demand_run ops (NewXactDemandBase stime xid xkind xbucket loc))
    = outstanding ops /\
  - Z.of_nat (length ops) <= outstanding ops <= Z.of_nat (length ops).
Proof.
  induction ops as [|op ops IH] using rev_ind; intros Hlen.
  - simpl. split; [reflexivity | unfold outstanding; simpl; lia].
  - rewrite length_app in *. simpl in *.
    destruct IH as [Hp Hb]; [lia|].
    rewrite demand_run_snoc, outstanding_snoc.
    destruct op; simpl; rewrite ?Hp;
      try (unfold Timeout; destruct (_ >? 0); simpl; rewrite ?Hp);
      rewrite ?wrap64_id by (unfold in_int64; lia); split; lia.
Qed.

End PendingProofs.

(** X8: on a demand xaction reached by fewer than 2^63 calls the pending
    counter is the number of [IncPending] calls minus the number of
    [DecPending] calls, and while that balance is positive [Timeout]
    returns false, whether or not [Renew] was called. *)
Theorem X8_no_timeout_while_pending (stime xid : Z) (xkind xbucket : string)
    (loc : bool) (ops : list Cmn.DemandOp) :
  Z.of_nat (length ops) < 2 ^ 63 ->
  let r := Cmn.demand_run ops (Cmn.NewXactDemandBase stime xid xkind xbucket loc) in
  Cmn.Pending r = Conf.outstanding ops /\
  (0 < Conf.outstanding ops ->
   Cmn.Timeout r = (false, r)).
Proof.
  intros Hlen r.
  destruct (pending_is_outstanding stime xid xkind xbucket loc ops Hlen) as [Hp _].
  fold r in Hp. split; [exact Hp|].
  intros Hpos. unfold Cmn.Timeout. rewrite Hp.
  apply Z.gtb_lt in Hpos. rewrite Hpos. reflexivity.
Qed.

Lemma X8_no_timeout_while_pending_witness :
  let ops := [Cmn.OpIncPending; Cmn.OpIncPending; Cmn.OpTimeout; Cmn.OpDecPending] in
  let r := Cmn.demand_run ops (Cmn.NewXactDemandBase 1 1 "xactecput" "b" true) in
  Cmn.Timeout r = (false, r).
Proof.
  apply (proj2 (X8_no_timeout_while_pending 1 1 "xactecput" "b" true
                  [Cmn.OpIncPending; Cmn.OpIncPending; Cmn.OpTimeout;
                   Cmn.OpDecPending] ltac:(vm_compute; reflexivity))).
  vm_compute. reflexivity.
Defined.

(** X9: [ValidateAsProps] accepts EC properties exactly when EC is
    disabled (nothing else is then looked at), or the bucket is local, the
    size limit is not negative, the data and the parity slices are between
    1 and 32 each and the cluster has the DataSlices + ParitySlices + 1
    targets that encoding requires.  On a target that sees the validated
    number of targets, [EncodeObject] on an object of a bucket with
    accepted properties never returns InsufficientTargets. *)
Theorem X9_validated_props_encode (c : Cluster.ECConf) (args : Conf.ValidationArgs) :
  (Conf.ECConf_ValidateAsProps c args = None <->
   (Cluster.Enabled c = false \/
    (Conf.ArgBckIsLocal args = true /\
     0 <= Cluster.ObjSizeLimit c /\
     1 <= Cluster.DataSlices c <= 32 /\ 1 <= Cluster.ParitySlices c <= 32 /\
     Cluster.DataSlices c + Cluster.ParitySlices c + 1 <= Conf.TargetCnt args))) /\
  (Conf.ECConf_ValidateAsProps c args = None ->
   forall env now lom w w' ev,
     Cluster.EC (Cluster.BckProps lom) = c ->
     Ais.targetCnt (Ais.mgr w) = Conf.TargetCnt args ->
     Ais.EncodeObject env now lom w
       <> Ok (Some (Some Ec.ErrorInsufficientTargets, w', ev))).
Proof.
  assert (Hiff : Conf.ECConf_ValidateAsProps c args = None <->
   (Cluster.Enabled c = false \/
    (Conf.ArgBckIsLocal args = true /\
     0 <= Cluster.ObjSizeLimit c /\
     1 <= Cluster.DataSlices c <= 32 /\ 1 <= Cluster.ParitySlices c <= 32 /\
     Cluster.DataSlices c + Cluster.ParitySlices c + 1 <= Conf.TargetCnt args))).
  { unfold Conf.ECConf_ValidateAsProps, Conf.ECConf_Validate,
      Conf.MinSliceCount, Conf.MaxSliceCount, Cluster.RequiredEncodeTargets.
    destruct (Cluster.Enabled c) eqn:Hen; simpl; [|split; auto].
    destruct (Conf.ArgBckIsLocal args); simpl;
      [|split; [discriminate|intros [Hd|(Hv & _)]; discriminate]].
    destruct (Z.ltb_spec (Cluster.ObjSizeLimit c) 0);
      [split; [discriminate|intros [Hd|Hv]; [discriminate|lia]]|].
    destruct (Z.ltb_spec (Cluster.DataSlices c) 1);
      [split; [discriminate|intros [Hd|Hv]; [discriminate|lia]]|].
    destruct (Z.gtb_spec (Cluster.DataSlices c) 32);
      [split; [discriminate|intros [Hd|Hv]; [discriminate|lia]]|]. simpl.
    destruct (Z.ltb_spec (Cluster.ParitySlices c) 1);
      [split; [discriminate|intros [Hd|Hv]; [discriminate|lia]]|].
    destruct (Z.gtb_spec (Cluster.ParitySlices c) 32);
      [split; [discriminate|intros [Hd|Hv]; [discriminate|lia]]|]. simpl.
    destruct (Z.ltb_spec (Conf.TargetCnt args)
                (Cluster.DataSlices c + Cluster.ParitySlices c + 1));
      [split; [discriminate|intros [Hd|Hv]; [discriminate|lia]]|].
    split; [intros _; right; repeat split; auto; lia|reflexivity]. }
  split; [exact Hiff|].
  intros Hok env now lom w w' ev Hc Hcnt HE.
  destruct (EncodeObject_insufficient env now lom w w' ev HE) as [_ Hlt].
  assert (Hen : Cluster.Enabled c = true).
  { destruct (Cluster.Enabled c) eqn:Hen; [reflexivity|].
    unfold Ais.EncodeObject in HE. rewrite Hc, Hen in HE. discriminate. }
  apply Hiff in Hok as [Hdis|(_ & _ & _ & _ & Hreq)]; [congruence|].
  rewrite Hc, Hcnt in Hlt. unfold Cluster.RequiredEncodeTargets in Hlt. lia.
Qed.

Lemma X9_validated_props_encode_witness :
  Conf.ECConf_ValidateAsProps Sample.ec22 (Conf.mkValidationArgs true 6) = None /\
  forall w' ev,
    Ais.EncodeObject Sample.tenv 5 Sample.lom_big
      (Ais.mkWorld (Ais.mkEcManager (Ais.mkSmap 1 6) 6
                      (Ais.bckMD (Ais.mgr Sample.world3)) ∅)
                   (Ais.disk Sample.world3) Sample.mfs1 1)
    <> Ok (Some (Some Ec.ErrorInsufficientTargets, w', ev)).
Proof.
  split; [reflexivity|].
  intros w' ev.
  apply (proj2 (X9_validated_props_encode Sample.ec22
                  (Conf.mkValidationArgs true 6)) eq_refl); reflexivity.
Defined.

(* ===================================================================== *)
(** * Further properties of the EC engine *)
(* ===================================================================== *)

(** X10: a writer registered under a free name is what [unregWriter]
    hands back, and the registry is then as before; registering under a
    name that is taken returns false and keeps the first writer;
    unregistering an unknown name reports (nil, false) and changes
    nothing. *)
Theorem X10_registry_round_trip (uname : string) (w w2 : Ec.slice)
    (slices : gmap string Ec.slice) :
  (slices !! uname = None ->
   exists s1,
     EcMore.regWriter uname w slices = (true, s1) /\
     s1 !! uname = Some w /\
     EcMore.regWriter uname w2 s1 = (false, s1) /\
     EcMore.unregWriter uname s1 = ((Some w, true), slices) /\
     EcMore.unregWriter uname slices = ((None, false), slices)) /\
  (forall other, other <> uname ->
     snd (EcMore.regWriter uname w slices) !! other = slices !! other /\
     snd (EcMore.unregWriter uname slices) !! other = slices !! other).
Proof.
  split.
  - intros Hfree. unfold EcMore.regWriter, EcMore.unregWriter. rewrite Hfree.
    eexists. split; [reflexivity|].
    rewrite lookup_insert_eq. repeat split.
    + rewrite delete_insert_eq, delete_id by exact Hfree. reflexivity.
    + rewrite delete_id by exact Hfree. reflexivity.
  - intros other Hne. unfold EcMore.regWriter, EcMore.unregWriter.
    destruct (slices !! uname); simpl;
      rewrite ?lookup_insert_ne, ?lookup_delete_ne by auto; auto.
Qed.

Lemma X10_registry_round_trip_witness :
  let w := Ec.mkSlice (Ec.mkWriter [] false false) 1 0 None "" in
  exists s1,
    EcMore.regWriter "t1/b/o" w ∅ = (true, s1) /\
    s1 !! "t1/b/o" = Some w /\
    EcMore.regWriter "t1/b/o" w s1 = (false, s1) /\
    EcMore.unregWriter "t1/b/o" s1 = ((Some w, true), ∅) /\
    EcMore.unregWriter "t1/b/o" (∅ : gmap string Ec.slice) = ((None, false), ∅).
Proof.
  intros w.
  apply (proj1 (X10_registry_round_trip "t1/b/o" w w ∅)).
  apply lookup_empty.
Defined.

(** X11: whichever way [readRemote] returns (send error, timeout or
    success), no writer is left registered under its name, and the
    registrations under other names are untouched.  When the name was
    already taken, the earlier registration is the one that is removed. *)
Theorem X11_readRemote_unregisters (Tmap : gmap string EcMore.Snode)
    (bundle_send : bool -> EcMore.Header -> list EcMore.Snode -> option string)
    (timed_out : bool) (lom : Cluster.LOM) (daemonID uname : string)
    (request : list Byte.byte) (writer : Ec.Writer)
    (slices : gmap string Ec.slice) :
  snd (fst (EcMore.readRemote Tmap bundle_send timed_out lom daemonID uname
              request writer slices))
  = delete uname slices.
Proof.
  unfold EcMore.readRemote, EcMore.regWriter.
  assert (Hd : forall s : gmap string Ec.slice,
             snd (EcMore.unregWriter uname s) = delete uname s).
  { intros s. unfold EcMore.unregWriter. destruct (s !! uname); reflexivity. }
  destruct (slices !! uname) eqn:Hu;
    destruct (EcMore.sendByDaemonID _ _ _ _ _) as [[e|] ev];
    try destruct timed_out; simpl; rewrite Hd;
    rewrite ?delete_insert_eq; reflexivity.
Qed.

Section SendProofs.
Import EcMore.

Lemma resolve_spec (Tmap : gmap string Snode) (ids : list string) :
  fst (resolve Tmap ids) = omap (fun id => Tmap !! id) ids /\
  forall id, In (SevNotFound id) (snd (resolve Tmap ids)) <->
             In id ids /\ Tmap !! id = None.
Proof.
  induction ids as [|a ids [IH1 IH2]]; simpl.
  - split; [reflexivity|]. intros id. tauto.
  - destruct (resolve Tmap ids) as [nodes ev]. simpl in *.
    destruct (Tmap !! a) as [si|] eqn:Ha; simpl.
    + split; [rewrite IH1; reflexivity|].
      intros id. rewrite IH2. split.
      * intros [Hin Hn]. auto.
      * intros [[<-|Hin] Hn]; [congruence | auto].
    + split; [exact IH1|]. intros id. rewrite IH2. split.
      * intros [Heq|[Hin Hn]]; [injection Heq as <-; auto | auto].
      * intros [[<-|Hin] Hn]; auto.
Qed.

Lemma resolve_no_send (Tmap : gmap string Snode) (ids : list string)
    (r : bool) (h : Header) (ns : list Snode) :
  ~ In (SevSend r h ns) (snd (resolve Tmap ids)).
Proof.
  induction ids as [|a ids IH]; simpl; [tauto|].
  destruct (resolve Tmap ids) as [nodes ev]. simpl in *.
  destruct (Tmap !! a); simpl; [exact IH|].
  intros [H|H]; [discriminate | auto].
Qed.

End SendProofs.

(** X12: [sendByDaemonID] hands the bundle exactly the nodes of the ids
    the cluster map knows, in the order given, and nothing else; when the
    map knows none of the ids it sends nothing and returns the "destination
    list is empty" error; otherwise its error is the bundle's. *)
Theorem X12_sendByDaemonID_known_only (Tmap : gmap string EcMore.Snode)
    (bundle_send : bool -> EcMore.Header -> list EcMore.Snode -> option string)
    (daemonIDs : list string) (hdr : EcMore.Header) (isRequest : bool) :
  let known := omap (fun id => Tmap !! id) daemonIDs in
  let res := EcMore.sendByDaemonID Tmap bundle_send daemonIDs hdr isRequest in
  (known = [] ->
   fst res = Some EcMore.ErrEmptyDestinations /\
   forall r h ns, ~ In (EcMore.SevSend r h ns) (snd res)) /\
  (known <> [] ->
   fst res = EcMore.ErrBundle <$> bundle_send isRequest hdr known /\
   forall r h ns, In (EcMore.SevSend r h ns) (snd res) ->
                  r = isRequest /\ h = hdr /\ ns = known).
Proof.
  intros known res. subst res. unfold EcMore.sendByDaemonID.
  destruct (resolve_spec Tmap daemonIDs) as [Hn Hev].
  pose proof (resolve_no_send Tmap daemonIDs) as Hno.
  destruct (EcMore.resolve Tmap daemonIDs) as [nodes ev]. simpl in Hn, Hev, Hno.
  fold known in Hn. subst nodes.
  split; intros Hk.
  - rewrite Hk. simpl. split; [reflexivity|]. apply Hno.
  - destruct known as [|n0 ns0] eqn:Hkn; [congruence|]. simpl.
    split; [reflexivity|]. intros r h ns Hin.
    apply in_app_iff in Hin as [Hin|[Hin|[]]].
    + destruct (Hno r h ns Hin).
    + injection Hin as <- <- <-. auto.
Qed.

Lemma X12_sendByDaemonID_known_only_witness :
  let Tmap : gmap string EcMore.Snode := {["t1" := EcMore.mkSnode "t1"]} in
  let hdr := EcMore.mkHeader "b" "o" [] (Ec.mkObjectAttrs 0 "" 0 "" "") in
  let res := EcMore.sendByDaemonID Tmap (fun _ _ _ => None) ["t0"; "t1"] hdr true in
  fst res = None /\
  forall r h ns, In (EcMore.SevSend r h ns) (snd res) ->
                 r = true /\ h = hdr /\ ns = [EcMore.mkSnode "t1"].
Proof.
  intros Tmap hdr.
  apply (proj2 (X12_sendByDaemonID_known_only Tmap (fun _ _ _ => None)
                  ["t0"; "t1"] hdr true)).
  vm_compute. discriminate.
Defined.

Section PutLifeProofs.
Import Ec EcMore.

Lemma with_demand_id (r : XactPut) : with_demand (demand r) r = r.
Proof. destruct r; reflexivity. Qed.

Lemma stop_live (now : Z) (r : XactPut) :
  Finished r = false ->
  stop now r =
    (with_putJoggers (jog_stop <$> putJoggers r)
       (with_demand
          (Cmn.mkXactDemandBase (Cmn.EndTime now (Cmn.base (demand r))) true
             (Cmn.renew (demand r)) (Cmn.pending (demand r))) r), []).
Proof. intros Hf. unfold stop. rewrite Hf. reflexivity. Qed.

Lemma stop_finished (now : Z) (r : XactPut) :
  Finished r = true -> stop now r = (r, [EvLog "not running, nothing to do"]).
Proof. intros Hf. unfold stop. rewrite Hf. reflexivity. Qed.

Lemma Stop_spec (now : Z) (r : XactPut) :
  now <> 0 ->
  Cmn.aborted (Cmn.base (demand r)) = false ->
  Cmn.abrt (Cmn.base (demand r)) = Cmn.ChanOpen ->
  exists r1 ev1,
    Stop now r = Ok (r1, ev1) /\ Finished r1 = true /\
    Cmn.ChanAbort (Cmn.base (demand r1)) = Cmn.ChanClosed /\
    putJoggers r1 = putJoggers r /\ running r1 = running r /\
    Cmn.ticker_stopped (demand r1) = Cmn.ticker_stopped (demand r) /\
    rejectReq r1 = rejectReq r.
Proof.
  intros Hnow Ha Hc. unfold Stop.
  rewrite (Abort_first now _ Ha Hc).
  eexists _, _. split; [reflexivity|]. simpl.
  repeat split; auto.
  unfold Finished, Cmn.Finished. simpl.
  apply negb_true_iff, Z.eqb_neq. exact Hnow.
Qed.

End PutLifeProofs.

(** X13: when the loop of a live Put xaction returns on a ClearRequests
    message, [stop] sends every jogger one stop signal, stops the idle
    ticker and records the end time.  After [Stop] (that is, Abort) the
    loop also returns at its abort turn, but [stop] finds the xaction
    already finished: no jogger gets a stop signal and the idle ticker is
    left running. *)
Theorem X13_exit_stop_signals (conf : Ec.Config) (now now' : Z)
    (r : Ec.XactPut) (rest : list Ec.RequestsControlMsg) :
  Ec.running r = true -> now <> 0 -> Ec.Finished r = false ->
  (Ec.controlCh r = Ec.mkControlMsg Ec.ActClearRequests :: rest ->
   exists r' ev,
     Ec.Run_step conf now Ec.CaseControlCh r = Ec.Ran r' ev /\
     Ec.running r' = false /\ Ec.Finished r' = true /\
     Ec.putJoggers r' = Ec.jog_stop <$> Ec.putJoggers r /\
     Cmn.ticker_stopped (Ec.demand r') = true) /\
  (Cmn.aborted (Cmn.base (Ec.demand r)) = false ->
   Cmn.abrt (Cmn.base (Ec.demand r)) = Cmn.ChanOpen ->
   exists r1 ev1 r2 ev2,
     EcMore.Stop now r = Ok (r1, ev1) /\
     Ec.Run_step conf now' Ec.CaseChanAbort r1 = Ec.Ran r2 ev2 /\
     Ec.running r2 = false /\ Ec.Finished r2 = true /\
     Ec.putJoggers r2 = Ec.putJoggers r /\
     Cmn.ticker_stopped (Ec.demand r2) = Cmn.ticker_stopped (Ec.demand r) /\
     In (Ec.EvLog "not running, nothing to do") ev2).
Proof.
  intros Hrun Hnow Hlive. split.
  - intros Hc. unfold Ec.Run_step. rewrite Hrun, Hc. simpl.
    rewrite stop_live by exact Hlive.
    eexists _, _. split; [reflexivity|]. simpl. repeat split.
    unfold Ec.Finished, Cmn.Finished. simpl.
    apply negb_true_iff, Z.eqb_neq. exact Hnow.
  - intros Ha Hch.
    destruct (Stop_spec now r Hnow Ha Hch)
      as (r1 & ev1 & HS & Hf & Hc & Hj & Hr & Ht & _).
    exists r1, ev1. unfold Ec.Run_step. rewrite Hr, Hrun. simpl.
    rewrite Hc, stop_finished by exact Hf.
    eexists _, _. split; [exact HS|]. split; [reflexivity|]. simpl.
    repeat split; auto.
Qed.

Lemma X13_exit_stop_signals_witness :
  exists r1 ev1 r2 ev2,
    EcMore.Stop 5 Sample.put_xact = Ok (r1, ev1) /\
    Ec.Run_step (Ec.mkConfig 10) 6 Ec.CaseChanAbort r1 = Ec.Ran r2 ev2 /\
    Ec.running r2 = false /\ Ec.Finished r2 = true /\
    Ec.putJoggers r2 = Ec.putJoggers Sample.put_xact /\
    Cmn.ticker_stopped (Ec.demand r2) = Cmn.ticker_stopped (Ec.demand Sample.put_xact) /\
    In (Ec.EvLog "not running, nothing to do") ev2.
Proof.
  apply (proj2 (X13_exit_stop_signals (Ec.mkConfig 10) 5 6 Sample.put_xact []
                  ltac:(vm_compute; reflexivity) ltac:(discriminate)
                  ltac:(vm_compute; reflexivity)));
    vm_compute; reflexivity.
Defined.

(** X14: at an idle-check turn the loop of a Put xaction returns only when
    more than three send-file periods have passed since the last request,
    no work is pending and the renewal counter is not armed.  Before the
    period is over, or with pending work, the turn changes nothing; with
    the renewal armed it only consumes the renewal. *)
Theorem X14_idle_check (conf : Ec.Config) (now : Z) (r : Ec.XactPut) :
  Ec.running r = true ->
  - 2 ^ 63 < Cmn.renew (Ec.demand r) < 2 ^ 63 ->
  let idleEnds := Ec.lastAction r + Ec.SendFile conf * 3 in
  (now <= idleEnds \/ 0 < Cmn.pending (Ec.demand r) ->
   Ec.Run_step conf now Ec.CaseCheckTimeout r = Ec.Ran r []) /\
  (idleEnds < now -> Cmn.pending (Ec.demand r) <= 0 ->
   0 < Cmn.renew (Ec.demand r) ->
   exists r',
     Ec.Run_step conf now Ec.CaseCheckTimeout r = Ec.Ran r' [] /\
     Ec.running r' = true /\ Ec.Finished r' = Ec.Finished r /\
     Cmn.renew (Ec.demand r') = Cmn.renew (Ec.demand r) - 1 /\
     Ec.putJoggers r' = Ec.putJoggers r) /\
  (idleEnds < now -> Cmn.pending (Ec.demand r) <= 0 ->
   Cmn.renew (Ec.demand r) <= 0 -> now <> 0 ->
   exists r' ev,
     Ec.Run_step conf now Ec.CaseCheckTimeout r = Ec.Ran r' ev /\
     Ec.running r' = false /\ Ec.Finished r' = true).
Proof.
  intros Hrun Hren idleEnds. unfold Ec.Run_step. rewrite Hrun. simpl.
  fold idleEnds. unfold Cmn.Timeout.
  split; [|split].
  - intros [Hle|Hp].
    + destruct (Z.ltb_spec idleEnds now); [lia | reflexivity].
    + destruct (Z.ltb_spec idleEnds now); [|reflexivity].
      apply Z.gtb_lt in Hp. rewrite Hp. rewrite with_demand_id. reflexivity.
  - intros Hidle Hp Hr.
    destruct (Z.ltb_spec idleEnds now); [|lia].
    destruct (Z.gtb_spec (Cmn.pending (Ec.demand r)) 0); [lia|].
    rewrite wrap64_id by (unfold in_int64; lia).
    destruct (Z.ltb_spec (Cmn.renew (Ec.demand r) - 1) 0); [lia|].
    eexists. split; [reflexivity|]. simpl. repeat split. exact Hrun.
  - intros Hidle Hp Hr Hnow.
    destruct (Z.ltb_spec idleEnds now); [|lia].
    destruct (Z.gtb_spec (Cmn.pending (Ec.demand r)) 0); [lia|].
    rewrite wrap64_id by (unfold in_int64; lia).
    destruct (Z.ltb_spec (Cmn.renew (Ec.demand r) - 1) 0); [|lia].
    match goal with
    | |- context [Ec.stop now ?x] =>
        pose proof (stop_Finished now x Hnow) as Hf;
        pose proof (stop_fields now x) as Hfl;
        destruct (Ec.stop now x) as [r3 ev]
    end.
    eexists _, _. split; [reflexivity|]. simpl in *. split; [reflexivity|].
    exact Hf.
Qed.

Lemma X14_idle_check_witness :
  Ec.Run_step (Ec.mkConfig 10) 20 Ec.CaseCheckTimeout Sample.put_xact
    = Ec.Ran Sample.put_xact [] /\
  exists r' ev,
    Ec.Run_step (Ec.mkConfig 10) 40 Ec.CaseCheckTimeout Sample.put_xact
      = Ec.Ran r' ev /\
    Ec.running r' = false /\ Ec.Finished r' = true.
Proof.
  pose proof (X14_idle_check (Ec.mkConfig 10) 20 Sample.put_xact
                ltac:(vm_compute; reflexivity)
                ltac:(vm_compute; split; reflexivity)) as H20.
  pose proof (X14_idle_check (Ec.mkConfig 10) 40 Sample.put_xact
                ltac:(vm_compute; reflexivity)
                ltac:(vm_compute; split; reflexivity)) as H40.
  split.
  - apply (proj1 H20). left. vm_compute. discriminate.
  - apply (proj2 (proj2 H40)); vm_compute; congruence.
Defined.

(** X15: a new Put xaction has a jogger for exactly the registered
    mountpaths, available and disabled, so dispatching a request whose
    object lives on a registered mountpath never fails the "invalid
    mountpath" assertion. *)
Theorem X15_joggers_cover_mountpaths (d : Cmn.XactDemandBase) (bucket : string)
    (mfs : Fs.MountedFS) (k : string) (req : Ec.Request) :
  let r := Ec.NewPutXact d bucket mfs in
  (is_Some (Ec.putJoggers r !! k) <->
   is_Some (fst (Fs.Get mfs) !! k) \/ is_Some (snd (Fs.Get mfs) !! k)) /\
  (forall mp,
     Fs.registered mfs
       (Fs.Path (Cluster.MpathInfo (Cluster.lomParsedFQN (Ec.ReqLOM req)))) mp ->
     forall msg, Ec.dispatchRequest r req <> Ec.Failed msg).
Proof.
  intros r.
  assert (Hj : forall k', is_Some (Ec.putJoggers r !! k') <->
             is_Some (fst (Fs.Get mfs) !! k') \/ is_Some (snd (Fs.Get mfs) !! k')).
  { intros k'. subst r. unfold Ec.NewPutXact.
    destruct (Fs.Get mfs) as [A D]. simpl.
    rewrite map_lookup_imap.
    destruct ((A ∪ D) !! k') as [x|] eqn:Hu; simpl.
    - split; [intros _|eauto].
      apply lookup_union_Some_raw in Hu as [Hu|[_ Hu]]; rewrite Hu; eauto.
    - apply lookup_union_None in Hu as [H1 H2]. rewrite H1, H2.
      split; [intros [x Hx]; discriminate|].
      intros [[x Hx]|[x Hx]]; discriminate. }
  split; [apply Hj|].
  intros mp Hreg msg. unfold Ec.dispatchRequest.
  destruct (negb (Ec.ecRequestsEnabled r)); [discriminate|].
  assert (Hs : is_Some (Ec.putJoggers r !!
                 Fs.Path (Cluster.MpathInfo (Cluster.lomParsedFQN (Ec.ReqLOM req))))).
  { apply Hj. destruct Hreg as [H|H]; rewrite H; eauto. }
  destruct Hs as [j Hjog].
  destruct (Ec.ReqAction req); try discriminate;
    rewrite Hjog; destruct (Ec.chan_send _ _ _); discriminate.
Qed.

Lemma X15_joggers_cover_mountpaths_witness :
  Fs.registered Sample.mfs2 "/mnt/a" (Sample.mi "/mnt/a") /\
  forall msg,
    Ec.dispatchRequest
      (Ec.NewPutXact (Cmn.NewXactDemandBase 1 1 "xactecput" "b" true) "b" Sample.mfs2)
      (Sample.request None) <> Ec.Failed msg.
Proof.
  split; [left; vm_compute; reflexivity|].
  apply (proj2 (X15_joggers_cover_mountpaths
                  (Cmn.NewXactDemandBase 1 1 "xactecput" "b" true) "b"
                  Sample.mfs2 "/mnt/a" (Sample.request None))
           (Sample.mi "/mnt/a")).
  left. vm_compute. reflexivity.
Defined.

Section PutSysProofs.
Import Ec EcMore.

Variable conf : Config.

Lemma stop_inv (now : Z) (r : XactPut) :
  now <> 0 ->
  Finished (fst (stop now r)) = true /\ rejectReq (fst (stop now r)) = rejectReq r.
Proof.
  intros Hnow. split; [apply stop_Finished; exact Hnow|].
  apply (stop_fields now r).
Qed.

Lemma stop_keeps_Finished (now : Z) (r : XactPut) :
  Finished r = true -> Finished (fst (stop now r)) = true.
Proof. intros Hf. unfold stop. rewrite Hf. exact Hf. Qed.

Lemma stop_events (now : Z) (r : XactPut) :
  Forall (fun e => is_refusal e = false) (snd (stop now r)).
Proof.
  unfold stop. destruct (Finished r); simpl; repeat constructor.
Qed.

(** What a turn of the loop other than the control turn leaves alone. *)
Lemma Run_step_other (now : Z) (c : SelectCase) (r r' : XactPut)
    (ev : list Event) :
  c <> CaseControlCh -> Run_step conf now c r = Ran r' ev ->
  rejectReq r' = rejectReq r /\ controlCh r' = controlCh r /\
  (Finished r = true -> Finished r' = true) /\
  (rejectReq r = false -> Forall (fun e => is_refusal e = false) ev).
Proof.
  intros Hc. unfold Run_step.
  destruct (negb (running r)); [discriminate|].
  destruct c; [| | | | congruence |].
  - intros E. injection E as <- <-. repeat split; auto; try (intros _; repeat constructor).
  - destruct (ecCh r) as [|req rest]; [discriminate|].
    unfold dispatchRequest, ecRequestsEnabled.
    cbn [rejectReq with_lastAction with_ecCh].
    destruct (rejectReq r) eqn:Hrej; cbn [negb].
    + intros E. injection E as <- <-. simpl. repeat split; auto. discriminate.
    + destruct (ReqAction req); cbn [putJoggers with_lastAction with_ecCh].
      * destruct (putJoggers r !! _) as [j|]; [|discriminate].
        destruct (chan_send _ _ _); [|discriminate].
        intros E. injection E as <- <-. simpl. repeat split; auto; try (intros _; repeat constructor).
      * destruct (putJoggers r !! _) as [j|]; [|discriminate].
        destruct (chan_send _ _ _); [|discriminate].
        intros E. injection E as <- <-. simpl. repeat split; auto; try (intros _; repeat constructor).
      * intros E. injection E as <- <-. simpl. repeat split; auto; try (intros _; repeat constructor).
  - destruct (mpathReqCh r) as [|m rest]; [discriminate|].
    destruct (action m).
    + unfold addMpath. cbn [putJoggers with_mpathReqCh].
      destruct (putJoggers r !! _);
        intros E; injection E as <- <-; simpl; repeat split; auto;
        try (intros _; repeat constructor).
    + unfold removeMpath. cbn [putJoggers with_mpathReqCh].
      destruct (putJoggers r !! _); [|discriminate].
      intros E; injection E as <- <-. simpl. repeat split; auto.
  - destruct (_ <? now);
      [|intros E; injection E as <- <-; repeat split; auto].
    destruct (Cmn.Timeout (demand r)) as [expired d] eqn:Ht.
    assert (Hb : Cmn.base d = Cmn.base (demand r)).
    { unfold Cmn.Timeout in Ht. destruct (_ >? 0); injection Ht as _ <-;
        reflexivity. }
    destruct expired.
    + pose proof (stop_fields now (with_demand d r)) as (Hr & _ & Hcc & _).
      pose proof (stop_keeps_Finished now (with_demand d r)) as Hk.
      pose proof (stop_events now (with_demand d r)) as He.
      destruct (stop now (with_demand d r)) as [r2 ev2]. cbn [fst snd] in *.
      intros E. injection E as <- <-. simpl. repeat split; auto.
      intros Hf. apply Hk. unfold Finished in *. simpl. rewrite Hb. exact Hf.
    + intros E. injection E as <- <-. simpl. repeat split; auto.
      unfold Finished. simpl. rewrite Hb. auto.
  - destruct (Cmn.ChanAbort _); [discriminate|].
    pose proof (stop_fields now r) as (Hr & _ & Hcc & _).
    pose proof (stop_keeps_Finished now r) as Hk.
    pose proof (stop_events now r) as He.
    destruct (stop now r) as [r1 ev1]. cbn [fst snd] in *.
    intros E. injection E as <- <-. simpl. repeat split; auto.
    intros _. apply Forall_app. split; [exact He|repeat constructor].
Qed.

(** A send on one of the channels changes neither the flag nor the end
    time. *)
Lemma default_send_fields (r : XactPut) (o : option XactPut) :
  (forall r', o = Some r' ->
     rejectReq r' = rejectReq r /\ Finished r' = Finished r /\
     exists q, controlCh r' = controlCh r ++ q /\
               Forall (fun m => MsgAction m = ActEnableRequests) q) ->
  rejectReq (default r o) = rejectReq r /\
  Finished (default r o) = Finished r /\
  exists q, controlCh (default r o) = controlCh r ++ q /\
            Forall (fun m => MsgAction m = ActEnableRequests) q.
Proof.
  destruct o as [r'|]; simpl; [intros H; apply H; reflexivity|].
  intros _. repeat split. exists []. rewrite app_nil_r. auto.
Qed.

Lemma abort_step_fields (i : nat) (now : Z) (b : Cmn.XactBase)
    (l : list Cmn.Pc) (c : Cmn.Conc) :
  now <> 0 ->
  Cmn.conc_step i now (Cmn.mkConc b l 0 false) = Some c ->
  (Cmn.Finished b = true -> Cmn.Finished (Cmn.shared c) = true).
Proof.
  intros Hnow. unfold Cmn.conc_step. cbn [Cmn.panicked Cmn.pcs Cmn.shared].
  destruct (l !! i) as [[| | |]|]; try discriminate.
  - unfold Cmn.CAS_false_true. destruct (Cmn.aborted b);
      intros E; injection E as <-; auto.
  - intros E. injection E as <-. intros _. cbn.
    unfold Cmn.Finished. simpl. apply negb_true_iff, Z.eqb_neq. exact Hnow.
  - destruct (Cmn.close_chan _); intros E; injection E as <-; auto.
Qed.

Lemma sys_step_inv (now : Z) (a : Action) (s s' : PutSys) (ev : list Event) :
  now <> 0 -> sys_inv s -> sys_step conf now a s = Some (s', ev) -> sys_inv s'.
Proof.
  intros Hnow Hinv. unfold sys_inv in *.
  destruct a; cbn [sys_step].
  - intros E. injection E as <- _. cbn [xact pc with_xact].
    unfold ClearRequests, chan_send. destruct (_ <? _)%nat; exact Hinv.
  - intros E. injection E as <- _. cbn [xact pc with_xact].
    unfold EnableRequests, chan_send. destruct (_ <? _)%nat; exact Hinv.
  - destruct (negb (ecRequestsEnabled (xact s)));
      intros E; injection E as <- _; exact Hinv.
  - destruct (sending s !! i) as [req|];
      [|intros E; injection E as <- _; exact Hinv].
    unfold chan_send. destruct (_ <? _)%nat; cbn [mbind option_bind];
      intros E; injection E as <- _; exact Hinv.
  - intros E. injection E as <- _. exact Hinv.
  - destruct (Cmn.conc_step i now _) as [c|] eqn:Hstep;
      [|intros E; injection E as <- _; exact Hinv].
    destruct (Cmn.panicked c); [discriminate|].
    intros E. injection E as <- _. cbn [xact pc].
    intros Hrej. destruct (Hinv Hrej) as [Hf|Hpc]; [left|right; exact Hpc].
    unfold Finished, with_base. cbn.
    eapply abort_step_fields; eauto.
  - intros E. injection E as <- _. cbn [xact pc with_xact].
    unfold ReqAddMountpath, chan_send. destruct (_ <? _)%nat; exact Hinv.
  - intros E. injection E as <- _. cbn [xact pc with_xact].
    unfold ReqRemoveMountpath, chan_send. destruct (_ <? _)%nat; exact Hinv.
  - destruct (pc s) eqn:Hpc; try (intros E; injection E as <- _;
                                   rewrite Hpc; exact Hinv).
    assert (Hput : rejectReq (xact s) = true -> Finished (xact s) = true).
    { intros Hr. destruct (Hinv Hr) as [Hf|Hd]; [exact Hf|].
      cbn in Hd. discriminate. }
    destruct c;
      try (match goal with
           | |- context [Run_step conf now ?cc (xact s)] =>
               destruct (Run_step conf now cc (xact s)) as [|x' ev'|] eqn:Hs;
               [intros E; injection E as <- _; rewrite Hpc; exact Hinv
               |intros E; injection E as <- _; cbn [xact pc with_xact];
                destruct (Run_step_other now cc (xact s) x' ev'
                            ltac:(discriminate) Hs) as (Hr & _ & Hk & _);
                rewrite Hr; intros Hrej; left; apply Hk, Hput, Hrej
               |discriminate]
           end).
    destruct (negb (running (xact s)));
      [intros E; injection E as <- _; rewrite Hpc; exact Hinv|].
    destruct (controlCh (xact s)) as [|msg rest];
      [intros E; injection E as <- _; rewrite Hpc; exact Hinv|].
    intros E. injection E as <- _. cbn [xact pc].
    intros Hrej. left. apply Hput. exact Hrej.
  - destruct (pc s) as [|[|]| | |] eqn:Hpc;
      try (intros E; injection E as <- _; rewrite Hpc; exact Hinv).
    + intros E. injection E as <- _. cbn [xact pc]. right. reflexivity.
    + intros E. injection E as <- _. cbn [xact pc]. discriminate.
  - destruct (pc s) eqn:Hpc;
      try (intros E; injection E as <- _; rewrite Hpc; exact Hinv).
    destruct (ecCh (xact s)) as [|req rest];
      intros E; injection E as <- _; cbn [xact pc]; intros _; right;
      reflexivity.
  - destruct (pc s) eqn:Hpc;
      try (intros E; injection E as <- _; rewrite Hpc; exact Hinv).
    intros E. injection E as <- _. cbn [xact pc]. intros _. right. reflexivity.
  - destruct (pc s) eqn:Hpc;
      try (intros E; injection E as <- _; rewrite Hpc; exact Hinv).
    destruct (stop_inv now (xact s) Hnow) as [Hf _].
    destruct (stop now (xact s)) as [x' ev']. cbn [fst] in Hf.
    intros E. injection E as <- _. cbn [xact pc]. intros _. left. exact Hf.
Qed.

Lemma sys_run_inv (acts : list (Z * Action)) (s s' : PutSys) (ev : list Event) :
  clocks_nonzero acts -> sys_inv s -> sys_run conf acts s = Some (s', ev) ->
  sys_inv s'.
Proof.
  revert s ev. induction acts as [|[now a] acts IH]; intros s ev Hclk Hinv;
    cbn [sys_run].
  - intros E. injection E as <- _. exact Hinv.
  - inversion Hclk as [|? ? Hnow Hrest]; subst. cbn [fst] in Hnow.
    destruct (sys_step conf now a s) as [[s1 ev1]|] eqn:Hs; [|discriminate].
    destruct (sys_run conf acts s1) as [[s2 ev2]|] eqn:Hr; [|discriminate].
    intros E. injection E as <- _.
    apply (IH s1 ev2 Hrest); [|exact Hr].
    apply (sys_step_inv now a s s1 ev1 Hnow Hinv Hs).
Qed.

Lemma sys_step_quiet (now : Z) (a : Action) (s s' : PutSys) (ev : list Event) :
  a <> DoClearRequests -> quiet s -> sys_step conf now a s = Some (s', ev) ->
  quiet s' /\ Forall (fun e => is_refusal e = false) ev.
Proof.
  intros Ha Hq0. pose proof Hq0 as [Hflag Hpc Hch].
  assert (Hsame : Some (s, @nil Event) = Some (s', ev) ->
                  quiet s' /\ Forall (fun e => is_refusal e = false) ev).
  { intros E. injection E as <- <-. split; [exact Hq0|constructor]. }
  destruct a; cbn [sys_step]; [congruence| | | | | | | | | | | |].
  - intros E. injection E as <- <-. split; [|constructor].
    unfold EnableRequests, chan_send.
    destruct (_ <? _)%nat; cbn [mbind option_bind default with_xact];
      [|split; [exact Hflag|exact Hpc|exact Hch]].
    split; cbn [xact pc with_controlCh rejectReq controlCh];
      [exact Hflag|exact Hpc|].
    apply Forall_app. split; [exact Hch|repeat constructor].
  - unfold ecRequestsEnabled. rewrite Hflag. cbn [negb].
    intros E. injection E as <- <-. split; [|constructor].
    split; [exact Hflag|exact Hpc|exact Hch].
  - destruct (sending s !! i) as [req|]; [|exact Hsame].
    unfold chan_send. destruct (_ <? _)%nat; cbn [mbind option_bind];
      [|exact Hsame].
    intros E; injection E as <- <-. split; [|constructor].
    split; [exact Hflag|exact Hpc|exact Hch].
  - intros E. injection E as <- <-. split; [|constructor].
    split; [exact Hflag|exact Hpc|exact Hch].
  - destruct (Cmn.conc_step i now _) as [c|]; [|exact Hsame].
    destruct (Cmn.panicked c); [discriminate|].
    intros E. injection E as <- <-. split; [|constructor].
    split; [exact Hflag|exact Hpc|exact Hch].
  - intros E. injection E as <- <-. split; [|constructor].
    unfold ReqAddMountpath, chan_send.
    destruct (_ <? _)%nat; cbn [mbind option_bind default with_xact];
      [|split; [exact Hflag|exact Hpc|exact Hch]].
    split; [exact Hflag|exact Hpc|exact Hch].
  - intros E. injection E as <- <-. split; [|constructor].
    unfold ReqRemoveMountpath, chan_send.
    destruct (_ <? _)%nat; cbn [mbind option_bind default with_xact];
      [|split; [exact Hflag|exact Hpc|exact Hch]].
    split; [exact Hflag|exact Hpc|exact Hch].
  - destruct Hpc as [Hpc|Hpc]; rewrite Hpc; [|exact Hsame].
    destruct c;
      try (match goal with
           | |- context [Run_step conf now ?cc (xact s)] =>
               destruct (Run_step conf now cc (xact s)) as [|x' ev'|] eqn:Hs;
               [exact Hsame
               |intros E; injection E as <- <-;
                destruct (Run_step_other now cc (xact s) x' ev'
                            ltac:(discriminate) Hs) as (Hr & Hcc & _ & Hev);
                split; [split; cbn [xact pc with_xact];
                        [rewrite Hr; exact Hflag|rewrite Hpc; left; reflexivity
                        |rewrite Hcc; exact Hch]
                       |apply Hev; exact Hflag]
               |discriminate]
           end).
    destruct (negb (running (xact s))); [exact Hsame|].
    destruct (controlCh (xact s)) as [|msg rest] eqn:Hq; [exact Hsame|].
    inversion Hch as [|? ? Hmsg Hrest]; subst.
    intros E. injection E as <- <-. split; [|constructor].
    split; cbn [xact pc with_controlCh rejectReq controlCh];
      [exact Hflag|rewrite Hmsg; right; reflexivity|exact Hrest].
  - destruct Hpc as [Hpc|Hpc]; rewrite Hpc; [exact Hsame|].
    intros E. injection E as <- <-. split; [|constructor].
    split; cbn [xact pc setEcRequestsEnabled with_rejectReq rejectReq
                controlCh]; [reflexivity|left; reflexivity|exact Hch].
  - destruct Hpc as [Hpc|Hpc]; rewrite Hpc; exact Hsame.
  - destruct Hpc as [Hpc|Hpc]; rewrite Hpc; exact Hsame.
  - destruct Hpc as [Hpc|Hpc]; rewrite Hpc; exact Hsame.
Qed.

Lemma sys_run_quiet (acts : list (Z * Action)) (s s' : PutSys) (ev : list Event) :
  no_clear acts -> quiet s -> sys_run conf acts s = Some (s', ev) ->
  quiet s' /\ Forall (fun e => is_refusal e = false) ev.
Proof.
  revert s ev. induction acts as [|[now a] acts IH]; intros s ev Hnc Hq;
    cbn [sys_run].
  - intros E. injection E as <- <-. split; [exact Hq|constructor].
  - inversion Hnc as [|? ? Ha Hrest]; subst. cbn [snd] in Ha.
    destruct (sys_step conf now a s) as [[s1 ev1]|] eqn:Hs; [|discriminate].
    destruct (sys_run conf acts s1) as [[s2 ev2]|] eqn:Hr; [|discriminate].
    intros E. injection E as <- <-.
    destruct (sys_step_quiet now a s s1 ev1 Ha Hq Hs) as [Hq1 He1].
    destruct (IH s1 ev2 Hrest Hq1 Hr) as [Hq2 He2].
    split; [exact Hq2|]. apply Forall_app. auto.
Qed.

End PutSysProofs.

(** X16: in any interleaving of the loop of a started Put xaction with its
    callers, at the grain of their atomic steps and with non-zero clock
    readings, the reject flag is set only while the loop is inside its
    clear branch (between the store of the flag and the end of [stop]) or
    on an xaction that has ended.  As long as
    [ClearRequests] has not been called, the flag is clear and nothing is
    refused: no refusal has been sent, every [Encode] or [Cleanup] passes
    the check, and the send that follows queues its request at the tail of
    the request channel whenever the channel has room. *)
Theorem X16_reject_flag_discipline (conf : Ec.Config) (now0 : Z)
    (d : Cmn.XactDemandBase) (bucket : string) (mfs : Fs.MountedFS)
    (acts : list (Z * EcMore.Action)) (s : EcMore.PutSys)
    (ev : list Ec.Event) :
  EcMore.clocks_nonzero acts ->
  EcMore.sys_run conf acts (EcMore.sys_init now0 d bucket mfs) = Some (s, ev) ->
  (Ec.rejectReq (EcMore.xact s) = true ->
   Ec.Finished (EcMore.xact s) = true \/
   EcMore.in_clear_branch (EcMore.pc s) = true) /\
  (EcMore.no_clear acts ->
   Ec.rejectReq (EcMore.xact s) = false /\
   Forall (fun e => EcMore.is_refusal e = false) ev /\
   (forall now req,
      exists req',
        EcMore.sys_step conf now (EcMore.DoSubmit req) s
        = Some (EcMore.mkPutSys (EcMore.xact s) (EcMore.pc s)
                  (EcMore.sending s ++ [req']) (EcMore.stoppers s),
                []) /\
        Ec.ReqAction req' = Ec.ReqAction req /\
        Ec.ReqLOM req' = Ec.ReqLOM req /\
        Ec.IsCopy req' = Ec.IsCopy req /\
        Ec.ErrCh req' = Ec.ErrCh req) /\
   (forall now i req,
      EcMore.sending s !! i = Some req ->
      (length (Ec.ecCh (EcMore.xact s)) < Ec.requestBufSizeGlobal)%nat ->
      EcMore.sys_step conf now (EcMore.DoSend i) s
      = Some (EcMore.mkPutSys
                (Ec.with_ecCh (Ec.ecCh (EcMore.xact s) ++ [req]) (EcMore.xact s))
                (EcMore.pc s) (delete i (EcMore.sending s)) (EcMore.stoppers s),
              []))).
Proof.
  intros Hclk Hrun.
  assert (Hinit : Ec.rejectReq (EcMore.xact (EcMore.sys_init now0 d bucket mfs))
                  = false /\
                  Ec.controlCh (EcMore.xact (EcMore.sys_init now0 d bucket mfs))
                  = []).
  { unfold EcMore.sys_init, Ec.NewPutXact. destruct (Fs.Get mfs). auto. }
  destruct Hinit as [Hrej0 Hch0].
  split.
  - apply (sys_run_inv conf acts (EcMore.sys_init now0 d bucket mfs) s ev Hclk);
      [|exact Hrun].
    intros Hr. congruence.
  - intros Hnc.
    assert (Hq : EcMore.quiet (EcMore.sys_init now0 d bucket mfs)).
    { split; [exact Hrej0|left; reflexivity|rewrite Hch0; constructor]. }
    destruct (sys_run_quiet conf acts (EcMore.sys_init now0 d bucket mfs)
                s ev Hnc Hq Hrun) as [[Hflag _ _] Hev].
    split; [exact Hflag|]. split; [exact Hev|]. split.
    + intros now req. exists (Ec.stamp now req). split; [|repeat split].
      cbn [EcMore.sys_step]. unfold Ec.ecRequestsEnabled.
      rewrite Hflag. reflexivity.
    + intros now i req Hi Hlen. cbn [EcMore.sys_step]. rewrite Hi.
      unfold Ec.chan_send. apply Nat.ltb_lt in Hlen. rewrite Hlen.
      reflexivity.
Qed.

Lemma X16_reject_flag_discipline_witness :
  let acts := [(2, EcMore.DoSubmit (Sample.request (Some 7%nat)));
               (3, EcMore.DoEnableRequests);
               (4, EcMore.DoSend 0);
               (5, EcMore.LoopSelect Ec.CaseControlCh);
               (6, EcMore.DoStop);
               (7, EcMore.LoopStoreFlag);
               (8, EcMore.LoopSelect Ec.CaseEcCh);
               (9, EcMore.DoAbortStep 0)] in
  exists s ev,
    EcMore.sys_run (Ec.mkConfig 10) acts
      (EcMore.sys_init 1 (Cmn.NewXactDemandBase 1 1 "xactecput" "b" true) "b"
         Sample.mfs1) = Some (s, ev) /\
    Ec.rejectReq (EcMore.xact s) = false /\
    Forall (fun e => EcMore.is_refusal e = false) ev.
Proof.
  intros acts. eexists _, _. split; [vm_compute; reflexivity|].
  destruct (proj2 (X16_reject_flag_discipline (Ec.mkConfig 10) 1
                     (Cmn.NewXactDemandBase 1 1 "xactecput" "b" true) "b"
                     Sample.mfs1 acts _ _
                     ltac:(repeat constructor; discriminate)
                     ltac:(vm_compute; reflexivity))
              ltac:(repeat constructor; discriminate))
    as (Hflag & Hev & _).
  split; [exact Hflag|exact Hev].
Defined.

(** A request that passed the check before the loop ran its clear branch
    is sent after the loop has returned: it stays in the request channel of
    the ended xaction, and nothing is sent on its error channel. *)
Example request_lost_in_clear_race :
  let acts := [(2, EcMore.DoSubmit (Sample.request (Some 7%nat)));
               (3, EcMore.DoClearRequests);
               (4, EcMore.LoopSelect Ec.CaseControlCh);
               (5, EcMore.LoopStoreFlag);
               (6, EcMore.LoopDrain);
               (7, EcMore.LoopStop);
               (8, EcMore.DoSend 0)] in
  exists s,
    EcMore.sys_run (Ec.mkConfig 10) acts
      (EcMore.sys_init 1 (Cmn.NewXactDemandBase 1 1 "xactecput" "b" true) "b"
         Sample.mfs1) = Some (s, []) /\
    Ec.Finished (EcMore.xact s) = true /\ Ec.running (EcMore.xact s) = false /\
    (exists req, Ec.ecCh (EcMore.xact s) = [req] /\ Ec.ErrCh req = Some 7%nat) /\
    EcMore.sending s = [].
Proof.
  cbv zeta. eexists. split; [vm_compute; reflexivity|].
  split; [reflexivity|]. split; [reflexivity|].
  split; [eexists; split; reflexivity|reflexivity].
Qed.

(** Inside the clear branch, between the store of the flag and the end of
    the drain, a submission is refused by an xaction that has not ended. *)
Example refused_by_live_xaction :
  let acts := [(3, EcMore.DoClearRequests);
               (4, EcMore.LoopSelect Ec.CaseControlCh);
               (5, EcMore.LoopStoreFlag);
               (6, EcMore.DoSubmit (Sample.request (Some 7%nat)))] in
  exists s,
    EcMore.sys_run (Ec.mkConfig 10) acts
      (EcMore.sys_init 1 (Cmn.NewXactDemandBase 1 1 "xactecput" "b" true) "b"
         Sample.mfs1)
    = Some (s, [Ec.EvErrSend 7 (Ec.ErrDisabledOnBucket "b"); Ec.EvErrClose 7]) /\
    Ec.Finished (EcMore.xact s) = false /\ EcMore.pc s = EcMore.Draining.
Proof.
  cbv zeta. eexists. split; [vm_compute; reflexivity|].
  split; reflexivity.
Qed.

(** X17: whatever the copy into the registered writer does (a write error
    or a short write that leaves part of the body unread, a read error, or
    a full copy), the slice receiver releases the wait-group exactly once,
    after the copy and after the close of a file writer, and frees the slab
    after that, as the last action.  When the remote target had the object,
    the call returns the error of the copy, the slice records the count the
    copy returned and the checksum of the object attributes, the writer and
    the reader are as the copy left them (a file writer closed); a slice
    whose version is empty never gets one, and otherwise the version is
    replaced by a non-empty version of the attributes. *)
Theorem X17_writerReceive_releases_once
    (NewCksum : string -> string -> option (string * string))
    (CopyToWriter : Ec.Writer -> Ec.Reader
                    -> Z * option string * Ec.Writer * Ec.Reader)
    (w : Ec.slice) (exists_ : bool) (objAttrs : Ec.ObjectAttrs)
    (reader : Ec.Reader) :
  let '(w', reader', err, tr) :=
    Ec.writerReceive NewCksum CopyToWriter w exists_ objAttrs reader in
  Ec.wg w' = Ec.wg w - 1 /\
  EcMore.count_done tr = 1%nat /\
  last tr = Some Ec.IoFreeSlab /\
  (exists_ = true ->
     let '(count, cerr, wr1, rd1) := CopyToWriter (Ec.writer w) reader in
     err = match cerr with Some e => Some (inr e) | None => None end /\
     Ec.n w' = count /\ reader' = rd1 /\
     Ec.written (Ec.writer w') = Ec.written wr1 /\
     Ec.cksum w' = NewCksum (Ec.CksumType objAttrs) (Ec.CksumValue objAttrs) /\
     Ec.before Ec.is_copy Ec.is_wg_done tr /\
     (Ec.isFile (Ec.writer w) = true ->
        Ec.closed (Ec.writer w') = true /\
        Ec.before Ec.is_copy Ec.is_file_close tr /\
        Ec.before Ec.is_file_close Ec.is_wg_done tr) /\
     (Ec.isFile (Ec.writer w) = false -> Ec.writer w' = wr1)) /\
  (Ec.version w = "" -> Ec.version w' = "") /\
  (Ec.version w <> "" -> exists_ = true -> Ec.Version objAttrs <> "" ->
     Ec.version w' = Ec.Version objAttrs) /\
  (Ec.Version objAttrs = "" -> Ec.version w' = Ec.version w).
Proof.
  unfold Ec.writerReceive, Ec.CopyBuffer.
  destruct exists_; cbn [negb].
  - destruct (CopyToWriter (Ec.writer w) reader) as [[[count cerr] wr1] rd1].
    assert (Hver1 : Ec.version w = "" ->
      (if negb (String.eqb (Ec.version w) "")
          && negb (String.eqb (Ec.Version objAttrs) "")
       then Ec.Version objAttrs else Ec.version w) = "").
    { intros Hv. rewrite Hv. reflexivity. }
    assert (Hver2 : Ec.version w <> "" -> Ec.Version objAttrs <> "" ->
      (if negb (String.eqb (Ec.version w) "")
          && negb (String.eqb (Ec.Version objAttrs) "")
       then Ec.Version objAttrs else Ec.version w) = Ec.Version objAttrs).
    { intros H1 H2. apply String.eqb_neq in H1. apply String.eqb_neq in H2.
      rewrite H1, H2. reflexivity. }
    assert (Hver3 : Ec.Version objAttrs = "" ->
      (if negb (String.eqb (Ec.version w) "")
          && negb (String.eqb (Ec.Version objAttrs) "")
       then Ec.Version objAttrs else Ec.version w) = Ec.version w).
    { intros H2. rewrite H2. rewrite andb_false_r. reflexivity. }
    destruct (Ec.isFile (Ec.writer w)) eqn:Hf; cbn [app].
    + split; [reflexivity|]. split; [reflexivity|]. split; [reflexivity|].
      split; [|split; [exact Hver1|split; [intros H1 _; apply Hver2; exact H1
                                          |exact Hver3]]].
      intros _. split; [reflexivity|]. split; [reflexivity|].
      split; [reflexivity|]. split; [reflexivity|]. split; [reflexivity|].
      split; [exists 1%nat, 3%nat; repeat split; lia|]. split.
      * intros _. split; [reflexivity|].
        split; [exists 1%nat, 2%nat|exists 2%nat, 3%nat]; repeat split; lia.
      * discriminate.
    + split; [reflexivity|]. split; [reflexivity|]. split; [reflexivity|].
      split; [|split; [exact Hver1|split; [intros H1 _; apply Hver2; exact H1
                                          |exact Hver3]]].
      intros _. split; [reflexivity|]. split; [reflexivity|].
      split; [reflexivity|]. split; [reflexivity|]. split; [reflexivity|].
      split; [exists 1%nat, 2%nat; repeat split; lia|]. split.
      * discriminate.
      * reflexivity.
  - split; [reflexivity|]. split; [reflexivity|]. split; [reflexivity|].
    split; [discriminate|]. split; [auto|]. split; [discriminate|auto].
Qed.

(** A write error after two bytes, five of the six bytes read: the
    wait-group is released all the same and the error is returned. *)
Example writerReceive_write_error :
  let w := Ec.mkSlice (Ec.mkWriter [] true false) 1 0 None "" in
  let attrs := Ec.mkObjectAttrs 6 "v2" 0 "xxhash" "abc" in
  let reader := Ec.mkReader [Byte.x01; Byte.x02; Byte.x03; Byte.x04;
                             Byte.x05; Byte.x06] None in
  Ec.writerReceive (fun t v => Some (t, v)) (Ec.copy_fails 2 3) w true attrs reader
  = (Ec.mkSlice (Ec.mkWriter [Byte.x01; Byte.x02] true true) 0 2
       (Some ("xxhash", "abc")) "",
     Ec.mkReader [Byte.x06] None, Some (inr "write failed"),
     [Ec.IoAllocSlab; Ec.IoCopy 2; Ec.IoFileClose; Ec.IoWgDone; Ec.IoFreeSlab]).
Proof. reflexivity. Qed.

Section WorldProofs.
Import Cluster Ais AisMore.

Lemma new_put_live (now : Z) (bck : string) (w : World) :
  let x := fst (renewPutEC now bck w) in
  Ec.rejectReq x = false /\ Ec.Finished x = false /\ Ec.ecCh x = [].
Proof.
  unfold renewPutEC, Ec.NewPutXact. destruct (Fs.Get (mountpaths w)).
  simpl. repeat split.
Qed.

Lemma new_put_start (now : Z) (bck : string) (w : World) :
  StartTime_of (fst (renewPutEC now bck w)) = now /\
  nextXactID (snd (renewPutEC now bck w)) = nextXactID w + 1 /\
  disk (snd (renewPutEC now bck w)) = disk w.
Proof.
  unfold renewPutEC, Ec.NewPutXact, StartTime_of.
  destruct (Fs.Get (mountpaths w)). simpl. repeat split.
Qed.

Lemma put_of_store_put (b : string) (x : Ec.XactPut) (w : World) :
  put_of (store_put b x w) b = Some x /\
  nextXactID (store_put b x w) = nextXactID w /\
  disk (store_put b x w) = disk w.
Proof.
  unfold put_of, store_put. simpl. rewrite lookup_insert_eq. auto.
Qed.

(** What [restoreBckPutXact] hands out: the recorded xaction when it has
    not ended, a new one otherwise. *)
Lemma restoreBckPutXact_cases (now : Z) (b : string) (w : World) :
  let x := fst (restoreBckPutXact now b w) in
  let w1 := snd (restoreBckPutXact now b w) in
  put_of w1 b = Some x /\ Ec.Finished x = false /\ disk w1 = disk w /\
  ((put_of w b = Some x /\ nextXactID w1 = nextXactID w) \/
   ((forall x0, put_of w b = Some x0 -> Ec.Finished x0 = true) /\
    Ec.rejectReq x = false /\ Ec.ecCh x = [] /\ StartTime_of x = now /\
    nextXactID w1 = nextXactID w + 1)).
Proof.
  unfold restoreBckPutXact, getBckXacts, put_of.
  destruct (xacts (mgr w) !! b) as [bx|] eqn:Hb; cbn [mbind option_bind].
  - destruct (Ec.Put bx) as [x0|] eqn:Hp.
    + destruct (Ec.Finished x0) eqn:Hfin.
      * match goal with
        | |- context [renewPutEC now b ?w0] =>
            destruct (new_put_live now b w0) as (Hr & Hf & Hq);
            destruct (new_put_start now b w0) as (Hst & Hid & Hdk);
            destruct (renewPutEC now b w0) as [x' w2]
        end.
        cbn [fst snd] in *. cbn [mgr xacts with_xacts disk nextXactID] in *.
        rewrite lookup_insert_eq. cbn [mbind option_bind Ec.Put Ec.SetPut Ec.put].
        split; [reflexivity|]. split; [exact Hf|]. split; [exact Hdk|].
        right. split; [|auto].
        intros x1 E. injection E as <-. exact Hfin.
      * cbn [fst snd mgr xacts disk nextXactID]. rewrite Hb.
        cbn [mbind option_bind]. rewrite Hp.
        split; [reflexivity|]. split; [exact Hfin|]. split; [reflexivity|].
        left. auto.
    + match goal with
      | |- context [renewPutEC now b ?w0] =>
          destruct (new_put_live now b w0) as (Hr & Hf & Hq);
          destruct (new_put_start now b w0) as (Hst & Hid & Hdk);
          destruct (renewPutEC now b w0) as [x' w2]
      end.
      cbn [fst snd] in *. cbn [mgr xacts with_xacts disk nextXactID] in *.
      rewrite lookup_insert_eq. cbn [mbind option_bind Ec.Put Ec.SetPut Ec.put].
      split; [reflexivity|]. split; [exact Hf|]. split; [exact Hdk|].
      right. split; [|auto]. intros x1 E. discriminate.
  - cbn [Ec.Put emptyBckXacts Ec.put].
    match goal with
    | |- context [renewPutEC now b ?w0] =>
        destruct (new_put_live now b w0) as (Hr & Hf & Hq);
        destruct (new_put_start now b w0) as (Hst & Hid & Hdk);
        destruct (renewPutEC now b w0) as [x' w2]
    end.
    cbn [fst snd] in *. cbn [mgr xacts with_xacts disk nextXactID] in *.
    rewrite lookup_insert_eq. cbn [mbind option_bind Ec.Put Ec.SetPut Ec.put].
    split; [reflexivity|]. split; [exact Hf|]. split; [exact Hdk|].
    right. split; [|auto]. intros x1 E. discriminate.
Qed.

(** A submission to an xaction that does not reject: it blocks on the
    full channel or is queued at its tail. *)
Lemma dispatchDecoding_accepts (x : Ec.XactPut) (req : Ec.Request) :
  Ec.rejectReq x = false ->
  (Ec.dispatchDecodingRequest x req = None /\
   (Ec.requestBufSizeGlobal <= length (Ec.ecCh x))%nat) \/
  Ec.dispatchDecodingRequest x req
    = Some (Ec.with_ecCh (Ec.ecCh x ++ [req]) x, []).
Proof.
  intros Hrej. unfold Ec.dispatchDecodingRequest, Ec.ecRequestsEnabled,
    Ec.chan_send. rewrite Hrej. cbn [negb].
  destruct (length (Ec.ecCh x) <? Ec.requestBufSizeGlobal)%nat eqn:Hlen;
    cbn [mbind option_bind]; [right; reflexivity|].
  left. split; [reflexivity|]. apply Nat.ltb_ge. exact Hlen.
Qed.

End WorldProofs.

(** X18: [EncodeObject] run on its own (nothing else acting on the Put
    xaction of the bucket during the call), on a target where the Put
    xaction recorded for the bucket, if any, does not reject unless it has
    ended (its loop is not inside the clear branch), for an object that
    passes the checks: either the call blocks on the full request channel
    of the recorded xaction, which has not ended, or it returns nil having
    put a split request for the loaded object, without error channel, at
    the tail of the request channel of the Put xaction recorded for the
    bucket, which has not ended.  That xaction is the one recorded before
    if it had not ended, with its queue as it was and no xaction id
    allocated; otherwise it is a new one, under a new id, with the request
    as its only one.  The extended attributes on disk are as before. *)
Theorem X18_EncodeObject_queues (env : Ais.TargetEnv) (now : Z)
    (lom : Cluster.LOM) (w : Ais.World) (meta : Cluster.LomMeta) :
  (forall x, AisMore.put_of w (Cluster.Bucket lom) = Some x ->
             Ec.rejectReq x = true -> Ec.Finished x = true) ->
  Cluster.Enabled (Cluster.EC (Cluster.BckProps lom)) = true ->
  (Ec.IsECCopy (Cluster.Size lom) (Cluster.EC (Cluster.BckProps lom)) = true \/
   Cluster.RequiredEncodeTargets (Cluster.EC (Cluster.BckProps lom))
     <= Ais.targetCnt (Ais.mgr w)) ->
  Cluster.FQN lom <> "" ->
  Fs.Path (Cluster.MpathInfo (Cluster.lomParsedFQN lom)) <> "" ->
  Ais.AvgCapUsed_oos env = false ->
  Ais.FileSpec_PermToProcess env (Cluster.FQN lom) <> Some false ->
  Ais.disk w !! Cluster.FQN lom = Some meta ->
  (Ais.EncodeObject env now lom w = Ok None /\
   exists x,
     AisMore.put_of w (Cluster.Bucket lom) = Some x /\
     Ec.Finished x = false /\
     (Ec.requestBufSizeGlobal <= length (Ec.ecCh x))%nat) \/
  (exists w' x req,
     Ais.EncodeObject env now lom w = Ok (Some (None, w', [])) /\
     Ais.disk w' = Ais.disk w /\
     AisMore.put_of w' (Cluster.Bucket lom) = Some x /\
     Ec.Finished x = false /\
     Ec.ReqAction req = Ec.ActSplit /\
     Ais.Load (Ais.disk w) lom = inl (Ec.ReqLOM req) /\
     Ec.IsCopy req
       = Ec.IsECCopy (Cluster.Size lom) (Cluster.EC (Cluster.BckProps lom)) /\
     Ec.ErrCh req = None /\
     ((exists x0,
         AisMore.put_of w (Cluster.Bucket lom) = Some x0 /\
         Ec.Finished x0 = false /\ Ec.ecCh x = Ec.ecCh x0 ++ [req] /\
         Ais.nextXactID w' = Ais.nextXactID w) \/
      ((forall x0, AisMore.put_of w (Cluster.Bucket lom) = Some x0 ->
                   Ec.Finished x0 = true) /\
       Ec.ecCh x = [req] /\ AisMore.StartTime_of x = now /\
       Ais.nextXactID w' = Ais.nextXactID w + 1))).
Proof.
  intros Hpre Hen Hcnt Hfqn Hpath Hoos Hspec Hdisk.
  unfold Ais.EncodeObject. rewrite Hen. cbn [negb].
  assert (Hgate : negb (Ec.IsECCopy (Cluster.Size lom)
                          (Cluster.EC (Cluster.BckProps lom)))
                  && (Ais.targetCnt (Ais.mgr w)
                        <? Cluster.RequiredEncodeTargets
                             (Cluster.EC (Cluster.BckProps lom))) = false).
  { destruct Hcnt as [-> | Hle]; [reflexivity|].
    apply andb_false_iff. right. apply Z.ltb_ge. exact Hle. }
  rewrite Hgate.
  apply String.eqb_neq in Hfqn. apply String.eqb_neq in Hpath.
  rewrite Hfqn, Hpath, Hoos.
  unfold Ais.Load. rewrite Hdisk.
  destruct (restoreBckPutXact_cases now (Cluster.Bucket lom) w)
    as (Hrec & Hfin & Hd & Hcase).
  destruct (Ais.restoreBckPutXact now (Cluster.Bucket lom) w) as [xact w1].
  cbn [fst snd] in *. cbv zeta.
  assert (Hrej : Ec.rejectReq xact = false).
  { destruct Hcase as [[Hold _]|(_ & Hr & _)]; [|exact Hr].
    destruct (Ec.rejectReq xact) eqn:E; [|reflexivity].
    rewrite (Hpre xact Hold E) in Hfin. discriminate. }
  unfold Ec.Encode.
  match goal with
  | |- context [Ec.dispatchDecodingRequest xact ?r] =>
      remember r as req eqn:Hreq
  end.
  destruct (dispatchDecoding_accepts xact req Hrej) as [[Hblk Hfull]|Hacc].
  - left. rewrite Hblk.
    split; [destruct (Ais.FileSpec_PermToProcess env (Cluster.FQN lom))
              as [[|]|]; [reflexivity|congruence|reflexivity]|].
    destruct Hcase as [[Hold _]|(_ & _ & Hq & _)].
    + exists xact. auto.
    + rewrite Hq in Hfull. simpl in Hfull. vm_compute in Hfull. lia.
  - right. rewrite Hacc.
    destruct (put_of_store_put (Cluster.Bucket lom)
                (Ec.with_ecCh (Ec.ecCh xact ++ [req]) xact) w1)
      as (Hl & Hid & Hdk).
    eexists _, _, req.
    split; [destruct (Ais.FileSpec_PermToProcess env (Cluster.FQN lom))
              as [[|]|]; [reflexivity|congruence|reflexivity]|].
    split; [rewrite Hdk; exact Hd|]. split; [exact Hl|].
    split; [exact Hfin|]. split; [rewrite Hreq; reflexivity|].
    split; [rewrite Hreq; reflexivity|].
    split; [rewrite Hreq; reflexivity|]. split; [rewrite Hreq; reflexivity|].
    destruct Hcase as [[Hold Hsame]|(Hended & _ & Hq & Hst & Hnew)].
    + left. exists xact. rewrite Hid. auto.
    + right. rewrite Hid. cbn [Ec.ecCh Ec.with_ecCh]. rewrite Hq.
      split; [exact Hended|]. split; [reflexivity|]. split; [exact Hst|exact Hnew].
Qed.

Lemma X18_EncodeObject_queues_witness :
  exists w' x req,
    Ais.EncodeObject Sample.tenv 5 Sample.lom1 Sample.world3
      = Ok (Some (None, w', [])) /\
    AisMore.put_of w' "b" = Some x /\ Ec.Finished x = false /\
    Ec.ecCh x = [req] /\ Ais.nextXactID w' = 2.
Proof.
  destruct (X18_EncodeObject_queues Sample.tenv 5 Sample.lom1 Sample.world3
              (Cluster.mkLomMeta "1" None [])
              ltac:(intros x Hx; vm_compute in Hx; discriminate)
              ltac:(vm_compute; reflexivity)
              ltac:(left; vm_compute; reflexivity)
              ltac:(vm_compute; congruence)
              ltac:(vm_compute; congruence)
              ltac:(vm_compute; reflexivity)
              ltac:(vm_compute; congruence)
              ltac:(vm_compute; reflexivity))
    as [[Hblk _]|(w' & x & req & HE & _ & Hp & Hf & _ & _ & _ & _ & Hcase)].
  - vm_compute in Hblk. discriminate.
  - exists w', x, req. split; [exact HE|]. split; [exact Hp|].
    split; [exact Hf|].
    destruct Hcase as [(x0 & Hx0 & _)|(_ & Hq & _ & Hid)].
    + vm_compute in Hx0. discriminate.
    + split; [exact Hq|exact Hid].
Defined.

(** X19: a cluster-map message with a newer version makes the manager cache
    the owner's map and its number of targets (a count within int32); from
    then on an object of an EC bucket that is not an EC copy is refused with
    InsufficientTargets when that count is below the bucket's requirement
    for encoding, and a restore is refused when it is below the requirement
    for restoring.  A message whose version is not newer changes nothing. *)
Theorem X19_smap_change_gates_requests (env : Ais.TargetEnv) (now now' v : Z)
    (owner : Ais.Smap) (w : Ais.World) (lom : Cluster.LOM) :
  - 2 ^ 31 <= Ais.CountTargets owner < 2 ^ 31 ->
  Cluster.Enabled (Cluster.EC (Cluster.BckProps lom)) = true ->
  let m' := fst (fst (Ais.ListenSmapChanged_step now owner (Some v) (Ais.mgr w))) in
  let w' := AisMore.with_mgr m' w in
  (v <= Ais.Version (Ais.smap (Ais.mgr w)) -> m' = Ais.mgr w) /\
  (Ais.Version (Ais.smap (Ais.mgr w)) < v ->
   Ais.smap m' = owner /\ Ais.targetCnt m' = Ais.CountTargets owner /\
   (Ec.IsECCopy (Cluster.Size lom) (Cluster.EC (Cluster.BckProps lom)) = false ->
    Ais.CountTargets owner
      < Cluster.RequiredEncodeTargets (Cluster.EC (Cluster.BckProps lom)) ->
    exists ev,
      Ais.EncodeObject env now' lom w'
        = Ok (Some (Some Ec.ErrorInsufficientTargets, w', ev))) /\
   (Ais.CountTargets owner
      < Cluster.RequiredRestoreTargets (Cluster.EC (Cluster.BckProps lom)) ->
    exists ev,
      Ais.RestoreObject env now' lom w'
        = Ok (Some Ec.ErrorInsufficientTargets, w', ev))).
Proof.
  intros Hrange Hen m' w'.
  assert (Hwrap : Ais.wrap32 (Ais.CountTargets owner) = Ais.CountTargets owner).
  { unfold Ais.wrap32. rewrite Z.mod_small by lia. lia. }
  split.
  - intros Hle. subst m'. unfold Ais.ListenSmapChanged_step.
    apply Z.leb_le in Hle. rewrite Hle. reflexivity.
  - intros Hlt.
    assert (Hm : Ais.smap m' = owner /\
                 Ais.targetCnt m' = Ais.CountTargets owner).
    { subst m'. unfold Ais.ListenSmapChanged_step.
      apply Z.leb_gt in Hlt. rewrite Hlt.
      destruct (fold_left _ _ _) as [xs ev]. simpl. auto. }
    destruct Hm as [Hs Hc]. split; [exact Hs|]. split; [exact Hc|]. split.
    + intros Hcopy Hreq. unfold Ais.EncodeObject. rewrite Hen, Hcopy.
      change (Ais.targetCnt (Ais.mgr w')) with (Ais.targetCnt m').
      rewrite Hc. apply Z.ltb_lt in Hreq. rewrite Hreq. simpl.
      eexists. reflexivity.
    + intros Hreq. unfold Ais.RestoreObject. rewrite Hen.
      change (Ais.targetCnt (Ais.mgr w')) with (Ais.targetCnt m').
      rewrite Hc. apply Z.ltb_lt in Hreq. rewrite Hreq. simpl.
      eexists. reflexivity.
Qed.

Lemma X19_smap_change_gates_requests_witness :
  exists ev,
    Ais.EncodeObject Sample.tenv 9 Sample.lom_big
      (AisMore.with_mgr
         (fst (fst (Ais.ListenSmapChanged_step 8 (Ais.mkSmap 2 4) (Some 2)
                      Sample.manager)))
         (Ais.mkWorld Sample.manager (Ais.disk Sample.world3) Sample.mfs1 4))
    = Ok (Some (Some Ec.ErrorInsufficientTargets,
                AisMore.with_mgr
                  (fst (fst (Ais.ListenSmapChanged_step 8 (Ais.mkSmap 2 4) (Some 2)
                               Sample.manager)))
                  (Ais.mkWorld Sample.manager (Ais.disk Sample.world3)
                     Sample.mfs1 4), ev)).
Proof.
  apply (proj1 (proj2 (proj2
           (proj2 (X19_smap_change_gates_requests Sample.tenv 8 9 2
                     (Ais.mkSmap 2 4)
                     (Ais.mkWorld Sample.manager (Ais.disk Sample.world3)
                        Sample.mfs1 4)
                     Sample.lom_big ltac:(simpl; lia) eq_refl)
              ltac:(simpl; lia)))));
    vm_compute; reflexivity.
Defined.

(** X20: the Put xaction of a bucket is renewed only when none is recorded
    or the recorded one has ended: a recorded xaction that has not ended is
    returned as it is and no xaction id is allocated; and whatever the
    state, a second call right after the first returns the same xaction and
    leaves the state of the first. *)
Theorem X20_restoreBckPutXact_reuses (now now' : Z) (b : string) (w : Ais.World) :
  (forall bx x,
     Ais.xacts (Ais.mgr w) !! b = Some bx -> Ec.Put bx = Some x ->
     Ec.Finished x = false -> Ais.restoreBckPutXact now b w = (x, w)) /\
  Ais.restoreBckPutXact now' b (snd (Ais.restoreBckPutXact now b w))
    = Ais.restoreBckPutXact now b w /\
  (Ais.nextXactID (snd (Ais.restoreBckPutXact now b w)) = Ais.nextXactID w \/
   Ais.nextXactID (snd (Ais.restoreBckPutXact now b w)) = Ais.nextXactID w + 1).
Proof.
  assert (Hlive : forall t w0 bx x,
     Ais.xacts (Ais.mgr w0) !! b = Some bx -> Ec.Put bx = Some x ->
     Ec.Finished x = false -> Ais.restoreBckPutXact t b w0 = (x, w0)).
  { intros t w0 bx x Hb Hp Hf. unfold Ais.restoreBckPutXact, Ais.getBckXacts.
    rewrite Hb, Hp, Hf. destruct w0. reflexivity. }
  split; [apply Hlive|].
  assert (Hnew : forall w0, Ec.Finished (fst (Ais.renewPutEC now b w0)) = false).
  { intros w0. apply (new_put_live now b w0). }
  unfold Ais.restoreBckPutXact at 2 3 4 5, Ais.getBckXacts.
  destruct (Ais.xacts (Ais.mgr w) !! b) as [bx|] eqn:Hb.
  - destruct (Ec.Put bx) as [x|] eqn:Hp.
    + destruct (Ec.Finished x) eqn:Hf.
      * match goal with
        | |- context [Ais.renewPutEC now b ?w0] =>
            specialize (Hnew w0);
            destruct (Ais.renewPutEC now b w0) as [x' w2] eqn:Hren
        end.
        cbn [fst snd] in *. split.
        -- eapply Hlive; [simpl; apply lookup_insert_eq|reflexivity|exact Hnew].
        -- right. unfold Ais.renewPutEC in Hren. injection Hren as _ <-.
           reflexivity.
      * cbn [fst snd]. split; [|left; reflexivity].
        destruct w. eapply Hlive; eauto.
    + match goal with
      | |- context [Ais.renewPutEC now b ?w0] =>
          specialize (Hnew w0);
          destruct (Ais.renewPutEC now b w0) as [x' w2] eqn:Hren
      end.
      cbn [fst snd] in *. split.
      * eapply Hlive; [simpl; apply lookup_insert_eq|reflexivity|exact Hnew].
      * right. unfold Ais.renewPutEC in Hren. injection Hren as _ <-.
        reflexivity.
  - cbn [Ec.Put Ais.emptyBckXacts Ec.put].
    match goal with
    | |- context [Ais.renewPutEC now b ?w0] =>
        specialize (Hnew w0);
        destruct (Ais.renewPutEC now b w0) as [x' w2] eqn:Hren
    end.
    cbn [fst snd] in *. split.
    + eapply Hlive; [simpl; apply lookup_insert_eq|reflexivity|exact Hnew].
    + right. unfold Ais.renewPutEC in Hren. injection Hren as _ <-.
      reflexivity.
Qed.



(** X23: [CleanupObject] run on its own (nothing else acting on the Put
    xaction of the bucket during the call), on a target where the Put
    xaction recorded for the bucket, if any, does not reject unless it has
    ended: for an object of an EC bucket the call either blocks on the
    full request channel of the recorded xaction, which has not ended, or
    puts a delete request for the object, without error channel, at the
    tail of the request channel of the Put xaction recorded for the bucket,
    which has not ended, and writes nothing to disk.  The number of targets
    is not consulted: when the recorded xaction has ended (for one, stopped
    by the cluster-map listener for want of targets) or none is recorded,
    a new xaction is started under a new id, with the request as its only
    one.  For a bucket without EC the call does nothing. *)
Theorem X23_CleanupObject_revives (now : Z) (lom : Cluster.LOM) (w : Ais.World) :
  (forall x, AisMore.put_of w (Cluster.Bucket lom) = Some x ->
             Ec.rejectReq x = true -> Ec.Finished x = true) ->
  Cluster.FQN lom <> "" ->
  Fs.Path (Cluster.MpathInfo (Cluster.lomParsedFQN lom)) <> "" ->
  (Cluster.Enabled (Cluster.EC (Cluster.BckProps lom)) = false ->
   AisMore.CleanupObject now lom w = Ok (Some (w, []))) /\
  (Cluster.Enabled (Cluster.EC (Cluster.BckProps lom)) = true ->
   (AisMore.CleanupObject now lom w = Ok None /\
    exists x,
      AisMore.put_of w (Cluster.Bucket lom) = Some x /\
      Ec.Finished x = false /\
      (Ec.requestBufSizeGlobal <= length (Ec.ecCh x))%nat) \/
   (exists w' x req,
      AisMore.CleanupObject now lom w = Ok (Some (w', [])) /\
      Ais.disk w' = Ais.disk w /\
      AisMore.put_of w' (Cluster.Bucket lom) = Some x /\
      Ec.Finished x = false /\
      Ec.ReqAction req = Ec.ActDelete /\ Ec.ReqLOM req = lom /\
      Ec.IsCopy req = false /\ Ec.ErrCh req = None /\
      ((exists x0,
          AisMore.put_of w (Cluster.Bucket lom) = Some x0 /\
          Ec.Finished x0 = false /\ Ec.ecCh x = Ec.ecCh x0 ++ [req] /\
          Ais.nextXactID w' = Ais.nextXactID w) \/
       ((forall x0, AisMore.put_of w (Cluster.Bucket lom) = Some x0 ->
                    Ec.Finished x0 = true) /\
        Ec.ecCh x = [req] /\ AisMore.StartTime_of x = now /\
        Ais.nextXactID w' = Ais.nextXactID w + 1)))).
Proof.
  intros Hpre Hfqn Hpath. unfold AisMore.CleanupObject.
  split; intros Hen; rewrite Hen; cbn [negb]; [reflexivity|].
  apply String.eqb_neq in Hfqn. apply String.eqb_neq in Hpath.
  rewrite Hfqn, Hpath.
  destruct (restoreBckPutXact_cases now (Cluster.Bucket lom) w)
    as (Hrec & Hfin & Hd & Hcase).
  destruct (Ais.restoreBckPutXact now (Cluster.Bucket lom) w) as [xact w1].
  cbn [fst snd] in *. cbv zeta.
  assert (Hrej : Ec.rejectReq xact = false).
  { destruct Hcase as [[Hold _]|(_ & Hr & _)]; [|exact Hr].
    destruct (Ec.rejectReq xact) eqn:E; [|reflexivity].
    rewrite (Hpre xact Hold E) in Hfin. discriminate. }
  unfold Ec.Cleanup.
  match goal with
  | |- context [Ec.dispatchDecodingRequest xact ?r] =>
      remember r as req eqn:Hreq
  end.
  destruct (dispatchDecoding_accepts xact req Hrej) as [[Hblk Hfull]|Hacc].
  - left. rewrite Hblk. split; [reflexivity|].
    destruct Hcase as [[Hold _]|(_ & _ & Hq & _)].
    + exists xact. auto.
    + rewrite Hq in Hfull. simpl in Hfull. vm_compute in Hfull. lia.
  - right. rewrite Hacc.
    destruct (put_of_store_put (Cluster.Bucket lom)
                (Ec.with_ecCh (Ec.ecCh xact ++ [req]) xact) w1)
      as (Hl & Hid & Hdk).
    eexists _, _, req. split; [reflexivity|].
    split; [rewrite Hdk; exact Hd|]. split; [exact Hl|].
    split; [exact Hfin|]. split; [rewrite Hreq; reflexivity|].
    split; [rewrite Hreq; reflexivity|].
    split; [rewrite Hreq; reflexivity|]. split; [rewrite Hreq; reflexivity|].
    destruct Hcase as [[Hold Hsame]|(Hended & _ & Hq & Hst & Hnew)].
    + left. exists xact. rewrite Hid. auto.
    + right. rewrite Hid. cbn [Ec.ecCh Ec.with_ecCh]. rewrite Hq.
      split; [exact Hended|]. split; [reflexivity|]. split; [exact Hst|exact Hnew].
Qed.

Lemma X23_CleanupObject_revives_witness :
  let w := AisMore.with_mgr
             (fst (fst (Ais.ListenSmapChanged_step 8 (Ais.mkSmap 2 2) (Some 2)
                          Sample.manager)))
             (Ais.mkWorld Sample.manager (Ais.disk Sample.world3) Sample.mfs1 4) in
  Ais.put_stopped (Ais.mgr w) "b" /\
  exists w' x req,
    AisMore.CleanupObject 9 Sample.lom_big w = Ok (Some (w', [])) /\
    AisMore.put_of w' "b" = Some x /\ Ec.Finished x = false /\
    Ec.ecCh x = [req] /\ Ais.nextXactID w' = 5.
Proof.
  intros w. split; [vm_compute; reflexivity|].
  destruct (proj2 (X23_CleanupObject_revives 9 Sample.lom_big w
              ltac:(intros x Hx _; vm_compute in Hx; injection Hx as <-;
                    vm_compute; reflexivity)
              ltac:(vm_compute; congruence)
              ltac:(vm_compute; congruence))
              ltac:(vm_compute; reflexivity))
    as [[Hblk _]|(w' & x & req & HC & _ & Hp & Hf & _ & _ & _ & _ & Hcase)].
  - vm_compute in Hblk. discriminate.
  - exists w', x, req. split; [exact HC|]. split; [exact Hp|].
    split; [exact Hf|].
    destruct Hcase as [(x0 & Hx0 & Hf0 & _)|(_ & Hq & _ & Hid)].
    + vm_compute in Hx0. injection Hx0 as <-. vm_compute in Hf0. discriminate.
    + split; [exact Hq|exact Hid].
Defined.

Section StringProofs.
Import Fs.

Lemma prefix_iff (p s : string) :
  String.prefix p s = true <-> exists t, s = p +:+ t.
Proof.
  revert s. induction p as [|a p IH]; intros s.
  - split; [intros _; exists s; reflexivity|].
    intros _. destruct s; reflexivity.
  - destruct s as [|b s]; simpl.
    + split; [discriminate|intros [t Ht]; discriminate].
    + destruct (Ascii.ascii_dec a b) as [->|Hne].
      * rewrite IH. split; intros [t Ht]; exists t.
        -- simpl. rewrite Ht. reflexivity.
        -- simpl in Ht. injection Ht as ->. reflexivity.
      * split; [discriminate|]. intros [t Ht]. simpl in Ht.
        injection Ht as Hab _. congruence.
Qed.

Lemma Contains_iff (s u : string) :
  Contains s u = true <-> exists pre post, s = pre +:+ u +:+ post.
Proof.
  induction s as [|c s IH].
  - destruct u as [|a u]; simpl.
    + split; [intros _; exists "", ""; reflexivity|reflexivity].
    + split; [discriminate|]. intros (pre & post & H).
      destruct pre; discriminate.
  - change (Contains (String c s) u)
      with (String.prefix u (String c s) || Contains s u).
    rewrite orb_true_iff, prefix_iff, IH. split.
    + intros [[t Ht]|(pre & post & H)].
      * exists "", t. exact Ht.
      * exists (String c pre), post. simpl. rewrite H. reflexivity.
    + intros (pre & post & H). destruct pre as [|c' pre].
      * left. exists post. exact H.
      * right. simpl in H. injection H as _ H. exists pre, post. exact H.
Qed.

Lemma append_assoc (a b c : string) : (a +:+ b) +:+ c = a +:+ (b +:+ c).
Proof.
  induction a as [|x a IH]; [reflexivity|].
  change (String x ((a +:+ b) +:+ c) = String x (a +:+ (b +:+ c))).
  f_equal. exact IH.
Qed.

Lemma Contains_refl (s : string) : Contains s s = true.
Proof.
  apply Contains_iff. exists "", "". induction s as [|c s IH]; [reflexivity|].
  change (String c s = String c ("" +:+ s +:+ "")). f_equal. exact IH.
Qed.

Lemma Contains_trans (s t u : string) :
  Contains s t = true -> Contains t u = true -> Contains s u = true.
Proof.
  rewrite !Contains_iff. intros (p1 & q1 & ->) (p2 & q2 & ->).
  exists (p1 +:+ p2), (q2 +:+ q1). rewrite !append_assoc. reflexivity.
Qed.

Lemma Contains_empty (u : string) : Contains "" u = true -> u = "".
Proof.
  rewrite Contains_iff. intros (pre & post & H).
  destruct pre; [|discriminate]. destruct u; [reflexivity|discriminate].
Qed.

Lemma split_on_head (sep : ascii) (s : string) :
  exists h t, split_on sep s = h :: t /\ String.prefix h s = true.
Proof.
  induction s as [|c s (h & t & IH & Hp)]; simpl.
  - exists "", []. auto.
  - destruct (Ascii.eqb c sep).
    + eexists "", _. split; reflexivity.
    + rewrite IH. exists (String c h), t. split; [reflexivity|].
      simpl. destruct (Ascii.ascii_dec c c); [exact Hp|congruence].
Qed.

Lemma split_on_Contains (sep : ascii) (s e : string) :
  In e (split_on sep s) -> Contains s e = true.
Proof.
  revert e. induction s as [|c s IH]; intros e; simpl.
  - intros [<-|[]]. reflexivity.
  - destruct (split_on_head sep s) as (h & t & Hs & Hp).
    rewrite Hs in *. destruct (Ascii.eqb c sep).
    + intros [<-|Hin]; [reflexivity|].
      rewrite (IH e Hin). apply orb_true_r.
    + intros [<-|Hin].
      * simpl. destruct (Ascii.ascii_dec c c); [|congruence].
        rewrite Hp. reflexivity.
      * rewrite (IH e (or_intror Hin)). apply orb_true_r.
Qed.

End StringProofs.

Section OverlapProofs.
Import Fs Net.

Variable TrimSpace : string -> string.

Lemma overlap_loop_spec (l : list string) (blist : string) :
  let res := overlap_loop TrimSpace l blist in
  (fst res = true ->
     snd res <> "" /\ Contains blist (snd res) = true /\
     exists a, In a l /\ snd res = TrimSpace a) /\
  (fst res = false ->
     snd res = "" /\
     forall a, In a l -> TrimSpace a <> "" ->
               Contains blist (TrimSpace a) = false).
Proof.
  induction l as [|a l [IHt IHf]]; simpl.
  - split; [discriminate|]. intros _. split; [reflexivity|]. intros a [].
  - destruct (String.eqb (TrimSpace a) "") eqn:He.
    + apply String.eqb_eq in He. split.
      * intros H. destruct (IHt H) as (Hn & Hc & a' & Hin & Ha').
        split; [exact Hn|]. split; [exact Hc|]. exists a'. auto.
      * intros H. destruct (IHf H) as (Hs & Hall). split; [exact Hs|].
        intros a' [<-|Hin] Hne; [congruence|auto].
    + apply String.eqb_neq in He.
      destruct (Contains blist (TrimSpace a)) eqn:Hc; simpl.
      * split; [|discriminate]. intros _. split; [exact He|].
        split; [exact Hc|]. exists a. auto.
      * split.
        -- intros H. destruct (IHt H) as (Hn & Hc' & a' & Hin & Ha').
           split; [exact Hn|]. split; [exact Hc'|]. exists a'. auto.
        -- intros H. destruct (IHf H) as (Hs & Hall). split; [exact Hs|].
           intros a' [<-|Hin] Hne; [exact Hc|auto].
Qed.

End OverlapProofs.

(** X22: when [ipv4ListsOverlap] reports an overlap, the address it names
    is not empty, is the trimmed form of an element of the first list and
    occurs in the second list as a substring.  When it reports none, it
    names no address, and no element of the first list that is non-empty
    after trimming has the same trimmed form as an element of the second
    list: a shared address is never missed.  [strings.TrimSpace] is only
    assumed to return a part of its argument. *)
Theorem X22_ipv4ListsOverlap (TrimSpace : string -> string)
    (alist blist : string) :
  (forall s, Fs.Contains s (TrimSpace s) = true) ->
  let res := Net.ipv4ListsOverlap TrimSpace alist blist in
  (fst res = true ->
     snd res <> "" /\ Fs.Contains blist (snd res) = true /\
     exists a, In a (Fs.split_on ","%char alist) /\ snd res = TrimSpace a) /\
  (fst res = false ->
     snd res = "" /\
     forall a b,
       In a (Fs.split_on ","%char alist) -> In b (Fs.split_on ","%char blist) ->
       TrimSpace a <> "" -> TrimSpace a <> TrimSpace b).
Proof.
  intros Htrim res. subst res. unfold Net.ipv4ListsOverlap.
  assert (Hnil : TrimSpace "" = "") by (apply Contains_empty, Htrim).
  destruct (String.eqb alist "") eqn:Ha; simpl.
  - apply String.eqb_eq in Ha. subst alist. split; [discriminate|].
    intros _. split; [reflexivity|]. simpl.
    intros a b [<-|[]] _ Hne. congruence.
  - destruct (String.eqb blist "") eqn:Hb; simpl.
    + apply String.eqb_eq in Hb. subst blist. split; [discriminate|].
      intros _. split; [reflexivity|]. simpl.
      intros a b _ [<-|[]] Hne. congruence.
    + destruct (overlap_loop_spec TrimSpace (Fs.split_on ","%char alist) blist)
        as [Ht Hf].
      split; [exact Ht|].
      intros Hres. destruct (Hf Hres) as (Hs & Hall). split; [exact Hs|].
      intros a b Hina Hinb Hne Heq.
      specialize (Hall a Hina Hne).
      assert (Contains_b : Fs.Contains blist (TrimSpace b) = true).
      { eapply Contains_trans;
          [apply (split_on_Contains ","%char); exact Hinb|apply Htrim]. }
      rewrite Heq in Hall. congruence.
Qed.

Lemma X22_ipv4ListsOverlap_witness :
  Net.ipv4ListsOverlap (fun s => s) "10.0.0.1,10.0.0.2" "10.0.1.1,10.0.0.2"
    = (true, "10.0.0.2") /\
  Fs.Contains "10.0.1.1,10.0.0.2" "10.0.0.2" = true.
Proof.
  split; [vm_compute; reflexivity|].
  apply (proj1 (X22_ipv4ListsOverlap (fun s => s)
                  "10.0.0.1,10.0.0.2" "10.0.1.1,10.0.0.2"
                  Contains_refl)
           ltac:(vm_compute; reflexivity)).
Defined.

(** The test is for a substring, so two lists without a common address
    can be reported as overlapping. *)
Example ipv4ListsOverlap_substring :
  Net.ipv4ListsOverlap (fun s => s) "10.0.0.1" "110.0.0.12" = (true, "10.0.0.1").
Proof. vm_compute. reflexivity. Qed.
